(** * Profile synchronisation and snapshot codec of [src/App.tsx]

    A shallow embedding of the guest/authenticated profile logic of the
    application component: the [jsonReplacer] closure that guards
    [JSON.stringify], the reviver passed to [JSON.parse], and the
    [onAuthStateChanged] / [onSnapshot] callbacks with their effects on the
    component state and on [localStorage].

    JavaScript values live in a heap of objects so that object identity,
    aliasing and cycles are visible to the [WeakSet] of the replacer.
    What the host provides and the source only calls (the concrete JSON
    grammar, the textual form of instants, the [toJSON] of the store's
    Timestamp class) is an interface, [Runtime]; a reference implementation
    is given at the end of the definitions.

    Conventions.  Numbers are the integers (the counters of a profile); a
    double that is not an integer is outside the model.  Strings are byte
    strings; identity ids are ASCII, for which a byte and a UTF-16 code unit
    coincide.  Console diagnostics of the codec are not recorded. *)

From Stdlib Require Import ZArith Lia Ascii DecimalString DecimalZ.
From stdpp Require Import gmap strings list.

(** ** JavaScript values and the object heap *)

Notation loc := nat.

Inductive value :=
| VUndefined
| VNull
| VBool (b : bool)
| VNum (n : Z)
| VStr (s : string)
| VRef (l : loc).

#[global] Instance value_eq_dec : EqDecision value.
Proof. solve_decision. Defined.

Notation props := (list (string * value)).

(** The objects the codec can meet.  [OInstance tag ps] is an object that is
    not a plain record: [tag] is what [Object.prototype.toString] reports
    between [[object ] and []]: the built-in tag of a [Map], [RegExp],
    [Error] and the like, or [Symbol.toStringTag]; for an instance of an
    ordinary class, which defines neither, it is [Object] (ECMA-262,
    20.1.3.6). *)
Inductive obj :=
| ODate (t : option Z)            (* time value in ms; [None]: Invalid Date *)
| OSet (members : list value)     (* in insertion order *)
| OTimestamp (millis : Z)         (* the store's Timestamp: [toDate()] is [new Date(millis)] *)
| OArray (elems : list value)
| OPlain (ps : props)
| OInstance (tag : string) (ps : props).

Notation heap := (list obj).

Definition alloc (o : obj) (h : heap) : heap * value :=
  (h ++ [o], VRef (length h)).

(** Own enumerable property lookup, first binding. *)
Fixpoint get (k : string) (ps : props) : option value :=
  match ps with
  | [] => None
  | (k', v) :: ps' => if String.eqb k k' then Some v else get k ps'
  end.

(** [CreateDataProperty]: overwrite in place, or append. *)
Fixpoint put (k : string) (v : value) (ps : props) : props :=
  match ps with
  | [] => [(k, v)]
  | (k', v') :: ps' =>
      if String.eqb k k' then (k', v) :: ps' else (k', v') :: put k v ps'
  end.

Definition isArray (o : obj) : bool :=
  match o with OArray _ => true | _ => false end.

(** [Object.prototype.toString.call(o)], without its [[object ...]] frame. *)
Definition toStringTag (o : obj) : string :=
  match o with
  | ODate _ => "Date"
  | OSet _ => "Set"
  | OTimestamp _ => "Object"
  | OArray _ => "Array"
  | OPlain _ => "Object"
  | OInstance tag _ => tag
  end.

(** ** Outcomes of a JavaScript computation *)

Inductive exn := TypeError | RangeError | SyntaxError.

Inductive outcome (A : Type) :=
| Ok (a : A)
| Throw (e : exn)
| Dangling          (* a reference outside the heap: not a JavaScript state *)
| Timeout.          (* the recursion budget of the model ran out *)
Arguments Ok {A} a.
Arguments Throw {A} e.
Arguments Dangling {A}.
Arguments Timeout {A}.

#[global] Instance outcome_ret : MRet outcome := fun A a => Ok a.
#[global] Instance outcome_bind : MBind outcome := fun A B f m =>
  match m with
  | Ok a => f a
  | Throw e => Throw e
  | Dangling => Dangling
  | Timeout => Timeout
  end.

(** ** JSON documents and the host runtime *)

#[local] Set Warnings "-register-all".

Inductive json :=
| JNull
| JBool (b : bool)
| JNum (n : Z)
| JStr (s : string)
| JArr (items : list json)
| JObj (members : list (string * json)).

(** The range of time values (ECMA-262, 21.4.1.1). *)
Definition validTime (t : Z) : Prop :=
  (-8640000000000000 <= t <= 8640000000000000)%Z.

#[global] Instance validTime_dec t : Decision (validTime t).
Proof. unfold validTime. apply _. Defined.

(** What the host provides: the ISO-8601 text of an instant and the date
    parser behind [new Date(string)] ([None] when [getTime()] is [NaN]); the
    JSON grammar, as a printer of documents and a recogniser of texts.  The
    two laws are those of ECMA-262: [Date.parse(d.toISOString())] is the time
    value of [d] (21.4.3.2), and [JSON.parse] reads back what
    [JSON.stringify] wrote (25.5).

    What the store's library provides, and is not part of the sources: the
    [toJSON] method of its Timestamp class, [None] when the class has none,
    otherwise the value the method returns for a timestamp of the given
    instant, a fresh plain value at every call. *)
Class Runtime := {
  toISOString : Z -> string;
  Date_parse : string -> option Z;
  JSON_text : json -> string;
  JSON_syntax : string -> option json;
  Timestamp_toJSON : Z -> option json;
  Date_parse_toISOString :
    forall t, validTime t -> Date_parse (toISOString t) = Some t;
  JSON_syntax_text : forall j, JSON_syntax (JSON_text j) = Some j
}.

(** [ToString] of an array index. *)
Definition index_key (i : nat) : string :=
  NilZero.string_of_uint (Nat.to_uint i).

Section Codec.
Context `{RT : Runtime}.

(** ** [jsonReplacer] (App.tsx, lines 13-52)

    The closure state [seen] is threaded explicitly.  The result of one call
    is the value handed back to [JSON.stringify]. *)

Inductive replaced :=
| RValue (v : value)            (* [value], a string, or [undefined] *)
| RFresh (elems : list value).  (* [Array.from(set)]: an array nothing else holds *)

Definition jsonReplacer (h : heap) (seen : gset loc) (key : string) (v : value)
  : outcome (gset loc * replaced) :=
  match v with
  | VRef l =>
      (* 1. circular references *)
      if decide (l ∈ seen) then Ok (seen, RValue VUndefined)
      else
        let seen := {[l]} ∪ seen in
        match h !! l with
        | None => Dangling
        (* 2. specific serializable types *)
        | Some (ODate (Some t)) => Ok (seen, RValue (VStr (toISOString t)))
        | Some (ODate None) => Throw RangeError
        | Some (OSet ms) => Ok (seen, RFresh ms)
        | Some (OTimestamp t) =>
            (* [value.toDate()] is [new Date(t)], invalid out of range *)
            if decide (validTime t) then Ok (seen, RValue (VStr (toISOString t)))
            else Throw RangeError
        (* 3. arrays and [[object Object]] pass through; 4. the rest is dropped *)
        | Some o =>
            if isArray o || String.eqb (toStringTag o) "Object"
            then Ok (seen, RValue v)
            else Ok (seen, RValue VUndefined)
        end
  | _ => Ok (seen, RValue v)    (* typeof value !== 'object' || value === null *)
  end.

(** ** [JSON.stringify(value, jsonReplacer())] (ECMA-262, 25.5.2)

    [SerializeJSONProperty]: [toJSON] is tried first, then the replacer is
    called, then the result is dispatched on.  Of the objects here a [Date]
    has a [toJSON] (its ISO text, or [null] when invalid), and a timestamp
    has one when its class does.  [stack] is the internal cycle check of
    [JSON.stringify], which throws a [TypeError]. *)

Inductive jsonified :=
| JSame (v : value)   (* the value itself, or what the [toJSON] of a [Date] returned *)
| JFresh (j : json).  (* what the [toJSON] of a timestamp returned *)

Definition toJSON (h : heap) (v : value) : jsonified :=
  match v with
  | VRef l =>
      match h !! l with
      | Some (ODate (Some t)) => JSame (VStr (toISOString t))
      | Some (ODate None) => JSame VNull
      | Some (OTimestamp t) =>
          match Timestamp_toJSON t with
          | Some j => JFresh j
          | None => JSame v
          end
      | _ => JSame v
      end
  | _ => JSame v
  end.

Definition ownProps (o : obj) : props :=
  match o with
  | OPlain ps | OInstance _ ps => ps
  | _ => []
  end.

Definition serializer := gset loc -> string -> value -> outcome (gset loc * option json).

(** [SerializeJSONArray]: an element that serializes to [undefined] is
    written as [null]. *)
Fixpoint serElements (rec : serializer) (seen : gset loc) (i : nat)
    (vs : list value) : outcome (gset loc * list json) :=
  match vs with
  | [] => Ok (seen, [])
  | v :: vs' =>
      '(seen, r) ← rec seen (index_key i) v;
      '(seen, js) ← serElements rec seen (S i) vs';
      Ok (seen, default JNull r :: js)
  end.

(** [SerializeJSONObject]: a property that serializes to [undefined] is
    left out. *)
Fixpoint serMembers (rec : serializer) (seen : gset loc)
    (ps : props) : outcome (gset loc * list (string * json)) :=
  match ps with
  | [] => Ok (seen, [])
  | (k, v) :: ps' =>
      '(seen, r) ← rec seen k v;
      '(seen, ms) ← serMembers rec seen ps';
      Ok (seen, match r with Some j => (k, j) :: ms | None => ms end)
  end.

Fixpoint SerializeJSONProperty (fuel : nat) (h : heap) (stack : list loc)
    (seen : gset loc) (key : string) (v : value)
  : outcome (gset loc * option json) :=
  match fuel with
  | 0 => Timeout
  | S fuel =>
      match toJSON h v with
      | JFresh j =>
          (* the replacer has not met the fresh value (it adds it to its
             set, where nothing looks for it again) and finds it plain,
             through and through: it hands every part of it back as it is *)
          Ok (seen, Some j)
      | JSame v =>
          '(seen, r) ← jsonReplacer h seen key v;
          match r with
          | RFresh elems =>
              '(seen, js) ← serElements (SerializeJSONProperty fuel h stack) seen 0 elems;
              Ok (seen, Some (JArr js))
          | RValue VUndefined => Ok (seen, None)
          | RValue VNull => Ok (seen, Some JNull)
          | RValue (VBool b) => Ok (seen, Some (JBool b))
          | RValue (VNum n) => Ok (seen, Some (JNum n))
          | RValue (VStr s) => Ok (seen, Some (JStr s))
          | RValue (VRef l) =>
              match h !! l with
              | None => Dangling
              | Some o =>
                  if decide (l ∈ stack) then Throw TypeError
                  else
                    let rec := SerializeJSONProperty fuel h (l :: stack) in
                    match o with
                    | OArray elems =>
                        '(seen, js) ← serElements rec seen 0 elems;
                        Ok (seen, Some (JArr js))
                    | _ =>
                        '(seen, ms) ← serMembers rec seen (ownProps o);
                        Ok (seen, Some (JObj ms))
                    end
              end
          end
      end
  end.

(** The whole call.  No path through an object can be longer than the heap,
    which bounds the recursion ([stringify_settles] below).  [undefined] is
    returned when the root itself is dropped. *)
Definition JSON_stringify (h : heap) (v : value) : outcome (option string) :=
  '(seen, r) ← SerializeJSONProperty (S (length h)) h [] ∅ EmptyString v;
  Ok (option_map JSON_text r).

(** ** [JSON.parse(text, reviver)] (App.tsx, lines 75-87; ECMA-262, 25.5.1)

    [InternalizeJSONProperty] rebuilds the document bottom-up in fresh
    objects and calls the reviver on every value with the key it sits under
    (the root under the empty key). *)

Definition dateKeys : list string := ["createdAt"; "startDate"; "timestamp"].

Definition setKey : string := "communityPostFireReactions".

(** [new Set(array)]: first occurrences, in order. *)
Fixpoint addAll (acc vs : list value) : list value :=
  match vs with
  | [] => acc
  | v :: vs' => addAll (if decide (v ∈ acc) then acc else acc ++ [v]) vs'
  end.

Definition reviver (key : string) (v : value) (h : heap) : heap * value :=
  let revived :=
    if bool_decide (key ∈ dateKeys) then
      match v with
      | VStr s => Date_parse s        (* new Date(value), kept when not NaN *)
      | _ => None
      end
    else None in
  match revived with
  | Some t => alloc (ODate (Some t)) h
  | None =>
      if String.eqb key setKey then
        match v with
        | VRef l =>
            match h !! l with
            | Some (OArray vs) => alloc (OSet (addAll [] vs)) h
            | _ => (h, v)
            end
        | _ => (h, v)
        end
      else (h, v)
  end.

Definition internalizer := string -> json -> heap -> heap * value.

Definition intElements (rec : internalizer)
  : nat -> list json -> heap -> heap * list value :=
  fix go i js h :=
    match js with
    | [] => (h, [])
    | j :: js' =>
        let '(h, v) := rec (index_key i) j h in
        let '(h, vs) := go (S i) js' h in
        (h, v :: vs)
    end.

Definition intMembers (rec : internalizer)
  : list (string * json) -> heap -> heap * props :=
  fix go ms h :=
    match ms with
    | [] => (h, [])
    | (k, j) :: ms' =>
        let '(h, v) := rec k j h in
        let '(h, ps) := go ms' h in
        (h, (k, v) :: ps)
    end.

(** A repeated member name keeps its first place and its last value. *)
Definition buildProps (ps : props) : props :=
  foldl (fun acc kv => put kv.1 kv.2 acc) [] ps.

Fixpoint InternalizeJSONProperty (key : string) (j : json) (h : heap)
  : heap * value :=
  match j with
  | JNull => reviver key VNull h
  | JBool b => reviver key (VBool b) h
  | JNum n => reviver key (VNum n) h
  | JStr s => reviver key (VStr s) h
  | JArr js =>
      let '(h, vs) := intElements InternalizeJSONProperty 0 js h in
      let '(h, a) := alloc (OArray vs) h in
      reviver key a h
  | JObj ms =>
      let '(h, ps) := intMembers InternalizeJSONProperty ms h in
      let '(h, o) := alloc (OPlain (buildProps ps)) h in
      reviver key o h
  end.

Definition JSON_parse (text : string) (h : heap) : outcome (heap * value) :=
  match JSON_syntax text with
  | None => Throw SyntaxError
  | Some j => Ok (InternalizeJSONProperty EmptyString j h)
  end.

End Codec.

(** ** The component state and its callbacks (App.tsx, lines 55-229) *)

(** The identity the provider reports ([User] of firebase/auth). *)
Record User := {
  uid : string;
  isAnonymous : bool;
  displayName : option string;
  email : option string;
  photoURL : option string
}.

(** Calls issued to the remote collaborators; their outcome arrives later,
    through the rejection callbacks below. *)
Inductive effect :=
| Subscribe (id : string)                      (* onSnapshot(doc(db, 'users', id), ...) *)
| UpdateProfile (id : string) (url : value)    (* updateProfile(user, { photoURL }) *)
| UpdateDoc (id : string) (url : value)        (* updateDoc(userDocRef, { photoURL }) *)
| SetDoc (id : string) (fields : props).       (* setDoc(userDocRef, newProfileData) *)

Record state := {
  mem : heap;
  user : option User;
  userProfile : value;                 (* [VNull] is [null] *)
  loading : bool;
  localStorage : gmap string string;
  console : list string;               (* console.error, oldest first *)
  issued : list effect                 (* oldest first *)
}.

Definition setMem (h : heap) (st : state) : state :=
  {| mem := h; user := user st; userProfile := userProfile st;
     loading := loading st; localStorage := localStorage st;
     console := console st; issued := issued st |}.

Definition setUser (u : option User) (st : state) : state :=
  {| mem := mem st; user := u; userProfile := userProfile st;
     loading := loading st; localStorage := localStorage st;
     console := console st; issued := issued st |}.

Definition setUserProfile (p : value) (st : state) : state :=
  {| mem := mem st; user := user st; userProfile := p;
     loading := loading st; localStorage := localStorage st;
     console := console st; issued := issued st |}.

Definition setLoading (b : bool) (st : state) : state :=
  {| mem := mem st; user := user st; userProfile := userProfile st;
     loading := b; localStorage := localStorage st;
     console := console st; issued := issued st |}.

Definition setItem (k text : string) (st : state) : state :=
  {| mem := mem st; user := user st; userProfile := userProfile st;
     loading := loading st; localStorage := <[k := text]> (localStorage st);
     console := console st; issued := issued st |}.

Definition removeItem (k : string) (st : state) : state :=
  {| mem := mem st; user := user st; userProfile := userProfile st;
     loading := loading st; localStorage := delete k (localStorage st);
     console := console st; issued := issued st |}.

Definition console_error (msg : string) (st : state) : state :=
  {| mem := mem st; user := user st; userProfile := userProfile st;
     loading := loading st; localStorage := localStorage st;
     console := console st ++ [msg]; issued := issued st |}.

Definition issue (e : effect) (st : state) : state :=
  {| mem := mem st; user := user st; userProfile := userProfile st;
     loading := loading st; localStorage := localStorage st;
     console := console st; issued := issued st ++ [e] |}.

(** What the component shows to its callers: [user && userProfile]. *)
Definition truthy (v : value) : bool :=
  match v with
  | VUndefined | VNull | VBool false | VNum 0 | VStr EmptyString => false
  | _ => true
  end.

Definition currentProfile (st : state) : option value :=
  if truthy (userProfile st) then Some (userProfile st) else None.

Definition nullish (v : value) : bool :=
  match v with VUndefined | VNull => true | _ => false end.

(** [v ?? d] *)
Definition coalesce (v d : value) : value := if nullish v then d else v.

(** [data.k] *)
Definition field (k : string) (data : props) : value :=
  default VUndefined (get k data).

Definition try_catch {A} (m : outcome A) (handler : exn -> outcome A) : outcome A :=
  match m with
  | Throw e => handler e
  | _ => m
  end.

Definition guestKey : string := "guestProfile".

Definition guestLabel (id : string) : string :=
  String.append "زائر " (String.substring 0 5 id).

Definition newUserLabel : string := "مستخدم جديد".

(** [String(x)] of what [JSON.stringify] returned. *)
Definition ToString (r : option string) : string := default "undefined" r.

(** [s.charCodeAt(0)]; [None] is [NaN]. *)
Definition charCodeAt0 (s : string) : option nat :=
  match s with
  | String c _ => Some (nat_of_ascii c)
  | EmptyString => None
  end.

Section Synchronizer.
Context `{RT : Runtime}.

(** [AVATAR_OPTIONS] of components/ui/AvatarPickerModal.tsx, which is not
    part of the sources at hand: any list of URLs. *)
Variable AVATAR_OPTIONS : list string.

(** The guest default (lines 95-111). *)
Definition newGuestProfile (now : Z) (u : User) (h : heap) : heap * value :=
  let '(h, createdAt) := alloc (ODate (Some now)) h in
  let '(h, blockedUsers) := alloc (OArray []) h in
  let '(h, journalEntries) := alloc (OArray []) h in
  let '(h, habits) := alloc (OArray []) h in
  let '(h, followUpLogs) := alloc (OPlain []) h in
  let '(h, reactions) := alloc (OSet []) h in
  alloc (OPlain
    [ ("uid", VStr (uid u));
      ("displayName", VStr (guestLabel (uid u)));
      ("createdAt", createdAt);
      ("isAdmin", VBool false);
      ("isMuted", VBool false);
      ("commitmentDocument", VStr EmptyString);
      ("blockedUsers", blockedUsers);
      ("emergencyIndex", VNum 0);
      ("urgeIndex", VNum 0);
      ("storyIndex", VNum 0);
      ("journalEntries", journalEntries);
      ("habits", habits);
      ("followUpLogs", followUpLogs);
      ("communityPostFireReactions", reactions) ]) h.

(** The anonymous branch of the identity callback (lines 70-116). *)
Definition onGuest (now : Z) (u : User) (st : state) : outcome state :=
  '(st, guestProfile) ← try_catch
      (match localStorage st !! guestKey with
       | Some storedProfile =>
           if truthy (VStr storedProfile) then
             '(h, v) ← JSON_parse storedProfile (mem st);
             Ok (setMem h st, v)
           else Ok (st, VNull)
       | None => Ok (st, VNull)
       end)
      (fun e =>
         Ok (removeItem guestKey
               (console_error "Failed to parse guest profile from localStorage" st),
             VNull));
  '(st, guestProfile) ←
      (if truthy guestProfile then Ok (st, guestProfile)
       else
         let '(h, p) := newGuestProfile now u (mem st) in
         text ← JSON_stringify h p;
         Ok (setItem guestKey (ToString text) (setMem h st), p));
  Ok (setLoading false (setUserProfile guestProfile st)).

(** [user.uid.charCodeAt(0) % AVATAR_OPTIONS.length] (line 128); [None] is
    [NaN]: no first character, or a remainder by zero. *)
Definition avatarIndex (id : string) : option nat :=
  c ← charCodeAt0 id;
  if length AVATAR_OPTIONS =? 0 then None
  else Some (c mod length AVATAR_OPTIONS).

(** [AVATAR_OPTIONS[avatarIndex]] (line 129). *)
Definition defaultAvatarUrl (id : string) : value :=
  match avatarIndex id with
  | Some i => from_option VStr VUndefined (AVATAR_OPTIONS !! i)
  | None => VUndefined
  end.

(** [v?.toDate()] for [v] read from the record. *)
Definition toDate (v : value) (h : heap) : outcome (heap * value) :=
  match v with
  | VUndefined | VNull => Ok (h, VUndefined)
  | VRef l =>
      match h !! l with
      | Some (OTimestamp t) => Ok (alloc (ODate (Some t)) h)
      | Some _ => Throw TypeError
      | None => Dangling
      end
  | _ => Throw TypeError
  end.

(** The projection of an existing record (lines 143-161). *)
Definition profileData (now : Z) (u : User) (data : props) (h : heap)
  : outcome (heap * value) :=
  '(h, created) ← toDate (field "createdAt" data) h;
  let '(h, createdAt) :=
    if truthy created then (h, created) else alloc (ODate (Some now)) h in
  '(h, started) ← toDate (field "startDate" data) h;
  let startDate := if truthy started then started else VUndefined in
  let '(h, blockedUsers) :=
    if nullish (field "blockedUsers" data) then alloc (OArray []) h
    else (h, field "blockedUsers" data) in
  Ok (alloc (OPlain
    [ ("uid", VStr (uid u));
      ("displayName", field "displayName" data);
      ("email", field "email" data);
      ("photoURL", field "photoURL" data);
      ("createdAt", createdAt);
      ("startDate", startDate);
      ("isAdmin", coalesce (field "isAdmin" data) (VBool false));
      ("isMuted", coalesce (field "isMuted" data) (VBool false));
      ("role", coalesce (field "role" data) VUndefined);
      ("commitmentDocument", coalesce (field "commitmentDocument" data) (VStr EmptyString));
      ("blockedUsers", blockedUsers);
      ("emergencyIndex", coalesce (field "emergencyIndex" data) (VNum 0));
      ("urgeIndex", coalesce (field "urgeIndex" data) (VNum 0));
      ("storyIndex", coalesce (field "storyIndex" data) (VNum 0)) ]) h).

(** The record created when none exists (lines 165-180).  [serverTimestamp()]
    is a sentinel object of the store's own class. *)
Definition newProfileData (u : User) (h : heap) : heap * props :=
  let name :=
    if isAnonymous u then guestLabel (uid u)
    else match displayName u with
         | Some n => if truthy (VStr n) then n else newUserLabel
         | None => newUserLabel
         end in
  let '(h, stamp) := alloc (OInstance "Object" []) h in
  let '(h, blockedUsers) := alloc (OArray []) h in
  let spread (k : string) (o : option string) : props :=
    match o with
    | Some s => if truthy (VStr s) then [(k, VStr s)] else []
    | None => []
    end in
  (h, [ ("displayName", VStr name);
        ("createdAt", stamp);
        ("isAdmin", VBool false);
        ("isMuted", VBool false);
        ("role", VNull);
        ("commitmentDocument", VStr EmptyString);
        ("blockedUsers", blockedUsers);
        ("emergencyIndex", VNum 0);
        ("urgeIndex", VNum 0);
        ("storyIndex", VNum 0) ]
        ++ spread "email" (email u) ++ spread "photoURL" (photoURL u)).

(** The subscription callback (lines 121-186); [docSnap] is [Some data] when
    [docSnap.exists()]. *)
Definition onSnapshot (now : Z) (u : User) (docSnap : option props) (st : state)
  : outcome state :=
  match docSnap with
  | Some data =>
      let '(st, data) :=
        if truthy (field "photoURL" data) then (st, data)
        else
          let url := defaultAvatarUrl (uid u) in
          (issue (UpdateDoc (uid u) url) (issue (UpdateProfile (uid u) url) st),
           put "photoURL" url data) in
      '(h, p) ← profileData now u data (mem st);
      Ok (setLoading false (setUserProfile p (setMem h st)))
  | None =>
      let '(h, fields) := newProfileData u (mem st) in
      Ok (issue (SetDoc (uid u) fields) (setMem h st))
  end.

(** The rejection callbacks (lines 135-137, 182-185, 187-190). *)
Definition avatarUpdateRejected (st : state) : state :=
  console_error "Failed to auto-assign avatar:" st.

Definition createRejected (st : state) : state :=
  setLoading false (console_error "Failed to create user profile:" st).

Definition snapshotError (st : state) : state :=
  setLoading false (console_error "Error in profile snapshot listener:" st).

(** The identity callback (lines 67-199). *)
Definition onAuthStateChanged (now : Z) (u : option User) (st : state)
  : outcome state :=
  let st := setUser u st in
  match u with
  | Some u =>
      if isAnonymous u then onGuest now u st
      else Ok (issue (Subscribe (uid u)) st)
  | None =>
      Ok (setLoading false (removeItem guestKey (setUserProfile VNull st)))
  end.

(** [handleUpdateProfile] (lines 204-210). *)
Definition handleUpdateProfile (newProfile : value) (st : state) : outcome state :=
  let st := setUserProfile newProfile st in
  match user st with
  | Some u =>
      if isAnonymous u then
        text ← JSON_stringify (mem st) newProfile;
        Ok (setItem guestKey (ToString text) st)
      else Ok st
  | None => Ok st
  end.

End Synchronizer.

(** ** [String.prototype.trim] (ECMA-262, 22.1.3.32) *)

(** The code points [trim] strips, [WhiteSpace] and [LineTerminator]
    (ECMA-262, 12.2 and 12.3), as the UTF-8 byte sequences the strings of
    this development are made of. *)
Definition whiteSpace : list (list ascii) :=
  map (map ascii_of_nat)
  [ [9]; [10]; [11]; [12]; [13]; [32];      (* TAB LF VT FF CR SP *)
    [194; 160];                              (* U+00A0 *)
    [225; 154; 128];                         (* U+1680 *)
    [226; 128; 128]; [226; 128; 129]; [226; 128; 130]; [226; 128; 131];
    [226; 128; 132]; [226; 128; 133]; [226; 128; 134]; [226; 128; 135];
    [226; 128; 136]; [226; 128; 137]; [226; 128; 138];   (* U+2000 .. U+200A *)
    [226; 128; 168]; [226; 128; 169];        (* U+2028, U+2029 *)
    [226; 128; 175];                         (* U+202F *)
    [226; 129; 159];                         (* U+205F *)
    [227; 128; 128];                         (* U+3000 *)
    [239; 187; 191] ].                       (* U+FEFF *)

(** [s] without the first of the words [W] it starts with. *)
Fixpoint stripOne (W : list (list ascii)) (s : list ascii) : option (list ascii) :=
  match W with
  | [] => None
  | w :: W' =>
      if bool_decide (w `prefix_of` s) then Some (drop (length w) s)
      else stripOne W' s
  end.

Fixpoint stripAll (W : list (list ascii)) (n : nat) (s : list ascii) : list ascii :=
  match n with
  | 0 => s
  | S n =>
      match stripOne W s with
      | Some rest => stripAll W n rest
      | None => s
      end
  end.

Definition trimStart (s : list ascii) : list ascii :=
  stripAll whiteSpace (length s) s.

Definition trimEnd (s : list ascii) : list ascii :=
  reverse (stripAll (reverse <$> whiteSpace) (length s) (reverse s)).

Definition trim (s : string) : string :=
  String.string_of_list_ascii (trimEnd (trimStart (String.list_ascii_of_string s))).

(** ** The lock flag, the provider requests and what is rendered
    (App.tsx, lines 61-64 and 212-253) *)

Definition pinKey : string := "appLockPin".

(** The initial value of [appLocked] (lines 61-64):
    [!!storedPin && storedPin.trim() !== ""]; [getItem] of an absent key is
    [null]. *)
Definition initialAppLocked (store : gmap string string) : bool :=
  match store !! pinKey with
  | Some storedPin =>
      truthy (VStr storedPin) && negb (String.eqb (trim storedPin) EmptyString)
  | None => false
  end.

(** Calls to the identity provider (lines 215 and 224). *)
Inductive request := SignInAnonymously | SignOut.

(** The component: the state above, the lock flag and the requests made. *)
Record component := {
  base : state;
  appLocked : bool;
  requested : list request            (* oldest first *)
}.

Definition setBase (st : state) (c : component) : component :=
  {| base := st; appLocked := appLocked c; requested := requested c |}.

Definition setAppLocked (b : bool) (c : component) : component :=
  {| base := base c; appLocked := b; requested := requested c |}.

Definition request_ (r : request) (c : component) : component :=
  {| base := base c; appLocked := appLocked c; requested := requested c ++ [r] |}.

(** The first render (lines 56-64): nothing is known yet. *)
Definition mount (store : gmap string string) : component :=
  {| base := {| mem := []; user := None; userProfile := VNull; loading := true;
                localStorage := store; console := []; issued := [] |};
     appLocked := initialAppLocked store;
     requested := [] |}.

(** [handleGuestLogin] (lines 212-220), up to the [await], and its [catch]. *)
Definition handleGuestLogin (c : component) : component :=
  request_ SignInAnonymously (setBase (setLoading true (base c)) c).

Definition guestLoginRejected (c : component) : component :=
  setBase (setLoading false (console_error "Guest login failed:" (base c))) c.

(** [handleSignOut] (lines 222-229), up to the [await], and its [catch]. *)
Definition handleSignOut (c : component) : component :=
  request_ SignOut c.

Definition signOutRejected (c : component) : component :=
  setBase (console_error "Error signing out: " (base c)) c.

(** What is rendered (lines 231-253). *)
Inductive screen :=
| Spinner
| PinLock
| MainScreen (u : User) (profile : value)
| Auth.

Definition render (c : component) : screen :=
  if loading (base c) then Spinner
  else if appLocked c then PinLock
  else match user (base c) with
       | Some u =>
           if truthy (userProfile (base c))
           then MainScreen u (userProfile (base c))
           else Auth
       | None => Auth
       end.

(** What can happen to the mounted component: the callbacks registered with
    the identity provider and the store, the handlers handed to the
    screens. *)
Inductive event :=
| IdentityChanged (u : option User)                     (* lines 67-199 *)
| SnapshotArrived (u : User) (docSnap : option props)   (* lines 121-186 *)
| SnapshotFailed                                        (* lines 187-190 *)
| AvatarUpdateFailed                                    (* lines 135-137 *)
| CreateFailed                                          (* lines 182-185 *)
| ProfileUpdated (newProfile : value)                   (* lines 204-210 *)
| GuestLoginClicked                                     (* lines 212-215 *)
| GuestLoginFailed                                      (* lines 216-219 *)
| SignOutClicked                                        (* lines 222-224 *)
| SignOutFailed                                         (* lines 226-228 *)
| Unlocked                                              (* line 240 *)
| LockSet (b : bool).                                   (* line 247 *)

Section Component.
Context `{RT : Runtime}.
Variable AVATAR_OPTIONS : list string.

Definition dispatch (now : Z) (ev : event) (c : component) : outcome component :=
  match ev with
  | IdentityChanged u =>
      st ← onAuthStateChanged now u (base c); Ok (setBase st c)
  | SnapshotArrived u docSnap =>
      st ← onSnapshot AVATAR_OPTIONS now u docSnap (base c); Ok (setBase st c)
  | SnapshotFailed => Ok (setBase (snapshotError (base c)) c)
  | AvatarUpdateFailed => Ok (setBase (avatarUpdateRejected (base c)) c)
  | CreateFailed => Ok (setBase (createRejected (base c)) c)
  | ProfileUpdated newProfile =>
      st ← handleUpdateProfile newProfile (base c); Ok (setBase st c)
  | GuestLoginClicked => Ok (handleGuestLogin c)
  | GuestLoginFailed => Ok (guestLoginRejected c)
  | SignOutClicked => Ok (handleSignOut c)
  | SignOutFailed => Ok (signOutRejected c)
  | Unlocked => Ok (setAppLocked false c)
  | LockSet b => Ok (setAppLocked b c)
  end.

(** A run of events, each at its instant; it stops at the first callback
    that does not complete. *)
Fixpoint run (evs : list (Z * event)) (c : component) : outcome component :=
  match evs with
  | [] => Ok c
  | (now, ev) :: evs' => c ← dispatch now ev c; run evs' c
  end.

End Component.

(** ** Shapes, ownership and field-wise comparison *)

Section Shapes.
Context `{RT : Runtime}.

(** The shapes of a profile value held under property [k] that come back as
    they were: [null], a boolean, a number, a string, a [Date] with a valid
    instant, a [Set] of strings, and arrays and plain records (with distinct
    property names) of such values, where
    - a [Date] is held under one of the three date names only, and a string
      held under one of them is one the date parser rejects (a string it
      accepts comes back as a [Date]);
    - the [Set] is held under [communityPostFireReactions] only, and no
      array is held under that name (it would come back as a [Set]).
    [undefined], an invalid [Date], a timestamp and an instance of a class
    are not among them. *)
Inductive recognized (h : heap) : string -> value -> Prop :=
| rec_null k : recognized h k VNull
| rec_bool k b : recognized h k (VBool b)
| rec_num k n : recognized h k (VNum n)
| rec_str k s :
    (k ∈ dateKeys -> Date_parse s = None) -> recognized h k (VStr s)
| rec_date k l t :
    k ∈ dateKeys -> h !! l = Some (ODate (Some t)) -> validTime t ->
    recognized h k (VRef l)
| rec_set l ss :
    h !! l = Some (OSet (VStr <$> ss)) -> recognized h setKey (VRef l)
| rec_arr k l vs :
    k <> setKey -> h !! l = Some (OArray vs) ->
    (forall i v, vs !! i = Some v -> recognized h (index_key i) v) ->
    recognized h k (VRef l)
| rec_obj k l ps :
    h !! l = Some (OPlain ps) -> NoDup ps.*1 ->
    (forall k' v, (k', v) ∈ ps -> recognized h k' v) ->
    recognized h k (VRef l).

(** Footprints of a list of values that share nothing with each other. *)
Inductive apart {A} (R : A -> gset loc -> Prop) : list A -> gset loc -> Prop :=
| apart_nil : apart R [] ∅
| apart_cons x xs f1 f2 :
    R x f1 -> apart R xs f2 -> f1 ## f2 -> apart R (x :: xs) (f1 ∪ f2).

(** [owns h v fp]: the arrays, records and sets reachable from [v] are the
    locations [fp], each reached along exactly one path (no aliasing, no
    cycle).  A [Date] is not counted: it may be shared. *)
Inductive owns (h : heap) : value -> gset loc -> Prop :=
| owns_prim v : (forall l, v <> VRef l) -> owns h v ∅
| owns_date l t : h !! l = Some (ODate t) -> owns h (VRef l) ∅
| owns_set l ms : h !! l = Some (OSet ms) -> owns h (VRef l) {[l]}
| owns_arr l vs fp :
    h !! l = Some (OArray vs) -> apart (owns h) vs fp -> l ∉ fp ->
    owns h (VRef l) ({[l]} ∪ fp)
| owns_obj l ps fp :
    h !! l = Some (OPlain ps) -> apart (owns h) ps.*2 fp -> l ∉ fp ->
    owns h (VRef l) ({[l]} ∪ fp).

(** Field-wise comparison of a value of heap [h1] with one of heap [h2]:
    instants by time value, sets by membership, arrays by position, records
    by property name. *)
Inductive fieldwise (h1 h2 : heap) : value -> value -> Prop :=
| fw_prim v : (forall l, v <> VRef l) -> fieldwise h1 h2 v v
| fw_date l1 l2 t :
    h1 !! l1 = Some (ODate t) -> h2 !! l2 = Some (ODate t) ->
    fieldwise h1 h2 (VRef l1) (VRef l2)
| fw_set l1 l2 m1 m2 :
    h1 !! l1 = Some (OSet m1) -> h2 !! l2 = Some (OSet m2) ->
    (forall v, v ∈ m1 <-> v ∈ m2) ->
    fieldwise h1 h2 (VRef l1) (VRef l2)
| fw_arr l1 l2 vs1 vs2 :
    h1 !! l1 = Some (OArray vs1) -> h2 !! l2 = Some (OArray vs2) ->
    length vs1 = length vs2 ->
    (forall i v1 v2, vs1 !! i = Some v1 -> vs2 !! i = Some v2 ->
                     fieldwise h1 h2 v1 v2) ->
    fieldwise h1 h2 (VRef l1) (VRef l2)
| fw_obj l1 l2 p1 p2 :
    h1 !! l1 = Some (OPlain p1) -> h2 !! l2 = Some (OPlain p2) ->
    (forall k, get k p1 = None <-> get k p2 = None) ->
    (forall k v1 v2, get k p1 = Some v1 -> get k p2 = Some v2 ->
                     fieldwise h1 h2 v1 v2) ->
    fieldwise h1 h2 (VRef l1) (VRef l2).

End Shapes.

(** ** Well-formed heaps *)

Definition valid (h : heap) (v : value) : Prop :=
  match v with
  | VRef l => l < length h
  | _ => True
  end.

Definition children (o : obj) : list value :=
  match o with
  | OSet ms => ms
  | OArray vs => vs
  | OPlain ps | OInstance _ ps => ps.*2
  | ODate _ | OTimestamp _ => []
  end.

(** No object holds a reference outside the heap. *)
Definition closed (h : heap) : Prop :=
  forall l o v, h !! l = Some o -> v ∈ children o -> valid h v.

(** The objects the replacer has not met yet: what bounds the recursion. *)
Definition budget (h : heap) (seen : gset loc) : nat :=
  size (set_seq 0 (length h) ∖ seen : gset loc).

(** The [??] defaults of the projection: the defaults of the data model. *)
Definition fieldDefaults : list (string * value) :=
  [ ("isAdmin", VBool false);
    ("isMuted", VBool false);
    ("role", VUndefined);
    ("commitmentDocument", VStr EmptyString);
    ("emergencyIndex", VNum 0);
    ("urgeIndex", VNum 0);
    ("storyIndex", VNum 0) ].

(** A time field of a remote record as the data model types it: absent, or
    a timestamp of the store. *)
Definition timeField (h : heap) (v : value) : Prop :=
  nullish v = true \/ exists l t, v = VRef l /\ h !! l = Some (OTimestamp t).

(** ** Vocabulary of the proofs *)

(** The serializer returns, or throws the [RangeError] of an invalid date. *)
Definition returns (rec : serializer) (seen0 : gset loc) (vs : list value) : Prop :=
  forall seen k v, seen0 ⊆ seen -> v ∈ vs ->
    (exists seen' r, rec seen k v = Ok (seen', r) /\ seen ⊆ seen') \/
    rec seen k v = Throw RangeError.

Definition never (e : exn) (rec : serializer) : Prop :=
  forall seen k v, rec seen k v <> Throw e.

Definition grows (rec : serializer) : Prop :=
  forall seen k v seen' r, rec seen k v = Ok (seen', r) -> seen ⊆ seen'.

Section Roundtrips.
Context `{RT : Runtime}.

(** What encoding and decoding one value under property [k] come to. *)
Definition roundtrips (h : heap) (k : string) (v : value) (fp : gset loc) : Prop :=
  (forall l, l ∈ fp -> l < length h) /\
  exists j,
    (forall fuel stack seen,
        size fp < fuel -> seen ## fp -> (forall l, l ∈ stack -> l ∈ seen) ->
        SerializeJSONProperty fuel h stack seen k v = Ok (seen ∪ fp, Some j)) /\
    (forall h0, exists h1 y,
        InternalizeJSONProperty k j h0 = (h1, y) /\ h0 `prefix_of` h1 /\
        fieldwise h h1 v y).

End Roundtrips.

(** Every record has distinct property names, as every object does. *)
Definition named (h : heap) : Prop :=
  forall l o, h !! l = Some o -> NoDup (ownProps o).*1.

(** Places in a value, and in a document: a property name or an index at
    each step. *)
Inductive step := Key (k : string) | Index (i : nat).

Notation path := (list step).

Fixpoint follow (h : heap) (v : value) (p : path) : option value :=
  match p with
  | [] => Some v
  | s :: p' =>
      match v with
      | VRef l =>
          match h !! l, s with
          | Some (OPlain ps), Key k | Some (OInstance _ ps), Key k =>
              v' ← get k ps; follow h v' p'
          | Some (OArray vs), Index i | Some (OSet vs), Index i =>
              v' ← vs !! i; follow h v' p'
          | _, _ => None
          end
      | _ => None
      end
  end.

Fixpoint jget (k : string) (ms : list (string * json)) : option json :=
  match ms with
  | [] => None
  | (k', j) :: ms' => if String.eqb k k' then Some j else jget k ms'
  end.

Fixpoint jfollow (j : json) (p : path) : option json :=
  match p with
  | [] => Some j
  | s :: p' =>
      match j, s with
      | JObj ms, Key k => j' ← jget k ms; jfollow j' p'
      | JArr js, Index i => j' ← js !! i; jfollow j' p'
      | _, _ => None
      end
  end.

(** Something other than [null] is written at place [p] of what was
    returned. *)
Definition wrote (r : option json) (p : path) : Prop :=
  exists j j', r = Some j /\ jfollow j p = Some j' /\ j' <> JNull.

Section Visiting.
Context `{RT : Runtime}.

(** No timestamp that reaches the replacer has an instant out of range:
    [toISOString] does not throw. *)
Definition dated (h : heap) : Prop :=
  forall l t, h !! l = Some (OTimestamp t) ->
    validTime t \/ is_Some (Timestamp_toJSON t).

(** The objects the replacer is handed as they are: all but those whose
    [toJSON] answers first. *)
Definition handed (h : heap) (l : loc) : Prop :=
  match h !! l with
  | Some (ODate _) => False
  | Some (OTimestamp t) => Timestamp_toJSON t = None
  | Some _ => True
  | None => False
  end.

(** What the visited set does to the places of a value: an object already
    met is written nowhere, an object written somewhere has been met, and
    no object is written at two places. *)
Definition cuts (h : heap) (rec : serializer) : Prop :=
  forall seen k v seen' r, rec seen k v = Ok (seen', r) ->
    (forall p x, follow h v p = Some (VRef x) -> handed h x -> x ∈ seen ->
                 ~ wrote r p) /\
    (forall p x, follow h v p = Some (VRef x) -> handed h x -> wrote r p ->
                 x ∈ seen') /\
    (forall p q x, p <> q ->
       follow h v p = Some (VRef x) -> follow h v q = Some (VRef x) ->
       handed h x -> ~ (wrote r p /\ wrote r q)).

End Visiting.

Definition guestProps (now : Z) (u : User) (base : nat) : props :=
  [ ("uid", VStr (uid u));
    ("displayName", VStr (guestLabel (uid u)));
    ("createdAt", VRef base);
    ("isAdmin", VBool false);
    ("isMuted", VBool false);
    ("commitmentDocument", VStr EmptyString);
    ("blockedUsers", VRef (base + 1));
    ("emergencyIndex", VNum 0);
    ("urgeIndex", VNum 0);
    ("storyIndex", VNum 0);
    ("journalEntries", VRef (base + 2));
    ("habits", VRef (base + 3));
    ("followUpLogs", VRef (base + 4));
    ("communityPostFireReactions", VRef (base + 5)) ].

(** The record the projection builds, given its three computed fields. *)
Definition projected (u : User) (data : props) (createdAt startDate blockedUsers : value)
  : props :=
  [ ("uid", VStr (uid u));
    ("displayName", field "displayName" data);
    ("email", field "email" data);
    ("photoURL", field "photoURL" data);
    ("createdAt", createdAt);
    ("startDate", startDate);
    ("isAdmin", coalesce (field "isAdmin" data) (VBool false));
    ("isMuted", coalesce (field "isMuted" data) (VBool false));
    ("role", coalesce (field "role" data) VUndefined);
    ("commitmentDocument", coalesce (field "commitmentDocument" data) (VStr EmptyString));
    ("blockedUsers", blockedUsers);
    ("emergencyIndex", coalesce (field "emergencyIndex" data) (VNum 0));
    ("urgeIndex", coalesce (field "urgeIndex" data) (VNum 0));
    ("storyIndex", coalesce (field "storyIndex" data) (VNum 0)) ].

(** What one step of decoding keeps: the objects there were, and no
    dangling reference. *)
Definition extends (h0 h1 : heap) (vs : list value) : Prop :=
  h0 `prefix_of` h1 /\ Forall (valid h1) vs /\ (closed h0 -> closed h1).

(** A text made of the words [W] and nothing else. *)
Definition blank (W : list (list ascii)) (s : list ascii) : Prop :=
  exists ws, Forall (fun w => w ∈ W) ws /\ s = concat ws.

(** Events that leave the lock alone. *)
Definition keepsLock (ev : event) : bool :=
  match ev with
  | Unlocked | LockSet _ => false
  | _ => true
  end.

(** Events of a session: all but a change of identity. *)
Definition keepsIdentity (ev : event) : bool :=
  match ev with
  | IdentityChanged _ => false
  | _ => true
  end.

(** ** Sample inputs *)

Definition guest : User :=
  {| uid := "abc12xyz"; isAnonymous := true;
     displayName := None; email := None; photoURL := None |}.

Definition member : User :=
  {| uid := "u1"; isAnonymous := false;
     displayName := Some "Ann"; email := Some "ann@example.org";
     photoURL := None |}.

Definition initial : state :=
  {| mem := []; user := None; userProfile := VNull; loading := true;
     localStorage := ∅; console := []; issued := [] |}.

Definition avatars : list string := ["a.png"; "b.png"; "c.png"].

(** The guest default of [abc12xyz], created at the epoch in an empty heap. *)
Definition guestHeap : heap := (newGuestProfile 0 guest []).1.

(** A profile whose [blockedUsers] and [journalEntries] are one and the same
    empty array. *)
Definition aliasedHeap : heap :=
  [ OPlain [ ("uid", VStr "abc12xyz");
             ("createdAt", VRef 1);
             ("blockedUsers", VRef 2);
             ("journalEntries", VRef 2);
             ("communityPostFireReactions", VRef 3) ];
    ODate (Some 0%Z);
    OArray [];
    OSet [] ].

(** A remote record that supplies a name and nothing else. *)
Definition annRecord : props := [("displayName", VStr "Ann")].

(** Two records that refer to each other, the second also to itself. *)
Definition ring : heap :=
  [ OPlain [("name", VStr "a"); ("next", VRef 1)];
    OPlain [("name", VStr "b"); ("prev", VRef 0); ("self", VRef 1)] ].

Definition corrupted : state := setItem guestKey "{oops" initial.

(** An instance of an ordinary class among the fields of a record, and a
    [Map] in the same place. *)
Definition handleHeap (tag : string) : heap :=
  [ OPlain [("uid", VStr "u1"); ("ref", VRef 1); ("n", VNum 1)];
    OInstance tag [("path", VStr "users/u1")] ].

(** An array whose two elements are one and the same record. *)
Definition twinsHeap : heap :=
  [ OArray [VRef 1; VRef 1];
    OPlain [("n", VNum 1)] ].


(** A record whose [createdAt] is a text. *)
Definition textRecord : props := [("createdAt", VStr "2020")].

(** The state of a guest who holds the guest default. *)
Definition guestState : state :=
  setUserProfile (VRef 6) (setUser (Some guest) (setMem guestHeap initial)).

(** The component of a signed-in identity, and one mounted over a PIN. *)
Definition memberComponent : component :=
  {| base := setUser (Some member) initial; appLocked := false; requested := [] |}.

Definition pinStore : gmap string string := {[ pinKey := "1234" ]}.

(** A guest arrives, drops the profile and leaves; a signed-in identity
    receives its record, drops the profile and loses the listener. *)
Definition guestVisit : list (Z * event) :=
  [ (0%Z, IdentityChanged (Some guest));
    (1%Z, ProfileUpdated VNull);
    (2%Z, IdentityChanged None) ].

Definition memberVisit : list (Z * event) :=
  [ (0%Z, SnapshotArrived member (Some annRecord));
    (1%Z, ProfileUpdated VNull);
    (2%Z, SnapshotFailed) ].

(** ** A reference runtime

    The JSON text [JSON.stringify] writes and a recursive-descent reader of
    JSON texts; ISO-8601 date-time text over the proleptic Gregorian
    calendar.  Numbers are read in their integer form only. *)

Module Reference.

#[local] Arguments String.append !_ _ / : simpl nomatch.

(** *** JSON text *)

Definition quote : ascii := "034"%char.
Definition backslash : ascii := "092"%char.

Definition hexDigit (n : nat) : ascii :=
  default "0"%char (String.list_ascii_of_string "0123456789abcdef" !! n).

(** [QuoteJSONString]: the two-character escapes of JSON.stringify, and
    [\u00XX] for the other control characters. *)
Definition escapeChar (c : ascii) : string :=
  if Ascii.eqb c quote then String backslash (String quote EmptyString)
  else if Ascii.eqb c backslash then String backslash (String backslash EmptyString)
  else if Ascii.eqb c "008" then String backslash "b"
  else if Ascii.eqb c "009" then String backslash "t"
  else if Ascii.eqb c "010" then String backslash "n"
  else if Ascii.eqb c "012" then String backslash "f"
  else if Ascii.eqb c "013" then String backslash "r"
  else if Nat.ltb (nat_of_ascii c) 32 then
    String backslash
      (String "u" (String "0" (String "0"
         (String (hexDigit (nat_of_ascii c / 16))
            (String (hexDigit (nat_of_ascii c mod 16)) EmptyString)))))
  else String c EmptyString.

Fixpoint escape (s : string) : string :=
  match s with
  | EmptyString => EmptyString
  | String c s' => escapeChar c +:+ escape s'
  end.

Definition printString (s : string) : string :=
  String quote (escape s +:+ String quote EmptyString).

Definition printZ (n : Z) : string := NilEmpty.string_of_int (Z.to_int n).

Definition itemsTail (pr : json -> string) : list json -> string :=
  fix tail xs :=
    match xs with
    | [] => "]"
    | y :: ys => "," +:+ pr y +:+ tail ys
    end.

Definition membersTail (pr : json -> string) : list (string * json) -> string :=
  fix tail ms :=
    match ms with
    | [] => "}"
    | (k, y) :: ms' => "," +:+ printString k +:+ ":" +:+ pr y +:+ tail ms'
    end.

(** The text [JSON.stringify] writes without indentation. *)
Fixpoint print (j : json) : string :=
  match j with
  | JNull => "null"
  | JBool true => "true"
  | JBool false => "false"
  | JNum n => printZ n
  | JStr s => printString s
  | JArr [] => "[]"
  | JArr (x :: xs) => "[" +:+ print x +:+ itemsTail print xs
  | JObj [] => "{}"
  | JObj ((k, x) :: ms) =>
      "{" +:+ printString k +:+ ":" +:+ print x +:+ membersTail print ms
  end.

Definition isWs (c : ascii) : bool :=
  Ascii.eqb c " " || Ascii.eqb c "009" || Ascii.eqb c "010" || Ascii.eqb c "013".

Fixpoint skipWs (s : string) : string :=
  match s with
  | String c s' => if isWs c then skipWs s' else s
  | EmptyString => s
  end.

Definition hexValue (c : ascii) : option nat :=
  let n := nat_of_ascii c in
  if (48 <=? n) && (n <=? 57) then Some (n - 48)
  else if (97 <=? n) && (n <=? 102) then Some (n - 87)
  else if (65 <=? n) && (n <=? 70) then Some (n - 55)
  else None.

(** The UTF-8 bytes of a code unit below 2^16. *)
Definition utf8 (u : nat) : string :=
  if u <? 128 then String (ascii_of_nat u) EmptyString
  else if u <? 2048 then
    String (ascii_of_nat (192 + u / 64))
      (String (ascii_of_nat (128 + u mod 64)) EmptyString)
  else
    String (ascii_of_nat (224 + u / 4096))
      (String (ascii_of_nat (128 + (u / 64) mod 64))
         (String (ascii_of_nat (128 + u mod 64)) EmptyString)).

(** The characters of a string literal after its opening quote, and what
    follows the closing one. *)
Fixpoint parseChars (s : string) : option (string * string) :=
  match s with
  | EmptyString => None
  | String c s' =>
      if Ascii.eqb c quote then Some (EmptyString, s')
      else if Ascii.eqb c backslash then
        match s' with
        | String e s'' =>
            let simple (x : ascii) :=
              '(str, r) ← parseChars s''; Some (String x str, r) in
            if Ascii.eqb e quote then simple quote
            else if Ascii.eqb e backslash then simple backslash
            else if Ascii.eqb e "/" then simple "/"%char
            else if Ascii.eqb e "b" then simple "008"%char
            else if Ascii.eqb e "t" then simple "009"%char
            else if Ascii.eqb e "n" then simple "010"%char
            else if Ascii.eqb e "f" then simple "012"%char
            else if Ascii.eqb e "r" then simple "013"%char
            else if Ascii.eqb e "u" then
              match s'' with
              | String a (String b (String c (String d s3))) =>
                  x3 ← hexValue a; x2 ← hexValue b;
                  x1 ← hexValue c; x0 ← hexValue d;
                  '(str, r) ← parseChars s3;
                  Some (utf8 (((x3 * 16 + x2) * 16 + x1) * 16 + x0) +:+ str, r)
              | _ => None
              end
            else None
        | EmptyString => None
        end
      else if Nat.ltb (nat_of_ascii c) 32 then None
      else '(str, r) ← parseChars s'; Some (String c str, r)
  end.

Definition isNumChar (c : ascii) : bool :=
  let n := nat_of_ascii c in
  ((48 <=? n) && (n <=? 57)) || Ascii.eqb c "-" || Ascii.eqb c "+"
  || Ascii.eqb c "." || Ascii.eqb c "e" || Ascii.eqb c "E".

Fixpoint spanNum (s : string) : string * string :=
  match s with
  | String c s' =>
      if isNumChar c then let '(tok, r) := spanNum s' in (String c tok, r)
      else (EmptyString, s)
  | EmptyString => (EmptyString, s)
  end.

(** An integer literal in its canonical form; a literal with a fraction or
    an exponent denotes a double, which this runtime does not read. *)
Definition parseNumber (s : string) : option (json * string) :=
  let '(tok, r) := spanNum s in
  d ← NilEmpty.int_of_string tok;
  let n := Z.of_int d in
  if String.eqb (printZ n) tok then Some (JNum n, r) else None.

Fixpoint expect (word s : string) : option string :=
  match word with
  | EmptyString => Some s
  | String w word' =>
      match s with
      | String c s' => if Ascii.eqb w c then expect word' s' else None
      | EmptyString => None
      end
  end.

Fixpoint parseValue (fuel : nat) (s : string) : option (json * string) :=
  match fuel with
  | 0 => None
  | S fuel =>
      match skipWs s with
      | EmptyString => None
      | String c r =>
          if Ascii.eqb c "n" then r' ← expect "ull" r; Some (JNull, r')
          else if Ascii.eqb c "t" then r' ← expect "rue" r; Some (JBool true, r')
          else if Ascii.eqb c "f" then r' ← expect "alse" r; Some (JBool false, r')
          else if Ascii.eqb c quote then
            '(str, r') ← parseChars r; Some (JStr str, r')
          else if Ascii.eqb c "[" then
            match skipWs r with
            | String c' r' =>
                if Ascii.eqb c' "]" then Some (JArr [], r')
                else '(js, r'') ← parseItems fuel r; Some (JArr js, r'')
            | EmptyString => None
            end
          else if Ascii.eqb c "{" then
            match skipWs r with
            | String c' r' =>
                if Ascii.eqb c' "}" then Some (JObj [], r')
                else '(ms, r'') ← parseMembers fuel r; Some (JObj ms, r'')
            | EmptyString => None
            end
          else parseNumber (String c r)
      end
  end
with parseItems (fuel : nat) (s : string) : option (list json * string) :=
  match fuel with
  | 0 => None
  | S fuel =>
      '(j, r) ← parseValue fuel s;
      match skipWs r with
      | String c r' =>
          if Ascii.eqb c "," then
            '(js, r'') ← parseItems fuel r'; Some (j :: js, r'')
          else if Ascii.eqb c "]" then Some ([j], r')
          else None
      | EmptyString => None
      end
  end
with parseMembers (fuel : nat) (s : string)
  : option (list (string * json) * string) :=
  match fuel with
  | 0 => None
  | S fuel =>
      match skipWs s with
      | String q r =>
          if Ascii.eqb q quote then
            '(k, r) ← parseChars r;
            match skipWs r with
            | String c r =>
                if Ascii.eqb c ":" then
                  '(j, r) ← parseValue fuel r;
                  match skipWs r with
                  | String c r' =>
                      if Ascii.eqb c "," then
                        '(ms, r'') ← parseMembers fuel r'; Some ((k, j) :: ms, r'')
                      else if Ascii.eqb c "}" then Some ([(k, j)], r')
                      else None
                  | EmptyString => None
                  end
                else None
            | EmptyString => None
            end
          else None
      | EmptyString => None
      end
  end.

Definition parse (text : string) : option json :=
  '(j, r) ← parseValue (S (String.length text)) text;
  match skipWs r with
  | EmptyString => Some j
  | _ => None
  end.

(** What may follow a number. *)
Definition stop (rest : string) : Prop :=
  match rest with
  | EmptyString => True
  | String c _ => isNumChar c = false
  end.

(** A number starts with a digit or a sign: the dispatch of [parseValue]
    falls through to [parseNumber]. *)
Definition lead (c : ascii) : Prop :=
  isWs c = false /\ Ascii.eqb c "]" = false /\ Ascii.eqb c "}" = false.

Definition numLead (c : ascii) : Prop :=
  lead c /\ Ascii.eqb c "n" = false /\ Ascii.eqb c "t" = false /\
  Ascii.eqb c "f" = false /\ Ascii.eqb c quote = false /\
  Ascii.eqb c "[" = false /\ Ascii.eqb c "{" = false.

Definition reads (j : json) : Prop :=
  forall fuel rest,
    String.length (print j) <= fuel -> stop rest ->
    parseValue fuel (print j +:+ rest) = Some (j, rest).

(** *** ISO-8601 text of an instant *)

#[local] Open Scope Z_scope.

Definition msPerDay : Z := 86400000.

(** Days since the epoch to the proleptic Gregorian date, and back, by eras
    of 400 years that start on 1 March. *)
Definition civil (days : Z) : Z * Z * Z :=
  let z := days + 719468 in
  let era := z / 146097 in
  let doe := z mod 146097 in
  let yoe := (doe - doe / 1460 + doe / 36524 - doe / 146096) / 365 in
  let doy := doe - (365 * yoe + yoe / 4 - yoe / 100) in
  let mp := (5 * doy + 2) / 153 in
  let d := doy - (153 * mp + 2) / 5 + 1 in
  let m := if mp <? 10 then mp + 3 else mp - 9 in
  let y := yoe + era * 400 + (if m <=? 2 then 1 else 0) in
  (y, m, d).

Definition daysFromCivil (y m d : Z) : Z :=
  let y := y - (if m <=? 2 then 1 else 0) in
  let era := y / 400 in
  let yoe := y mod 400 in
  let mp := if 2 <? m then m - 3 else m + 9 in
  let doy := (153 * mp + 2) / 5 + d - 1 in
  let doe := yoe * 365 + yoe / 4 - yoe / 100 + doy in
  era * 146097 + doe - 719468.

(** [w] decimal digits, most significant first. *)
Definition digitChar (d : Z) : ascii := ascii_of_nat (48 + Z.to_nat d).

Definition digitValue (c : ascii) : option Z :=
  let n := nat_of_ascii c in
  if (48 <=? n)%nat && (n <=? 57)%nat then Some (Z.of_nat (n - 48)) else None.

Fixpoint digits (w : nat) (n : Z) : string :=
  match w with
  | O => EmptyString
  | S w' => String (digitChar ((n / 10 ^ Z.of_nat w') mod 10)) (digits w' n)
  end.

Fixpoint number (w : nat) (acc : Z) (s : string) : option (Z * string) :=
  match w with
  | O => Some (acc, s)
  | S w' =>
      match s with
      | String c r => d ← digitValue c; number w' (acc * 10 + d) r
      | EmptyString => None
      end
  end.

Definition lit (c : ascii) (s : string) : option string :=
  match s with
  | String c' r => if Ascii.eqb c c' then Some r else None
  | EmptyString => None
  end.

Definition yearText (y : Z) : string :=
  if (0 <=? y) && (y <=? 9999) then digits 4 y
  else String (if y <? 0 then "-"%char else "+"%char) (digits 6 (Z.abs y)).

(** [Date.prototype.toISOString]: YYYY-MM-DDTHH:mm:ss.sssZ, the year with a
    sign and six digits outside 0..9999. *)
Definition isoText (t : Z) : string :=
  let '(y, m, d) := civil (t / msPerDay) in
  let ms := t mod msPerDay in
  yearText y +:+ "-" +:+ digits 2 m +:+ "-" +:+ digits 2 d +:+ "T"
  +:+ digits 2 (ms / 3600000) +:+ ":" +:+ digits 2 ((ms / 60000) mod 60)
  +:+ ":" +:+ digits 2 ((ms / 1000) mod 60) +:+ "." +:+ digits 3 (ms mod 1000)
  +:+ "Z".

Definition parseYear (s : string) : option (Z * string) :=
  match s with
  | String c r =>
      if Ascii.eqb c "+" then number 6 0 r
      else if Ascii.eqb c "-" then
        '(y, r') ← number 6 0 r; if y =? 0 then None else Some (- y, r')
      else number 4 0 s
  | EmptyString => None
  end.

(** The date-time form of the Date Time String Format (ECMA-262, 21.4.1.32)
    in UTC; the other forms a host may read are not. *)
Definition parseISO (s : string) : option Z :=
  '(y, s) ← parseYear s; s ← lit "-" s;
  '(m, s) ← number 2 0 s; s ← lit "-" s;
  '(d, s) ← number 2 0 s; s ← lit "T" s;
  '(hh, s) ← number 2 0 s; s ← lit ":" s;
  '(mm, s) ← number 2 0 s; s ← lit ":" s;
  '(ss, s) ← number 2 0 s; s ← lit "." s;
  '(ms, s) ← number 3 0 s; s ← lit "Z" s;
  let t := daysFromCivil y m d * msPerDay
           + hh * 3600000 + mm * 60000 + ss * 1000 + ms in
  if String.eqb s EmptyString
     && (1 <=? m) && (m <=? 12) && (1 <=? d) && (d <=? 31)
     && (hh <=? 23) && (mm <=? 59) && (ss <=? 59)
     && (-8640000000000000 <=? t) && (t <=? 8640000000000000)
  then Some t else None.

#[local] Close Scope Z_scope.

(** *** The Timestamp class of the store *)

(** [Timestamp.prototype.toJSON]: the type tag, the seconds and the
    nanoseconds of the instant. *)
Definition timestampJSON (t : Z) : option json :=
  Some (JObj [ ("type", JStr "firestore/timestamp/1.0");
               ("seconds", JNum (t / 1000)%Z);
               ("nanoseconds", JNum (t mod 1000 * 1000000)%Z) ]).

(** *** The parser reads back what the printer wrote *)

Lemma append_assoc (a b c : string) : (a +:+ b) +:+ c = a +:+ (b +:+ c).
Proof. induction a as [|x a IH]; simpl; [done|by rewrite IH]. Qed.

Lemma length_append (a b : string) :
  String.length (a +:+ b) = String.length a + String.length b.
Proof. induction a as [|x a IH]; simpl; [done|by rewrite IH]. Qed.

Lemma parseChars_escapeChar c s :
  parseChars (escapeChar c +:+ s)
  = '(str, r) ← parseChars s; Some (String c str, r).
Proof.
  destruct c as [[] [] [] [] [] [] [] []]; reflexivity.
Qed.

Lemma parseChars_escape s rest :
  parseChars (escape s +:+ String quote rest) = Some (s, rest).
Proof.
  induction s as [|c s IH]; [done|]. cbn [escape].
  by rewrite append_assoc, parseChars_escapeChar, IH.
Qed.

Lemma spanNum_uint u rest :
  stop rest ->
  spanNum (NilEmpty.string_of_uint u +:+ rest) = (NilEmpty.string_of_uint u, rest).
Proof.
  intros Hr. induction u; simpl; rewrite ?IHu; try done.
  destruct rest as [|c r]; simpl in *; [done|by rewrite Hr].
Qed.

Lemma spanNum_printZ n rest :
  stop rest -> spanNum (printZ n +:+ rest) = (printZ n, rest).
Proof.
  intros Hr. unfold printZ. destruct (Z.to_int n) as [u|u]; simpl.
  - by apply spanNum_uint.
  - by rewrite spanNum_uint.
Qed.

Lemma parseNumber_printZ n rest :
  stop rest -> parseNumber (printZ n +:+ rest) = Some (JNum n, rest).
Proof.
  intros Hr. unfold parseNumber. rewrite spanNum_printZ by done.
  unfold printZ. rewrite NilEmpty.isi. simpl.
  rewrite DecimalZ.of_to. by rewrite String.eqb_refl.
Qed.

Lemma uint_lead u :
  u <> Decimal.Nil ->
  exists c r, NilEmpty.string_of_uint u = String c r /\ numLead c.
Proof.
  destruct u; intros Hu; [done|..]; simpl; eexists _, _; (split; [done|]);
    repeat split.
Qed.

Lemma printZ_lead n : exists c r, printZ n = String c r /\ numLead c.
Proof.
  unfold printZ. destruct n as [|p|p]; simpl.
  - eexists _, _. split; [done|]. repeat split.
  - apply uint_lead, DecimalPos.Unsigned.to_uint_nonnil.
  - eexists _, _. split; [done|]. repeat split.
Qed.

(** No document starts with a blank or a closing bracket. *)
Lemma print_lead j : exists c r, print j = String c r /\ lead c.
Proof.
  destruct j as [ |[]|n|s|[|x xs]|[|[k x] ms]];
    try (eexists _, _; split; [reflexivity|]; repeat split).
  destruct (printZ_lead n) as (c & r & E & Hc & _). eauto.
Qed.

Lemma json_rect' (P : json -> Prop) :
  P JNull -> (forall b, P (JBool b)) -> (forall n, P (JNum n)) ->
  (forall s, P (JStr s)) ->
  (forall js, Forall P js -> P (JArr js)) ->
  (forall ms, Forall (fun m => P m.2) ms -> P (JObj ms)) ->
  forall j, P j.
Proof.
  intros Hnull Hbool Hnum Hstr Harr Hobj.
  fix go 1. intros [ |b|n|s|js|ms];
    [exact Hnull|apply Hbool|apply Hnum|apply Hstr|..].
  - apply Harr. induction js as [|j js IH]; constructor; [apply go|apply IH].
  - apply Hobj. induction ms as [|[k j] ms IH]; constructor; [apply go|apply IH].
Qed.

Lemma parseItems_tail xs : forall x fuel rest,
  Forall reads (x :: xs) ->
  String.length (print x +:+ itemsTail print xs) <= fuel ->
  parseItems fuel (print x +:+ itemsTail print xs +:+ rest) = Some (x :: xs, rest).
Proof.
  induction xs as [|y ys IH]; intros x fuel rest Hall Hlen;
    apply Forall_cons in Hall as [Hx Hall];
    rewrite length_append in Hlen; simpl in Hlen;
    (destruct fuel as [|fuel]; [lia|]); simpl.
  - rewrite (Hx fuel (String "]" rest)); [|lia|exact eq_refl]. simpl. done.
  - rewrite Hx by (lia || exact eq_refl || done). simpl.
    rewrite !append_assoc.
    rewrite IH; [done|done|]. lia.
Qed.

Lemma parseMembers_tail ms : forall k x fuel rest,
  Forall (fun m => reads m.2) ((k, x) :: ms) ->
  String.length (printString k +:+ ":" +:+ print x +:+ membersTail print ms) <= fuel ->
  parseMembers fuel
    (printString k +:+ ":" +:+ print x +:+ membersTail print ms +:+ rest)
  = Some ((k, x) :: ms, rest).
Proof.
  induction ms as [|[k' y] ms IH]; intros k x fuel rest Hall Hlen;
    apply Forall_cons in Hall as [Hx Hall]; simpl in Hx;
    unfold printString in Hlen;
    repeat (progress (rewrite ?length_append in Hlen; simpl in Hlen));
    (destruct fuel as [|fuel]; [lia|]); unfold printString at 1; simpl;
    rewrite !append_assoc; simpl; rewrite parseChars_escape; simpl.
  - rewrite (Hx fuel (String "}" rest)); [|lia|exact eq_refl]. simpl. done.
  - rewrite !append_assoc.
    rewrite (Hx fuel); [|lia|exact eq_refl]. simpl.
    specialize (IH k' y fuel rest Hall).
    unfold printString in *.
    repeat (progress (rewrite ?length_append in IH; simpl in IH)).
    specialize (IH ltac:(lia)).
    repeat (progress (rewrite ?append_assoc in IH; simpl in IH)).
    repeat (progress (rewrite ?append_assoc; simpl)).
    by rewrite IH.
Qed.

Lemma parseValue_print j : reads j.
Proof.
  induction j as [ |b|n|s|js IH|ms IH] using json_rect'; intros fuel rest Hlen Hr.
  - destruct fuel as [|fuel]; [simpl in Hlen; lia|]. done.
  - destruct fuel as [|fuel]; [destruct b; simpl in Hlen; lia|]. by destruct b.
  - destruct (printZ_lead n) as (c & r & E & Hc).
    destruct fuel as [|fuel]; [simpl in Hlen; rewrite E in Hlen; simpl in Hlen; lia|].
    simpl. rewrite E. simpl.
    destruct Hc as ((-> & _) & -> & -> & -> & -> & -> & ->).
    change (String c (r +:+ rest)) with (String c r +:+ rest).
    rewrite <- E. by apply parseNumber_printZ.
  - destruct fuel as [|fuel]; [simpl in Hlen; lia|].
    unfold print, printString. simpl. rewrite append_assoc. simpl.
    by rewrite parseChars_escape.
  - destruct fuel as [|fuel]; [destruct js; simpl in Hlen; lia|].
    destruct js as [|x xs]; [done|].
    simpl in Hlen. simpl.
    destruct (print_lead x) as (c & r & E & Hw & Hb & _).
    rewrite !append_assoc. rewrite E at 1. simpl. rewrite Hw, Hb.
    rewrite parseItems_tail; [done|done|lia].
  - destruct fuel as [|fuel]; [destruct ms as [|[]]; simpl in Hlen; lia|].
    destruct ms as [|[k x] ms]; [done|].
    pose proof (parseMembers_tail ms k x fuel rest IH (le_S_n _ _ Hlen)) as H.
    unfold printString in *. simpl.
    repeat (progress (rewrite ?append_assoc in H; simpl in H)).
    repeat (progress (rewrite ?append_assoc; simpl)).
    by rewrite H.
Qed.

Lemma parse_print j : parse (print j) = Some j.
Proof.
  unfold parse.
  pose proof (parseValue_print j (S (String.length (print j))) EmptyString) as H.
  replace (print j +:+ EmptyString) with (print j) in H.
  - rewrite H; [done|lia|done].
  - clear H. induction (print j) as [|c s IH]; simpl; [done|by rewrite <- IH].
Qed.

(** *** The date parser reads back the text of an instant *)

#[local] Open Scope Z_scope.

Lemma append_cons c (a b : string) : String c a +:+ b = String c (a +:+ b).
Proof. reflexivity. Qed.

Lemma civil_facts days :
  let '(y, m, d) := civil days in
  1 <= m <= 12 /\ 1 <= d <= 31 /\ daysFromCivil y m d = days.
Proof.
  unfold civil, daysFromCivil.
  set (z := days + 719468).
  pose proof (Z.mod_pos_bound z 146097 ltac:(lia)) as Hdoe.
  pose proof (Z.div_mod z 146097 ltac:(lia)) as Hz.
  set (era := z / 146097) in *. set (doe := z mod 146097) in *.
  clearbody era doe.
  set (yoe := (doe - doe / 1460 + doe / 36524 - doe / 146096) / 365).
  assert (0 <= yoe < 400) as Hyoe by (subst yoe; Z.div_mod_to_equations; lia).
  set (doy := doe - (365 * yoe + yoe / 4 - yoe / 100)).
  assert (0 <= doy <= 365) as Hdoy by (subst doy yoe; Z.div_mod_to_equations; lia).
  assert (doe = 365 * yoe + yoe / 4 - yoe / 100 + doy) as Edoe by (subst doy; lia).
  clearbody doy yoe.
  set (mp := (5 * doy + 2) / 153).
  assert (0 <= mp <= 11) as Hmp by (subst mp; Z.div_mod_to_equations; lia).
  set (d := doy - (153 * mp + 2) / 5 + 1).
  assert (1 <= d <= 31) as Hd by (subst d mp; Z.div_mod_to_equations; lia).
  assert (doy = (153 * mp + 2) / 5 + d - 1) as Edoy by (subst d; lia).
  clearbody d mp.
  assert (forall c : Z, (yoe + era * 400 + c - c) / 400 = era
                     /\ (yoe + era * 400 + c - c) mod 400 = yoe) as Hy.
  { intros c. replace (yoe + era * 400 + c - c) with (yoe + era * 400) by lia.
    split; Z.div_mod_to_equations; lia. }
  destruct (Z.ltb_spec mp 10).
  - destruct (Z.leb_spec (mp + 3) 2); [lia|].
    destruct (Z.ltb_spec 2 (mp + 3)); [|lia].
    destruct (Hy 0) as [-> ->].
    replace (mp + 3 - 3) with mp by lia. split; [lia|]. split; [lia|]. subst z. lia.
  - destruct (Z.leb_spec (mp - 9) 2); [|lia].
    destruct (Z.ltb_spec 2 (mp - 9)); [lia|].
    destruct (Hy 1) as [-> ->].
    replace (mp - 9 + 9) with mp by lia. split; [lia|]. split; [lia|]. subst z. lia.
Qed.

Lemma mod10_digit a : 0 <= a mod 10 <= 9.
Proof. pose proof (Z.mod_pos_bound a 10 ltac:(lia)). lia. Qed.

Lemma digitValue_digitChar d : 0 <= d <= 9 -> digitValue (digitChar d) = Some d.
Proof.
  intros H. assert (d = 0 \/ d = 1 \/ d = 2 \/ d = 3 \/ d = 4 \/ d = 5 \/ d = 6
                    \/ d = 7 \/ d = 8 \/ d = 9) as Hd by lia.
  repeat (destruct Hd as [->|Hd]; [reflexivity|]). by subst.
Qed.

Lemma digitChar_not_sign d :
  0 <= d <= 9 -> Ascii.eqb (digitChar d) "+" = false /\ Ascii.eqb (digitChar d) "-" = false.
Proof.
  intros H. assert (d = 0 \/ d = 1 \/ d = 2 \/ d = 3 \/ d = 4 \/ d = 5 \/ d = 6
                    \/ d = 7 \/ d = 8 \/ d = 9) as Hd by lia.
  repeat (destruct Hd as [->|Hd]; [split; reflexivity|]). by subst.
Qed.

Lemma number_digits w : forall n acc rest,
  number w acc (digits w n +:+ rest) = Some (acc * 10 ^ Z.of_nat w + n mod 10 ^ Z.of_nat w, rest).
Proof.
  induction w as [|w IH]; intros n acc rest.
  - simpl. rewrite Z.mod_1_r. do 2 f_equal. lia.
  - cbn [digits]. rewrite append_cons. cbn [number].
    rewrite digitValue_digitChar by apply mod10_digit.
    cbn [mbind option_bind]. rewrite IH. do 2 f_equal.
    rewrite Nat2Z.inj_succ, Z.pow_succ_r by lia.
    rewrite (Z.mul_comm 10 (10 ^ Z.of_nat w)).
    rewrite Z.rem_mul_r by lia. lia.
Qed.

Lemma number_digits_small w b n rest :
  10 ^ Z.of_nat w = b -> 0 <= n < b ->
  number w 0 (digits w n +:+ rest) = Some (n, rest).
Proof.
  intros <- H. rewrite number_digits. rewrite Z.mod_small by done.
  do 2 f_equal.
Qed.

Lemma parseYear_yearText y rest :
  -999999 <= y <= 999999 ->
  parseYear (yearText y +:+ rest) = Some (y, rest).
Proof.
  intros Hy. unfold yearText.
  destruct (Z.leb_spec 0 y); cbn [andb].
  - destruct (Z.leb_spec y 9999).
    + unfold parseYear.
      change (digits 4 y) with
        (String (digitChar ((y / 10 ^ Z.of_nat 3) mod 10)) (digits 3 y)) at 1.
      rewrite append_cons. cbv beta iota.
      destruct (digitChar_not_sign ((y / 10 ^ Z.of_nat 3) mod 10)) as [-> ->];
        [apply mod10_digit|].
      apply (number_digits_small 4 10000); [reflexivity|lia].
    + destruct (Z.ltb_spec y 0); [lia|].
      rewrite append_cons. unfold parseYear.
      change (Ascii.eqb "+" "+") with true. cbv iota.
      rewrite (number_digits_small 6 1000000); [|reflexivity|lia].
      f_equal. f_equal. lia.
  - destruct (Z.ltb_spec y 0); [|lia].
    rewrite append_cons. unfold parseYear.
    change (Ascii.eqb "-" "+") with false. change (Ascii.eqb "-" "-") with true.
    cbv iota.
    rewrite (number_digits_small 6 1000000); [|reflexivity|lia].
    cbn [mbind option_bind].
    destruct (Z.eqb_spec (Z.abs y) 0); [lia|]. f_equal. f_equal. lia.
Qed.

Lemma year_range days :
  -100000000 <= days <= 100000000 ->
  -999999 <= (civil days).1.1 <= 999999.
Proof.
  intros H. unfold civil. cbv zeta. cbn [fst].
  set (z := days + 719468).
  pose proof (Z.mod_pos_bound z 146097 ltac:(lia)) as Hdoe.
  set (doe := z mod 146097) in *.
  set (yoe := (doe - doe / 1460 + doe / 36524 - doe / 146096) / 365).
  assert (0 <= yoe < 400) as Hyoe by (subst yoe; Z.div_mod_to_equations; lia).
  assert (-700 <= z / 146097 <= 700) by (subst z; Z.div_mod_to_equations; lia).
  destruct (_ <=? 2); lia.
Qed.

Lemma parseISO_isoText t : validTime t -> parseISO (isoText t) = Some t.
Proof.
  intros Ht. unfold validTime in Ht. unfold isoText, parseISO.
  pose proof (civil_facts (t / msPerDay)) as Hc.
  pose proof (year_range (t / msPerDay)) as Hy.
  destruct (civil (t / msPerDay)) as [[y m] d]. cbn [fst] in Hy.
  destruct Hc as (Hm & Hd & Hdays).
  unfold msPerDay in *.
  pose proof (Z.mod_pos_bound t 86400000 ltac:(lia)) as Hms.
  pose proof (Z.div_mod t 86400000 ltac:(lia)) as Hdiv.
  set (ms := t mod 86400000) in *.
  set (days := t / 86400000) in *.
  assert (-999999 <= y <= 999999) as Hy' by (apply Hy; lia).
  assert (0 <= ms / 3600000 < 100 /\ 0 <= (ms / 60000) mod 60 < 100
          /\ 0 <= (ms / 1000) mod 60 < 100 /\ 0 <= ms mod 1000 < 1000)
    as (Hhh & Hmm & Hss & Hmss) by (Z.div_mod_to_equations; lia).
  assert (ms / 3600000 <= 23 /\ (ms / 60000) mod 60 <= 59
          /\ (ms / 1000) mod 60 <= 59) as (Bhh & Bmm & Bss)
    by (Z.div_mod_to_equations; lia).
  assert (days * 86400000 + ms / 3600000 * 3600000
          + (ms / 60000) mod 60 * 60000 + (ms / 1000) mod 60 * 1000
          + ms mod 1000 = t) as Et by (Z.div_mod_to_equations; lia).
  rewrite (parseYear_yearText y _ Hy').
  cbn [mbind option_bind lit String.append Ascii.eqb Bool.eqb].
  rewrite (number_digits_small 2 100 m) by (reflexivity || lia).
  cbn [mbind option_bind lit String.append Ascii.eqb Bool.eqb].
  rewrite (number_digits_small 2 100 d) by (reflexivity || lia).
  cbn [mbind option_bind lit String.append Ascii.eqb Bool.eqb].
  rewrite (number_digits_small 2 100 _ _ eq_refl Hhh).
  cbn [mbind option_bind lit String.append Ascii.eqb Bool.eqb].
  rewrite (number_digits_small 2 100 _ _ eq_refl Hmm).
  cbn [mbind option_bind lit String.append Ascii.eqb Bool.eqb].
  rewrite (number_digits_small 2 100 _ _ eq_refl Hss).
  cbn [mbind option_bind lit String.append Ascii.eqb Bool.eqb].
  rewrite (number_digits_small 3 1000 _ _ eq_refl Hmss).
  cbn [mbind option_bind lit String.append Ascii.eqb Bool.eqb].
  rewrite Hdays, Et.
  change (String.eqb EmptyString EmptyString) with true.
  repeat match goal with
         | |- context [?a <=? ?b] =>
             destruct (Z.leb_spec a b); [|exfalso; lia]
         end.
  reflexivity.
Qed.

#[local] Close Scope Z_scope.

(** With the [toJSON] of the store's Timestamp, and with a Timestamp class
    that has none. *)
Definition runtime : Runtime :=
  {| toISOString := isoText;
     Date_parse := parseISO;
     JSON_text := print;
     JSON_syntax := parse;
     Timestamp_toJSON := timestampJSON;
     Date_parse_toISOString := parseISO_isoText;
     JSON_syntax_text := parse_print |}.

Definition bare : Runtime :=
  {| toISOString := isoText;
     Date_parse := parseISO;
     JSON_text := print;
     JSON_syntax := parse;
     Timestamp_toJSON := fun _ => None;
     Date_parse_toISOString := parseISO_isoText;
     JSON_syntax_text := parse_print |}.

End Reference.

(** * Facts about the model *)

(** ** Keys, allocation, sets and records *)

Lemma index_key_plain i :
  (index_key i ∉ dateKeys) /\ String.eqb (index_key i) setKey = false.
Proof.
  unfold index_key, NilZero.string_of_uint, dateKeys.
  destruct (Nat.to_uint i); simpl; (split; [|reflexivity]);
    rewrite !elem_of_cons, elem_of_nil; intros [?|[?|[?|[]]]]; discriminate.
Qed.

Lemma lookup_alloc (h : heap) o : (h ++ [o]) !! length h = Some o.
Proof. by apply list_lookup_middle. Qed.

Lemma lookup_alloc_old (h : heap) o l x :
  h !! l = Some x -> (h ++ [o]) !! l = Some x.
Proof. intros H. by apply lookup_app_l_Some. Qed.

Lemma addAll_elem v vs acc : v ∈ addAll acc vs <-> v ∈ acc \/ v ∈ vs.
Proof.
  revert acc. induction vs as [|x vs IH]; intros acc; simpl.
  - set_solver.
  - rewrite IH. case_decide; set_solver.
Qed.

Lemma get_put_fresh k v ps :
  k ∉ ps.*1 -> put k v ps = ps ++ [(k, v)].
Proof.
  induction ps as [|[k' v'] ps IH]; simpl; intros Hk; [done|].
  apply not_elem_of_cons in Hk as [Hne Hk].
  destruct (String.eqb_spec k k'); [done|]. by rewrite IH.
Qed.

Lemma buildProps_NoDup ps : NoDup ps.*1 -> buildProps ps = ps.
Proof.
  unfold buildProps. intros Hnd.
  enough (forall acc, NoDup (acc ++ ps).*1 ->
            foldl (fun acc kv => put kv.1 kv.2 acc) acc ps = acc ++ ps) as H
    by exact (H [] Hnd).
  clear Hnd. induction ps as [|[k v] ps IH]; intros acc Hnd; simpl.
  - by rewrite app_nil_r.
  - rewrite get_put_fresh.
    + rewrite IH; rewrite <- app_assoc; done.
    + rewrite fmap_app in Hnd. apply NoDup_app in Hnd as (_ & Hd & _).
      intros Hin. apply (Hd k Hin). simpl. set_solver.
Qed.

Lemma get_Some_elem k v ps : get k ps = Some v -> (k, v) ∈ ps.
Proof.
  induction ps as [|[k' v'] ps IH]; simpl; [done|].
  destruct (String.eqb_spec k k') as [->|]; intros H.
  - injection H as ->. set_solver.
  - set_solver.
Qed.

Lemma get_None k ps : get k ps = None <-> k ∉ ps.*1.
Proof.
  induction ps as [|[k' v'] ps IH]; simpl.
  - set_solver.
  - destruct (String.eqb_spec k k') as [->|]; set_solver.
Qed.

(** ** The serializer always returns *)

Lemma budget_mono h (seen seen' : gset loc) :
  seen ⊆ seen' -> budget h seen' <= budget h seen.
Proof. intros H. unfold budget. apply subseteq_size. set_solver. Qed.

Lemma budget_visit h (seen : gset loc) l :
  l < length h -> l ∉ seen -> budget h ({[l]} ∪ seen) < budget h seen.
Proof.
  intros Hl Hn. unfold budget. apply subset_size.
  apply strict_spec_alt. split; [set_solver|].
  intros Heq. assert (l ∈ (set_seq 0 (length h) ∖ seen : gset loc)) as Hin.
  { apply elem_of_difference. split; [|done]. apply elem_of_set_seq. lia. }
  rewrite <- Heq in Hin. set_solver.
Qed.

Section Total.
Context `{RT : Runtime}.

Lemma serElements_returns rec seen0 vs :
  returns rec seen0 vs ->
  forall i seen, seen0 ⊆ seen ->
    (exists seen' js, serElements rec seen i vs = Ok (seen', js) /\ seen ⊆ seen') \/
    serElements rec seen i vs = Throw RangeError.
Proof.
  induction vs as [|v vs IH]; intros Hrec i seen Hsub; simpl.
  - left. eauto.
  - destruct (Hrec seen (index_key i) v Hsub) as [(s1 & r & -> & Hs1)| ->];
      [set_solver| |by right].
    simpl. destruct (IH (fun s k x Hs Hx => Hrec s k x Hs ltac:(set_solver))
                        (S i) s1 ltac:(set_solver)) as [(s2 & js & -> & Hs2)| ->];
      [|by right].
    simpl. left. eexists _, _. split; [done|set_solver].
Qed.

Lemma serMembers_returns rec seen0 (ps : props) :
  returns rec seen0 ps.*2 ->
  forall seen, seen0 ⊆ seen ->
    (exists seen' ms, serMembers rec seen ps = Ok (seen', ms) /\ seen ⊆ seen') \/
    serMembers rec seen ps = Throw RangeError.
Proof.
  induction ps as [|[k v] ps IH]; intros Hrec seen Hsub; simpl.
  - left. eauto.
  - destruct (Hrec seen k v Hsub) as [(s1 & r & -> & Hs1)| ->];
      [set_solver| |by right].
    simpl. destruct (IH (fun s k x Hs Hx => Hrec s k x Hs ltac:(set_solver))
                        s1 ltac:(set_solver)) as [(s2 & ms & -> & Hs2)| ->];
      [|by right].
    simpl. left. eexists _, _. split; [done|set_solver].
Qed.

(** In a heap without dangling references the serializer always returns,
    unless a timestamp is out of range; the cycle check of [JSON.stringify]
    never fires. *)
Lemma SerializeJSONProperty_returns fuel h :
  closed h ->
  forall stack seen k v,
    valid h v -> (forall l, l ∈ stack -> l ∈ seen) -> budget h seen < fuel ->
    (exists seen' r,
       SerializeJSONProperty fuel h stack seen k v = Ok (seen', r) /\ seen ⊆ seen') \/
    SerializeJSONProperty fuel h stack seen k v = Throw RangeError.
Proof.
  intros Hcl. induction fuel as [|fuel IH]; intros stack seen k v Hv Hst Hb; [lia|].
  assert (forall stack' l o, h !! l = Some o -> l ∉ seen ->
            (forall x, x ∈ stack' -> x ∈ {[l]} ∪ seen) ->
            returns (SerializeJSONProperty fuel h stack') ({[l]} ∪ seen) (children o))
    as Hkids.
  { intros stack' l o Ho Hl Hst' s k' x Hs Hx.
    apply IH; [by eapply Hcl|set_solver|].
    pose proof (budget_mono h _ _ Hs).
    pose proof (budget_visit h seen l (lookup_lt_Some _ _ _ Ho) Hl). lia. }
  destruct v as [| |b|n|s|l]; simpl; try (left; eexists _, _; split; [done|done]).
  simpl in Hv. destruct (lookup_lt_is_Some_2 h l Hv) as [o Ho].
  unfold toJSON. rewrite Ho.
  destruct o as [[t|]|ms|t|vs|ps|tag ps]; simpl;
    try (left; eexists _, _; split; [done|done]).
  2: { destruct (Timestamp_toJSON t) as [j|]; [left; by eexists _, _|].
       simpl. destruct (decide (l ∈ seen)); simpl; [left; by eexists _, _|].
       rewrite Ho. destruct (decide (validTime t)); [|by right].
       simpl. left. eexists _, _. split; [done|set_solver]. }
  all: destruct (decide (l ∈ seen)) as [Hin|Hin]; simpl;
         [left; eexists _, _; split; [done|done]|];
       rewrite ?Ho; simpl.
  - destruct (serElements_returns _ _ _
                (Hkids stack l _ Ho Hin ltac:(set_solver))
                0 ({[l]} ∪ seen) ltac:(done)) as [(s' & js & E & Hs')|E];
      simpl in E; rewrite E; simpl; [|by right].
    left. eexists _, _. split; [done|set_solver].
  - destruct (decide (l ∈ stack)) as [Hs|Hs]; [by apply Hst in Hs|].
    rewrite ?Ho; simpl.
    destruct (serElements_returns _ _ _
                (Hkids (l :: stack) l _ Ho Hin ltac:(set_solver))
                0 ({[l]} ∪ seen) ltac:(done)) as [(s' & js & E & Hs')|E];
      simpl in E; rewrite E; simpl; [|by right].
    left. eexists _, _. split; [done|set_solver].
  - destruct (decide (l ∈ stack)) as [Hs|Hs]; [by apply Hst in Hs|].
    rewrite ?Ho; simpl.
    destruct (serMembers_returns _ _ ps
                (Hkids (l :: stack) l _ Ho Hin ltac:(set_solver))
                ({[l]} ∪ seen) ltac:(done)) as [(s' & js & E & Hs')|E];
      rewrite E; simpl; [|by right].
    left. eexists _, _. split; [done|set_solver].
  - destruct (String.eqb tag "Object"); simpl.
    + rewrite Ho. destruct (decide (l ∈ stack)) as [Hs|Hs]; [by apply Hst in Hs|].
      rewrite ?Ho; simpl.
      destruct (serMembers_returns _ _ ps
                  (Hkids (l :: stack) l _ Ho Hin ltac:(set_solver))
                  ({[l]} ∪ seen) ltac:(done)) as [(s' & js & E & Hs')|E];
        rewrite E; simpl; [|by right].
      left. eexists _, _. split; [done|set_solver].
    + left. eexists _, _. split; [done|set_solver].
Qed.

Lemma serElements_never e rec : never e rec ->
  forall vs i seen, serElements rec seen i vs <> Throw e.
Proof.
  intros Hrec. induction vs as [|v vs IH]; intros i seen; cbn [serElements]; [done|].
  pose proof (Hrec seen (index_key i) v) as H1.
  destruct (rec seen (index_key i) v) as [[s r]| | |]; cbn [mbind outcome_bind];
    try done; try (intros [= ->]; by destruct H1).
  pose proof (IH (S i) s) as H2.
  destruct (serElements rec s (S i) vs) as [[s' js]| | |]; cbn [mbind outcome_bind];
    done.
Qed.

Lemma serMembers_never e rec : never e rec ->
  forall (ps : props) seen, serMembers rec seen ps <> Throw e.
Proof.
  intros Hrec. induction ps as [|[k v] ps IH]; intros seen; cbn [serMembers]; [done|].
  pose proof (Hrec seen k v) as H1.
  destruct (rec seen k v) as [[s r]| | |]; cbn [mbind outcome_bind];
    try done; try (intros [= ->]; by destruct H1).
  pose proof (IH s) as H2.
  destruct (serMembers rec s ps) as [[s' ms]| | |]; cbn [mbind outcome_bind]; done.
Qed.

(** No [RangeError] when no timestamp handed to the replacer is out of
    range. *)
Lemma SerializeJSONProperty_dated fuel h :
  dated h -> forall stack, never RangeError (SerializeJSONProperty fuel h stack).
Proof.
  intros Hd. induction fuel as [|fuel IH]; intros stack seen k v; [done|].
  cbn [SerializeJSONProperty].
  destruct v as [| |b|n|s|l]; cbn [toJSON jsonReplacer mbind outcome_bind]; try done.
  destruct (h !! l) as [o|] eqn:Ho; cbn [jsonReplacer];
    [|destruct (decide (l ∈ seen)); [done|by rewrite Ho]].
  destruct o as [[t|]|ms|t|vs|ps|tag ps]; cbn [jsonReplacer mbind outcome_bind];
    try done.
  2: { destruct (Timestamp_toJSON t) as [j|] eqn:Ej; [done|].
       cbn [jsonReplacer]. destruct (decide (l ∈ seen)); [done|]. rewrite Ho.
       destruct (decide (validTime t)) as [|Hn]; [done|].
       destruct (Hd l t Ho) as [?|[j Hj]]; [done|congruence]. }
  all: destruct (decide (l ∈ seen)); [done|]; rewrite Ho;
       cbn [isArray toStringTag orb String.eqb Ascii.eqb Bool.eqb andb
            mbind outcome_bind].
  - pose proof (serElements_never RangeError _ (IH stack) ms 0 ({[l]} ∪ seen)) as H.
    destruct (serElements _ _ 0 ms) as [[s js]| | |]; cbn [mbind outcome_bind];
      first [done|intros [= ->]; by destruct H].
  - rewrite ?Ho. destruct (decide (l ∈ stack)); [discriminate|].
    pose proof (serElements_never RangeError _ (IH (l :: stack)) vs 0 ({[l]} ∪ seen)) as H.
    destruct (serElements _ _ 0 vs) as [[s js]| | |]; cbn [mbind outcome_bind];
      first [done|intros [= ->]; by destruct H].
  - rewrite ?Ho. destruct (decide (l ∈ stack)); [discriminate|]. cbn [ownProps].
    pose proof (serMembers_never RangeError _ (IH (l :: stack)) ps ({[l]} ∪ seen)) as H.
    destruct (serMembers _ _ ps) as [[s js]| | |]; cbn [mbind outcome_bind];
      first [done|intros [= ->]; by destruct H].
  - destruct (String.eqb tag "Object"); cbn [mbind outcome_bind]; [|done].
    rewrite ?Ho. destruct (decide (l ∈ stack)); [discriminate|]. cbn [ownProps].
    pose proof (serMembers_never RangeError _ (IH (l :: stack)) ps ({[l]} ∪ seen)) as H.
    destruct (serMembers _ _ ps) as [[s js]| | |]; cbn [mbind outcome_bind];
      first [done|intros [= ->]; by destruct H].
Qed.

Lemma SerializeJSONProperty_total fuel h :
  closed h -> dated h ->
  forall stack seen k v,
    valid h v -> (forall l, l ∈ stack -> l ∈ seen) -> budget h seen < fuel ->
    exists seen' r,
      SerializeJSONProperty fuel h stack seen k v = Ok (seen', r) /\ seen ⊆ seen'.
Proof.
  intros Hcl Hd stack seen k v Hv Hst Hb.
  destruct (SerializeJSONProperty_returns fuel h Hcl stack seen k v Hv Hst Hb)
    as [H|H]; [done|].
  by destruct (SerializeJSONProperty_dated fuel h Hd stack seen k v).
Qed.

End Total.

(** ** Encoding then decoding a recognized, unshared value *)

Section Roundtrip.
Context `{RT : Runtime}.

Lemma reviver_other k v h :
  (forall s, v <> VStr s) -> (forall l, v <> VRef l) -> reviver k v h = (h, v).
Proof.
  intros Hs Hl. unfold reviver.
  destruct v; try (by destruct (bool_decide _), (String.eqb _ _));
    [by destruct (Hs s)|by destruct (Hl l)].
Qed.

Lemma reviver_str k s h :
  (k ∈ dateKeys -> Date_parse s = None) -> reviver k (VStr s) h = (h, VStr s).
Proof.
  intros Hk. unfold reviver. case_bool_decide as Hin.
  - rewrite (Hk Hin). by destruct (String.eqb _ _).
  - by destruct (String.eqb _ _).
Qed.

Lemma reviver_index i v h : reviver (index_key i) v h = (h, v).
Proof.
  destruct (index_key_plain i) as [Hd Hs]. unfold reviver.
  rewrite bool_decide_eq_false_2 by done. by rewrite Hs.
Qed.

Lemma fieldwise_mono h h1 h2 v y :
  fieldwise h h1 v y -> h1 `prefix_of` h2 -> fieldwise h h2 v y.
Proof.
  intros H Hp. induction H.
  - by apply fw_prim.
  - eapply fw_date; [done|]. by eapply prefix_lookup_Some.
  - eapply fw_set; [done| |done]. by eapply prefix_lookup_Some.
  - eapply fw_arr; [done| |done|done]. by eapply prefix_lookup_Some.
  - eapply fw_obj; [done| |done|done]. by eapply prefix_lookup_Some.
Qed.

Lemma prefix_alloc (h : heap) o : h `prefix_of` (h ++ [o]).
Proof. by apply prefix_app_r. Qed.

Lemma serElements_strings rec ss : forall i seen,
  (forall seen k s, rec seen k (VStr s) = Ok (seen, Some (JStr s))) ->
  serElements rec seen i (VStr <$> ss) = Ok (seen, JStr <$> ss).
Proof.
  induction ss as [|s ss IH]; intros i seen Hrec; simpl; [done|].
  rewrite Hrec. simpl. by rewrite IH.
Qed.

Lemma intElements_strings ss : forall i h0,
  intElements InternalizeJSONProperty i (JStr <$> ss) h0 = (h0, VStr <$> ss).
Proof.
  induction ss as [|s ss IH]; intros i h0; simpl; [done|].
  rewrite reviver_index. by rewrite IH.
Qed.

Lemma roundtrips_elements h vs : forall i fp,
  (forall n v, vs !! n = Some v ->
     forall f, owns h v f -> roundtrips h (index_key (i + n)) v f) ->
  apart (owns h) vs fp ->
  (forall l, l ∈ fp -> l < length h) /\
  exists js,
    (forall fuel stack seen,
        size fp < fuel -> seen ## fp -> (forall l, l ∈ stack -> l ∈ seen) ->
        serElements (SerializeJSONProperty fuel h stack) seen i vs
        = Ok (seen ∪ fp, js)) /\
    (forall h0, exists h1 ys,
        intElements InternalizeJSONProperty i js h0 = (h1, ys) /\
        h0 `prefix_of` h1 /\ Forall2 (fieldwise h h1) vs ys).
Proof.
  induction vs as [|x xs IH]; intros i fp Hall Hap; inversion Hap; subst.
  - split; [set_solver|]. exists []. split.
    + intros. simpl. by rewrite (right_id_L ∅ (∪)).
    + intros h0. exists h0, []. simpl. done.
  - destruct (Hall 0 x eq_refl f1 ltac:(done)) as (Hb1 & jx & Hser & Hint).
    rewrite Nat.add_0_r in Hser, Hint.
    destruct (IH (S i) f2) as (Hb2 & js & Hsers & Hints); [|done|].
    { intros n v Hn f Hf. replace (S i + n) with (i + S n) by lia.
      by apply Hall. }
    split; [set_solver|]. exists (jx :: js). split.
    + intros fuel stack seen Hfuel Hdisj Hst. simpl.
      rewrite size_union in Hfuel by done.
      rewrite Hser; [|lia|set_solver|done]. simpl.
      rewrite Hsers; [|lia|set_solver|set_solver]. simpl.
      by rewrite (assoc_L (∪)).
    + intros h0. destruct (Hint h0) as (h1 & y & E1 & Hp1 & Hf1).
      destruct (Hints h1) as (h2 & ys & E2 & Hp2 & Hf2).
      exists h2, (y :: ys). simpl. rewrite E1, E2.
      split; [done|]. split; [by etrans|].
      constructor; [by eapply fieldwise_mono|done].
Qed.

Lemma roundtrips_members h (ps : props) : forall fp,
  (forall k v, (k, v) ∈ ps ->
     forall f, owns h v f -> roundtrips h k v f) ->
  apart (owns h) ps.*2 fp ->
  (forall l, l ∈ fp -> l < length h) /\
  exists ms,
    (forall fuel stack seen,
        size fp < fuel -> seen ## fp -> (forall l, l ∈ stack -> l ∈ seen) ->
        serMembers (SerializeJSONProperty fuel h stack) seen ps
        = Ok (seen ∪ fp, ms)) /\
    (forall h0, exists h1 qs,
        intMembers InternalizeJSONProperty ms h0 = (h1, qs) /\
        h0 `prefix_of` h1 /\
        Forall2 (fun p q => p.1 = q.1 /\ fieldwise h h1 p.2 q.2) ps qs).
Proof.
  induction ps as [|[k x] ps IH]; intros fp Hall Hap; inversion Hap; subst.
  - split; [set_solver|]. exists []. split.
    + intros. simpl. by rewrite (right_id_L ∅ (∪)).
    + intros h0. exists h0, []. simpl. done.
  - destruct (Hall k x ltac:(set_solver) f1 ltac:(done)) as (Hb1 & jx & Hser & Hint).
    destruct (IH f2) as (Hb2 & ms & Hsers & Hints); [|done|].
    { intros k' v Hin f Hf. apply Hall; [set_solver|done]. }
    split; [set_solver|]. exists ((k, jx) :: ms). split.
    + intros fuel stack seen Hfuel Hdisj Hst. simpl.
      rewrite size_union in Hfuel by done.
      rewrite Hser; [|lia|set_solver|done]. simpl.
      rewrite Hsers; [|lia|set_solver|set_solver]. simpl.
      by rewrite (assoc_L (∪)).
    + intros h0. destruct (Hint h0) as (h1 & y & E1 & Hp1 & Hf1).
      destruct (Hints h1) as (h2 & qs & E2 & Hp2 & Hf2).
      exists h2, ((k, y) :: qs). simpl. rewrite E1, E2.
      split; [done|]. split; [by etrans|].
      constructor; [split; [done|by eapply fieldwise_mono]|done].
Qed.

Lemma Forall2_get (R : value -> value -> Prop) (ps qs : props) :
  Forall2 (fun p q => p.1 = q.1 /\ R p.2 q.2) ps qs ->
  forall k,
    (get k ps = None <-> get k qs = None) /\
    (forall v1 v2, get k ps = Some v1 -> get k qs = Some v2 -> R v1 v2).
Proof.
  induction 1 as [|[k1 v1] [k2 v2] ps qs [Hk Hv] _ IH]; intros k; simpl in *.
  - done.
  - subst k2. destruct (String.eqb k k1); [|apply IH].
    split; [done|]. by intros ? ? [= <-] [= <-].
Qed.

Lemma Forall2_keys (R : value -> value -> Prop) (ps qs : props) :
  Forall2 (fun p q => p.1 = q.1 /\ R p.2 q.2) ps qs -> ps.*1 = qs.*1.
Proof.
  induction 1 as [|[] [] ? ? [? ?] _ IH]; simpl in *; [done|]. by f_equal.
Qed.

Lemma recognized_roundtrips h k v :
  recognized h k v -> forall fp, owns h v fp -> roundtrips h k v fp.
Proof.
  induction 1 as [k|k b|k n|k s Hs|k l t Hk Hl Ht|l ss Hl
                 |k l vs Hk Hl Hvs IH|k l ps Hl Hnd Hps IH];
    intros fp Hown; inversion Hown; subst;
    try match goal with H : forall l, _ <> VRef l |- _ =>
          try (by destruct (H _ eq_refl)) end;
    try congruence.
  - (* null *)
    split; [set_solver|]. exists JNull. split.
    + intros [|fuel] stack seen Hf Hd Hst; [lia|]. simpl.
      by rewrite (right_id_L ∅ (∪)).
    + intros h0. exists h0, VNull. simpl. rewrite reviver_other by done.
      split; [done|]. split; [done|]. by apply fw_prim.
  - (* boolean *)
    split; [set_solver|]. exists (JBool b). split.
    + intros [|fuel] stack seen Hf Hd Hst; [lia|]. simpl.
      by rewrite (right_id_L ∅ (∪)).
    + intros h0. exists h0, (VBool b). simpl. rewrite reviver_other by done.
      split; [done|]. split; [done|]. by apply fw_prim.
  - (* number *)
    split; [set_solver|]. exists (JNum n). split.
    + intros [|fuel] stack seen Hf Hd Hst; [lia|]. simpl.
      by rewrite (right_id_L ∅ (∪)).
    + intros h0. exists h0, (VNum n). simpl. rewrite reviver_other by done.
      split; [done|]. split; [done|]. by apply fw_prim.
  - (* string *)
    split; [set_solver|]. exists (JStr s). split.
    + intros [|fuel] stack seen Hf Hd Hst; [lia|]. simpl.
      by rewrite (right_id_L ∅ (∪)).
    + intros h0. exists h0, (VStr s). simpl. rewrite reviver_str by done.
      split; [done|]. split; [done|]. by apply fw_prim.
  - (* instant *)
    split; [set_solver|]. exists (JStr (toISOString t)). split.
    + intros [|fuel] stack seen Hf Hd Hst; [lia|]. simpl. rewrite Hl. simpl.
      by rewrite (right_id_L ∅ (∪)).
    + intros h0. exists (h0 ++ [ODate (Some t)]), (VRef (length h0)). simpl.
      unfold reviver. rewrite bool_decide_eq_true_2 by done.
      rewrite Date_parse_toISOString by done.
      split; [done|]. split; [apply prefix_alloc|].
      eapply fw_date; [exact Hl|apply lookup_alloc].
  - (* set of strings *)
    split; [intros x ->%elem_of_singleton; by eapply lookup_lt_Some|].
    exists (JArr (JStr <$> ss)). split.
    + intros [|[|fuel]] stack seen Hf Hd Hst;
        [rewrite size_singleton in Hf; lia..|].
      cbn [SerializeJSONProperty]. unfold toJSON. rewrite Hl.
      cbn [jsonReplacer]. rewrite decide_False by set_solver. rewrite Hl.
      cbn [mbind outcome_bind].
      rewrite serElements_strings by done. cbn [mbind outcome_bind].
      do 2 f_equal. set_solver.
    + intros h0. cbn [InternalizeJSONProperty].
      rewrite intElements_strings. cbn [alloc].
      unfold reviver. rewrite bool_decide_eq_false_2
        by (unfold setKey, dateKeys; rewrite !elem_of_cons, elem_of_nil;
            intros [?|[?|[?|[]]]]; discriminate).
      rewrite String.eqb_refl, lookup_alloc. cbn [alloc].
      eexists _, _. split; [done|]. split.
      { etrans; apply prefix_alloc. }
      eapply fw_set; [done|apply lookup_alloc|].
      intros v. rewrite addAll_elem. set_solver.
  - (* array *)
    match goal with H : h !! l = Some (OArray ?a) |- _ =>
      assert (a = vs) as -> by congruence end.
    match goal with H : apart _ _ ?f |- _ => rename f into fp', H into Hap end.
    match goal with H : l ∉ fp' |- _ => rename H into Hfresh end.
    destruct (roundtrips_elements h vs 0 fp') as (Hb & js & Hser & Hint);
      [by intros n v Hn f Hf; apply IH|done|].
    split.
    { intros x [->%elem_of_singleton|Hx]%elem_of_union;
        [by eapply lookup_lt_Some|by apply Hb]. }
    exists (JArr js). split.
    + intros [|fuel] stack seen Hf Hd Hst; [lia|].
      rewrite size_union, size_singleton in Hf by set_solver.
      cbn [SerializeJSONProperty]. unfold toJSON. rewrite Hl.
      cbn [jsonReplacer]. rewrite decide_False by set_solver. rewrite Hl.
      cbn [isArray orb mbind outcome_bind]. rewrite Hl.
      rewrite decide_False by (intros Hin; apply Hst in Hin; set_solver).
      rewrite Hser; [|lia|set_solver|set_solver].
      cbn [mbind outcome_bind]. do 2 f_equal. set_solver.
    + intros h0. destruct (Hint h0) as (h1 & ys & E & Hp & Hf).
      cbn [InternalizeJSONProperty]. rewrite E. cbn [alloc].
      unfold reviver. destruct (bool_decide (k ∈ dateKeys)).
      all: rewrite (proj2 (String.eqb_neq k setKey)) by done.
      all: eexists _, _; (split; [done|]);
        (split; [etrans; [done|apply prefix_alloc]|]).
      all: eapply fw_arr; [done|apply lookup_alloc|by eapply Forall2_length|].
      all: intros i v1 v2 H1 H2; eapply fieldwise_mono; [|apply prefix_alloc].
      all: by eapply Forall2_lookup_lr.
  - (* record *)
    match goal with H : h !! l = Some (OPlain ?a) |- _ =>
      assert (a = ps) as -> by congruence end.
    match goal with H : apart _ _ ?f |- _ => rename f into fp', H into Hap end.
    match goal with H : l ∉ fp' |- _ => rename H into Hfresh end.
    destruct (roundtrips_members h ps fp') as (Hb & ms & Hser & Hint);
      [by intros k' v Hin f Hf; eapply IH|done|].
    split.
    { intros x [->%elem_of_singleton|Hx]%elem_of_union;
        [by eapply lookup_lt_Some|by apply Hb]. }
    exists (JObj ms). split.
    + intros [|fuel] stack seen Hf Hd Hst; [lia|].
      rewrite size_union, size_singleton in Hf by set_solver.
      cbn [SerializeJSONProperty]. unfold toJSON. rewrite Hl.
      cbn [jsonReplacer]. rewrite decide_False by set_solver. rewrite Hl.
      cbn [isArray toStringTag orb mbind outcome_bind].
      change (String.eqb "Object" "Object") with true. cbv iota.
      cbn [mbind outcome_bind]. rewrite Hl.
      rewrite decide_False by (intros Hin; apply Hst in Hin; set_solver).
      cbn [ownProps].
      rewrite Hser; [|lia|set_solver|set_solver].
      cbn [mbind outcome_bind]. do 2 f_equal. set_solver.
    + intros h0. destruct (Hint h0) as (h1 & qs & E & Hp & Hf).
      cbn [InternalizeJSONProperty]. rewrite E. cbn [alloc].
      rewrite buildProps_NoDup by (by rewrite <- (Forall2_keys _ _ _ Hf)).
      assert (reviver k (VRef (length h1)) (h1 ++ [OPlain qs])
              = (h1 ++ [OPlain qs], VRef (length h1))) as ->.
      { unfold reviver. destruct (bool_decide (k ∈ dateKeys));
          destruct (String.eqb k setKey); by rewrite ?lookup_alloc. }
      eexists _, _; (split; [done|]);
        (split; [etrans; [done|apply prefix_alloc]|]).
      pose proof (Forall2_get _ _ _ Hf) as Hget.
      eapply fw_obj; [done|apply lookup_alloc|apply Hget|].
      intros k' v1 v2 H1 H2. eapply fieldwise_mono; [|apply prefix_alloc].
      by eapply (proj2 (Hget k')).
Qed.

End Roundtrip.

(** * The claims *)

Section Codec_claims.
Context `{RT : Runtime}.

Lemma footprint_size (h : heap) (fp : gset loc) :
  (forall l, l ∈ fp -> l < length h) -> size fp <= length h.
Proof.
  intros Hb. rewrite <- (size_set_seq (C := gset nat) 0 (length h)).
  apply subseteq_size. intros l Hl. apply elem_of_set_seq. specialize (Hb l Hl). lia.
Qed.

(** Encoding a recognized value that shares no composite gives a text, and
    decoding that text into any heap gives a field-wise equal value. *)
Lemma stringify_parse (h : heap) k x fp :
  recognized h k x -> owns h x fp ->
  exists j,
    SerializeJSONProperty (S (length h)) h [] ∅ k x = Ok (fp, Some j) /\
    forall h0, exists h1 y,
      InternalizeJSONProperty k j h0 = (h1, y) /\ h0 `prefix_of` h1 /\
      fieldwise h h1 x y.
Proof.
  intros Hrec Hown.
  destruct (recognized_roundtrips h k x Hrec fp Hown) as (Hb & j & Hser & Hint).
  exists j. split; [|done].
  rewrite (Hser (S (length h)) [] ∅); [by rewrite (left_id_L ∅ (∪))| | |].
  - pose proof (footprint_size h fp Hb). lia.
  - set_solver.
  - set_solver.
Qed.

(** C1 (as amended).  For every profile value [x]
    - made of [null], booleans, integers, strings, [Date]s with a valid
      instant, [Set]s of strings, and arrays and plain records of such
      values, the records with distinct property names,
    - in which a [Date] is held only under one of the names [createdAt],
      [startDate], [timestamp], and a string held under one of these names
      is not one the date parser accepts,
    - in which a [Set] is held only under [communityPostFireReactions], and
      no array is held under that name,
    - and in which no array, record or set is referenced more than once (no
      aliasing, no cycle),
    encoding [x] yields a text, and decoding that text, into any heap,
    yields a value field-wise equal to [x]: instants by time value, sets by
    membership, arrays by position, records by property name. *)
Theorem C1_roundtrip_when_unshared (h : heap) (x : value) (fp : gset loc) :
  recognized h EmptyString x -> owns h x fp ->
  exists text,
    JSON_stringify h x = Ok (Some text) /\
    forall h0, exists h1 y,
      JSON_parse text h0 = Ok (h1, y) /\ fieldwise h h1 x y.
Proof.
  intros Hrec Hown.
  destruct (stringify_parse h _ x fp Hrec Hown) as (j & Hser & Hint).
  exists (JSON_text j). split.
  - unfold JSON_stringify. by rewrite Hser.
  - intros h0. destruct (Hint h0) as (h1 & y & E & _ & Hf).
    exists h1, y. unfold JSON_parse. by rewrite JSON_syntax_text, E.
Qed.

End Codec_claims.

(** ** The guest default *)

Lemma lookup_new (h : heap) (news : heap) i :
  (h ++ news) !! (length h + i) = news !! i.
Proof. rewrite lookup_app_r by lia. f_equal. lia. Qed.

Lemma lookup_new_0 (h : heap) (news : heap) :
  (h ++ news) !! length h = news !! 0.
Proof. rewrite <- (lookup_new h news 0). f_equal. lia. Qed.

Lemma newGuestProfile_eq now u (h : heap) :
  newGuestProfile now u h
  = (h ++ [ODate (Some now); OArray []; OArray []; OArray []; OPlain [];
           OSet []; OPlain (guestProps now u (length h))],
     VRef (length h + 6)).
Proof.
  unfold newGuestProfile, alloc, guestProps.
  repeat (rewrite ?length_app; cbn [length]).
  rewrite <- !app_assoc. cbn [app].
  repeat (f_equal; try lia).
Qed.

Section Guest.
Context `{RT : Runtime}.

Ltac not_date_key :=
  let H := fresh in
  intros H; exfalso; revert H; unfold dateKeys;
  rewrite !elem_of_cons, elem_of_nil; intros [?|[?|[?|[]]]]; discriminate.

Lemma guest_default_recognized now u (h0 : heap) :
  validTime now ->
  let '(h, p) := newGuestProfile now u h0 in
  recognized h EmptyString p /\ exists fp, owns h p fp.
Proof.
  intros Hnow. rewrite newGuestProfile_eq.
  set (h := h0 ++ _).
  assert (h !! length h0 = Some (ODate (Some now))) as H0
    by (unfold h; by rewrite lookup_new_0).
  assert (forall i o, [ODate (Some now); OArray []; OArray []; OArray [];
                       OPlain []; OSet [];
                       OPlain (guestProps now u (length h0))] !! i = Some o ->
                      h !! (length h0 + i) = Some o) as Hnew
    by (intros i o Hi; unfold h; by rewrite lookup_new).
  split.
  - eapply rec_obj; [by apply (Hnew 6)| |].
    + apply (bool_decide_unpack _). by vm_compute.
    + intros k v Hin. unfold guestProps in Hin.
      repeat (apply elem_of_cons in Hin as [[= -> ->]|Hin]);
        [..|by apply elem_of_nil in Hin].
      * apply rec_str. not_date_key.
      * apply rec_str. not_date_key.
      * eapply rec_date; [|exact H0|done]. unfold dateKeys. set_solver.
      * apply rec_bool.
      * apply rec_bool.
      * apply rec_str. not_date_key.
      * eapply rec_arr; [done|by apply (Hnew 1)|]. by intros i v [=].
      * apply rec_num.
      * apply rec_num.
      * apply rec_num.
      * eapply rec_arr; [done|by apply (Hnew 2)|]. by intros i v [=].
      * eapply rec_arr; [done|by apply (Hnew 3)|]. by intros i v [=].
      * eapply rec_obj; [by apply (Hnew 4)|constructor|].
        intros k v Hin'. by apply elem_of_nil in Hin'.
      * apply (rec_set h _ []). by apply (Hnew 5).
  - eexists. eapply owns_obj; [by apply (Hnew 6)| |].
    + unfold guestProps. cbn [fmap list_fmap snd].
      repeat (eapply apart_cons;
              [first [ by apply owns_prim
                     | by eapply owns_date
                     | by eapply owns_set; apply (Hnew 5)
                     | by eapply owns_arr; [by apply (Hnew 1)|apply apart_nil|set_solver]
                     | by eapply owns_arr; [by apply (Hnew 2)|apply apart_nil|set_solver]
                     | by eapply owns_arr; [by apply (Hnew 3)|apply apart_nil|set_solver]
                     | by eapply (owns_obj _ _ []); [by apply (Hnew 4)|apply apart_nil|set_solver] ]
              | | ]); [apply apart_nil|..].
      all: set_unfold; lia.
    + set_unfold. lia.
Qed.

End Guest.

Section Synchronizer_claims.
Context `{RT : Runtime}.

(** Deriving, encoding and storing the guest default (lines 94-114): it
    never throws, and what is stored decodes to a field-wise equal profile. *)
Lemma derive_guest_default now u (st : state) :
  validTime now ->
  exists h p j,
    newGuestProfile now u (mem st) = (h, p) /\
    JSON_stringify h p = Ok (Some (JSON_text j)) /\
    JSON_syntax (JSON_text j) = Some j /\
    forall h0, exists h1 y,
      JSON_parse (JSON_text j) h0 = Ok (h1, y) /\ fieldwise h h1 p y.
Proof.
  intros Hnow. pose proof (guest_default_recognized now u (mem st) Hnow) as H.
  destruct (newGuestProfile now u (mem st)) as [h p].
  destruct H as (Hrec & fp & Hown).
  destruct (stringify_parse h _ p fp Hrec Hown) as (j & Hser & Hint).
  exists h, p, j. split; [done|]. split; [|split].
  - unfold JSON_stringify. by rewrite Hser.
  - apply JSON_syntax_text.
  - intros h0. destruct (Hint h0) as (h1 & y & E & _ & Hf).
    exists h1, y. unfold JSON_parse. by rewrite JSON_syntax_text, E.
Qed.

(** C4.  When the text stored under the guest key is not valid JSON, the
    identity callback completes without an error: the stored text is
    discarded, the current profile is the freshly derived guest default, and
    the store holds the snapshot of that default instead. *)
Theorem C4_malformed_snapshot_recovered now (u : User) (st : state) (text : string) :
  validTime now -> isAnonymous u = true ->
  localStorage st !! guestKey = Some text -> JSON_syntax text = None ->
  exists st' snapshot,
    onAuthStateChanged now (Some u) st = Ok st' /\
    (mem st', userProfile st') = newGuestProfile now u (mem st) /\
    currentProfile st' = Some (userProfile st') /\
    loading st' = false /\
    JSON_stringify (mem st') (userProfile st') = Ok (Some snapshot) /\
    localStorage st' !! guestKey = Some snapshot /\
    snapshot <> text.
Proof.
  intros Hnow Hanon Hstored Hbad.
  destruct (derive_guest_default now u st Hnow) as (h & p & j & Enew & Hstr & Hsyn & _).
  assert (exists l, p = VRef l) as [l ->].
  { rewrite newGuestProfile_eq in Enew. injection Enew as _ <-. eauto. }
  exists (setLoading false
            (setUserProfile (VRef l)
               (setItem guestKey (JSON_text j)
                  (setMem h
                     (if truthy (VStr text)
                      then removeItem guestKey
                             (console_error
                                "Failed to parse guest profile from localStorage"
                                (setUser (Some u) st))
                      else setUser (Some u) st))))), (JSON_text j).
  split.
  - unfold onAuthStateChanged, onGuest. rewrite Hanon.
    cbn [localStorage setUser]. rewrite Hstored.
    unfold JSON_parse. rewrite Hbad.
    destruct (truthy (VStr text)); cbn [mbind outcome_bind try_catch truthy];
      cbn [mem removeItem console_error setUser]; rewrite Enew;
      cbn [mbind outcome_bind]; rewrite Hstr; reflexivity.
  - cbn [mem userProfile loading localStorage setLoading setUserProfile setItem setMem].
    split; [done|]. split; [done|]. split; [done|]. split; [done|].
    split; [by rewrite lookup_insert_eq|].
    intros <-. by rewrite Hsyn in Hbad.
Qed.

(** C5.  Identity [abc12xyz] becomes active as a guest while the store holds
    no snapshot: the callback completes; the current profile is a record
    whose [uid] is the id, whose [displayName] ends with the first five
    characters of the id, whose three counters are 0 and whose
    [communityPostFireReactions] is an empty set; and the store then holds a
    text that decodes, into any heap, to a profile field-wise equal to it. *)
Theorem C5_guest_creation now (u : User) (st : state) :
  validTime now -> uid u = "abc12xyz" -> isAnonymous u = true ->
  localStorage st !! guestKey = None ->
  exists st' p ps s text,
    onAuthStateChanged now (Some u) st = Ok st' /\
    currentProfile st' = Some (VRef p) /\
    mem st' !! p = Some (OPlain ps) /\
    get "uid" ps = Some (VStr "abc12xyz") /\
    (exists label, get "displayName" ps = Some (VStr (String.append label "abc12"))) /\
    get "emergencyIndex" ps = Some (VNum 0) /\
    get "urgeIndex" ps = Some (VNum 0) /\
    get "storyIndex" ps = Some (VNum 0) /\
    get "communityPostFireReactions" ps = Some (VRef s) /\
    mem st' !! s = Some (OSet []) /\
    localStorage st' !! guestKey = Some text /\
    forall h0, exists h1 y,
      JSON_parse text h0 = Ok (h1, y) /\ fieldwise (mem st') h1 (VRef p) y.
Proof.
  intros Hnow Huid Hanon Hnone.
  destruct (derive_guest_default now u st Hnow) as (h & p & j & Enew & Hstr & _ & Hdec).
  pose proof Enew as Eq. rewrite newGuestProfile_eq in Eq. injection Eq as <- <-.
  set (h := mem st ++ _) in *.
  exists (setLoading false
            (setUserProfile (VRef (length (mem st) + 6))
               (setItem guestKey (JSON_text j) (setMem h (setUser (Some u) st))))),
    (length (mem st) + 6), (guestProps now u (length (mem st))),
    (length (mem st) + 5), (JSON_text j).
  split.
  { unfold onAuthStateChanged, onGuest. rewrite Hanon.
    cbn [localStorage setUser]. rewrite Hnone.
    cbn [mbind outcome_bind try_catch truthy mem setUser]. rewrite Enew.
    cbn [mbind outcome_bind]. rewrite Hstr. reflexivity. }
  cbn [mem userProfile loading localStorage setLoading setUserProfile setItem
       setMem currentProfile truthy].
  unfold currentProfile. cbn [userProfile truthy].
  split; [done|]. split; [by unfold h; rewrite lookup_new|].
  unfold guestProps. rewrite Huid.
  split; [done|]. split; [by exists "زائر "|].
  split; [done|]. split; [done|]. split; [done|]. split; [done|].
  split; [by unfold h; rewrite lookup_new|].
  split; [by rewrite lookup_insert_eq|]. exact Hdec.
Qed.

(** C9.  On every identity-loss event, from any state, the callback
    completes, the held profile is discarded ([currentProfile] is none) and
    the guest snapshot is purged (reading the guest key finds nothing). *)
Theorem C9_identity_loss now (st : state) :
  exists st',
    onAuthStateChanged now None st = Ok st' /\
    currentProfile st' = None /\
    localStorage st' !! guestKey = None /\
    user st' = None.
Proof.
  eexists. split; [reflexivity|].
  cbn. split; [done|]. split; [|done]. apply lookup_delete_eq.
Qed.

End Synchronizer_claims.

Section Authenticated_claims.
Context `{RT : Runtime}.
Variable AVATAR_OPTIONS : list string.

Lemma field_put_eq k v (data : props) : field k (put k v data) = v.
Proof.
  unfold field. induction data as [|[k' v'] data IH]; simpl.
  - by rewrite String.eqb_refl.
  - destruct (String.eqb_spec k k') as [->|Hne]; simpl.
    + by rewrite String.eqb_refl.
    + by rewrite (proj2 (String.eqb_neq k k')).
Qed.

Lemma field_put_ne k k' v (data : props) :
  k <> k' -> field k (put k' v data) = field k data.
Proof.
  intros Hne. unfold field. induction data as [|[k'' v''] data IH]; simpl.
  - by rewrite (proj2 (String.eqb_neq k k')).
  - destruct (String.eqb_spec k' k'') as [->|Hne']; simpl.
    + by rewrite (proj2 (String.eqb_neq k k'')).
    + destruct (String.eqb k k''); [done|apply IH].
Qed.

Lemma toDate_timeField (h : heap) v :
  timeField h v ->
  (nullish v = true /\ toDate v h = Ok (h, VUndefined)) \/
  (exists l t, v = VRef l /\ h !! l = Some (OTimestamp t) /\
               toDate v h = Ok (h ++ [ODate (Some t)], VRef (length h))).
Proof.
  intros [Hn|(l & t & -> & Hl)].
  - left. split; [done|]. by destruct v.
  - right. exists l, t. split; [done|]. split; [done|]. simpl. by rewrite Hl.
Qed.

Lemma profileData_spec now (u : User) (data : props) (h : heap) :
  timeField h (field "createdAt" data) ->
  timeField h (field "startDate" data) ->
  exists h' p c s b,
    profileData now u data h = Ok (h', VRef p) /\
    h `prefix_of` h' /\
    h' !! p = Some (OPlain (projected u data (VRef c) s b)) /\
    (forall l t, field "createdAt" data = VRef l -> h !! l = Some (OTimestamp t) ->
                 h' !! c = Some (ODate (Some t))) /\
    (nullish (field "createdAt" data) = true -> h' !! c = Some (ODate (Some now))) /\
    (forall l t, field "startDate" data = VRef l -> h !! l = Some (OTimestamp t) ->
                 exists d, s = VRef d /\ h' !! d = Some (ODate (Some t))) /\
    (nullish (field "startDate" data) = true -> s = VUndefined) /\
    (nullish (field "blockedUsers" data) = false -> b = field "blockedUsers" data) /\
    (nullish (field "blockedUsers" data) = true ->
       exists a, b = VRef a /\ h' !! a = Some (OArray [])).
Proof.
  intros Hc Hs. unfold profileData.
  destruct (toDate_timeField h _ Hc) as [[Hcn Ec]|(lc & tcr & Evc & Hlc & Ec)];
    rewrite Ec; cbn [mbind outcome_bind truthy alloc].
  all: match goal with |- context [toDate _ (?h0 ++ [?o])] => set (h1 := h0 ++ [o]) end.
  all: assert (timeField h1 (field "startDate" data)) as Hs1
         by (destruct Hs as [Hn|(l & t & Ev & Hl)]; [by left|right];
             exists l, t; split; [done|]; by apply lookup_alloc_old).
  all: destruct (toDate_timeField h1 _ Hs1) as [[Hsn Es]|(ls & ts & Evs & Hls & Es)];
    rewrite Es; cbn [mbind outcome_bind truthy alloc].
  all: destruct (nullish (field "blockedUsers" data)) eqn:Hb; cbn [alloc].
  all: eexists _, _, (length h), _, _.
  all: split; [reflexivity|].
  all: split; [unfold h1; repeat (etrans; [|apply prefix_alloc]); done|].
  all: split; [unfold projected; apply lookup_alloc|].
  all: assert (forall x, h1 !! length h = Some x ->
                 forall ext : heap, (h1 ++ ext) !! length h = Some x) as Hkeep
         by (intros x Hx ext; by apply lookup_app_l_Some).
  all: assert (h1 !! length h = Some (ODate (Some _))) as H1 by apply lookup_alloc.
  all: repeat split.
  all: try (intros l t Ev Hl; rewrite <- ?app_assoc; apply Hkeep;
            rewrite H1; repeat f_equal; congruence).
  all: try (intros Hn; rewrite <- ?app_assoc; by apply Hkeep).
  all: try (intros l t Ev Hl; exfalso; rewrite Ev in *; discriminate).
  all: try (intros Hn; exfalso; rewrite ?Evc, ?Evs in Hn; discriminate).
  all: try done.
  all: try (intros l t Ev Hl; eexists; split; [reflexivity|];
            rewrite <- ?app_assoc;
            first [ apply lookup_alloc
                  | apply lookup_alloc_old, lookup_alloc
                  | apply lookup_alloc_old, lookup_alloc_old, lookup_alloc ]).
  all: try (intros _; eexists; split; [reflexivity|];
            first [ apply lookup_alloc_old, lookup_alloc ]).
  all: intros l t Ev Hl; exists (length h1).
  all: assert (ts = t) as ->
         by (rewrite Evs in Ev; injection Ev as <-;
             assert (h1 !! ls = Some (OTimestamp t))
               by (unfold h1; by apply lookup_alloc_old);
             congruence).
  all: split; [done|].
  all: first [ apply lookup_alloc_old, lookup_alloc
             | apply lookup_alloc_old, lookup_alloc_old, lookup_alloc ].
Qed.

Lemma avatar_pick c rest url :
  AVATAR_OPTIONS !! (nat_of_ascii c mod length AVATAR_OPTIONS) = Some url ->
  avatarIndex AVATAR_OPTIONS (String c rest)
    = Some (nat_of_ascii c mod length AVATAR_OPTIONS) /\
  defaultAvatarUrl AVATAR_OPTIONS (String c rest) = VStr url.
Proof.
  intros Hurl. pose proof (lookup_lt_Some _ _ _ Hurl) as Hlt.
  assert (avatarIndex AVATAR_OPTIONS (String c rest)
          = Some (nat_of_ascii c mod length AVATAR_OPTIONS)) as E.
  { unfold avatarIndex. cbn [charCodeAt0 mbind option_bind].
    destruct (Nat.eqb_spec (length AVATAR_OPTIONS) 0); [lia|done]. }
  split; [done|]. unfold defaultAvatarUrl. by rewrite E, Hurl.
Qed.

(** C8.  For every identity id, of first character [c], and every candidate
    list of length N >= 1, the avatar pick is the candidate at index (code
    of [c]) mod N, and that index is in [0, N).  The pick is a function of
    the id and the list alone. *)
Theorem C8_avatar_pick_in_range (c : ascii) (rest : string) :
  AVATAR_OPTIONS <> [] ->
  exists i url,
    avatarIndex AVATAR_OPTIONS (String c rest) = Some i /\
    i = nat_of_ascii c mod length AVATAR_OPTIONS /\
    i < length AVATAR_OPTIONS /\
    AVATAR_OPTIONS !! i = Some url /\
    defaultAvatarUrl AVATAR_OPTIONS (String c rest) = VStr url.
Proof.
  intros Hne.
  assert (length AVATAR_OPTIONS <> 0) as Hlen by (by destruct AVATAR_OPTIONS).
  pose proof (Nat.mod_upper_bound (nat_of_ascii c) _ Hlen) as Hlt.
  destruct (lookup_lt_is_Some_2 _ _ Hlt) as [url Hurl].
  destruct (avatar_pick c rest url Hurl) as [Ei Eu].
  by exists (nat_of_ascii c mod length AVATAR_OPTIONS), url.
Qed.

(** The subscription callback on an existing record: the state it leaves. *)
Lemma onSnapshot_exists now (u : User) (data : props) (st : state) :
  timeField (mem st) (field "createdAt" data) ->
  timeField (mem st) (field "startDate" data) ->
  let url := defaultAvatarUrl AVATAR_OPTIONS (uid u) in
  let avatar := if truthy (field "photoURL" data)
                then field "photoURL" data else url in
  exists st' p c s b ps,
    onSnapshot AVATAR_OPTIONS now u (Some data) st = Ok st' /\
    userProfile st' = VRef p /\ loading st' = false /\
    localStorage st' = localStorage st /\ console st' = console st /\
    issued st' = (if truthy (field "photoURL" data) then issued st
                  else issued st ++ [UpdateProfile (uid u) url; UpdateDoc (uid u) url]) /\
    mem st `prefix_of` mem st' /\
    mem st' !! p = Some (OPlain ps) /\
    field "photoURL" ps = avatar /\
    (forall k, k <> "photoURL" ->
       field k ps = field k (projected u data (VRef c) s b)) /\
    (forall l t, field "createdAt" data = VRef l ->
                 mem st !! l = Some (OTimestamp t) ->
                 mem st' !! c = Some (ODate (Some t))) /\
    (nullish (field "createdAt" data) = true ->
       mem st' !! c = Some (ODate (Some now))) /\
    (forall l t, field "startDate" data = VRef l ->
                 mem st !! l = Some (OTimestamp t) ->
                 exists d, s = VRef d /\ mem st' !! d = Some (ODate (Some t))) /\
    (nullish (field "startDate" data) = true -> s = VUndefined) /\
    (nullish (field "blockedUsers" data) = false -> b = field "blockedUsers" data) /\
    (nullish (field "blockedUsers" data) = true ->
       exists a, b = VRef a /\ mem st' !! a = Some (OArray [])).
Proof.
  intros Hc Hs. cbv zeta. unfold onSnapshot.
  set (url := defaultAvatarUrl AVATAR_OPTIONS (uid u)).
  destruct (truthy (field "photoURL" data)) eqn:Hphoto.
  - destruct (profileData_spec now u data (mem st) Hc Hs)
      as (h' & p & c & s & b & E & Hp & Hl & H1 & H2 & H3 & H4 & H5 & H6).
    rewrite E. cbn [mbind outcome_bind].
    exists (setLoading false (setUserProfile (VRef p) (setMem h' st))),
      p, c, s, b, (projected u data (VRef c) s b).
    cbn [mem userProfile loading localStorage console issued
         setLoading setUserProfile setMem].
    repeat (split; [done|]). done.
  - set (data' := put "photoURL" url data).
    assert (forall k, k <> "photoURL" -> field k data' = field k data) as Hother
      by (intros k Hk; by apply field_put_ne).
    assert (field "photoURL" data' = url) as Hurl by apply field_put_eq.
    cbn [mem issue].
    destruct (profileData_spec now u data' (mem st))
      as (h' & p & c & s & b & E & Hp & Hl & H1 & H2 & H3 & H4 & H5 & H6).
    { by rewrite Hother. }
    { by rewrite Hother. }
    rewrite E. cbn [mbind outcome_bind].
    rewrite (Hother "createdAt") in H1, H2 by done.
    rewrite (Hother "startDate") in H3, H4 by done.
    rewrite (Hother "blockedUsers") in H5, H6 by done.
    exists (setLoading false
              (setUserProfile (VRef p)
                 (setMem h' (issue (UpdateDoc (uid u) url)
                               (issue (UpdateProfile (uid u) url) st))))),
      p, c, s, b, (projected u data' (VRef c) s b).
    cbn [mem userProfile loading localStorage console issued
         setLoading setUserProfile setMem issue].
    split; [done|]. split; [done|]. split; [done|]. split; [done|].
    split; [done|]. split; [by rewrite <- app_assoc|]. split; [done|].
    split; [done|]. split; [exact Hurl|].
    split.
    { intros k Hk. unfold projected, field. cbn [get].
      fold (field "displayName" data'). fold (field "displayName" data).
      fold (field "email" data'). fold (field "email" data).
      fold (field "photoURL" data'). fold (field "photoURL" data).
      fold (field "isAdmin" data'). fold (field "isAdmin" data).
      fold (field "isMuted" data'). fold (field "isMuted" data).
      fold (field "role" data'). fold (field "role" data).
      fold (field "commitmentDocument" data'). fold (field "commitmentDocument" data).
      fold (field "emergencyIndex" data'). fold (field "emergencyIndex" data).
      fold (field "urgeIndex" data'). fold (field "urgeIndex" data).
      fold (field "storyIndex" data'). fold (field "storyIndex" data).
      rewrite (Hother "displayName"), (Hother "email"), (Hother "isAdmin"),
        (Hother "isMuted"), (Hother "role"), (Hother "commitmentDocument"),
        (Hother "emergencyIndex"), (Hother "urgeIndex"), (Hother "storyIndex")
        by done.
      destruct (String.eqb_spec k "photoURL"); [done|]. reflexivity. }
    exact (conj H1 (conj H2 (conj H3 (conj H4 (conj H5 H6))))).
Qed.

(** C2 (as amended).  For every existing remote record whose [createdAt]
    and [startDate], when supplied, are timestamps, the callback completes
    and the projection it installs has: [uid] from the identity;
    [displayName] and [email] exactly as the record has them, absent
    ([undefined]) when the record has none: no default is substituted;
    [photoURL] verbatim when truthy, the avatar pick otherwise; [isAdmin],
    [isMuted], [role], [commitmentDocument] and the three counters verbatim
    when supplied and their data-model default when absent; [createdAt] the
    instant of the record's timestamp, or now; [startDate] the instant of the
    record's timestamp, or absent; [blockedUsers] the record's array, or a
    fresh empty one. *)
Theorem C2_projection_of_record now (u : User) (data : props) (st : state) :
  timeField (mem st) (field "createdAt" data) ->
  timeField (mem st) (field "startDate" data) ->
  exists st' p ps,
    onSnapshot AVATAR_OPTIONS now u (Some data) st = Ok st' /\
    userProfile st' = VRef p /\ mem st' !! p = Some (OPlain ps) /\
    field "uid" ps = VStr (uid u) /\
    field "displayName" ps = field "displayName" data /\
    field "email" ps = field "email" data /\
    field "photoURL" ps
      = (if truthy (field "photoURL" data) then field "photoURL" data
         else defaultAvatarUrl AVATAR_OPTIONS (uid u)) /\
    (forall k d, (k, d) ∈ fieldDefaults ->
       field k ps = if nullish (field k data) then d else field k data) /\
    (forall l t, field "createdAt" data = VRef l ->
                 mem st !! l = Some (OTimestamp t) ->
       exists c, field "createdAt" ps = VRef c /\
                 mem st' !! c = Some (ODate (Some t))) /\
    (nullish (field "createdAt" data) = true ->
       exists c, field "createdAt" ps = VRef c /\
                 mem st' !! c = Some (ODate (Some now))) /\
    (forall l t, field "startDate" data = VRef l ->
                 mem st !! l = Some (OTimestamp t) ->
       exists d, field "startDate" ps = VRef d /\
                 mem st' !! d = Some (ODate (Some t))) /\
    (nullish (field "startDate" data) = true ->
       field "startDate" ps = VUndefined) /\
    (nullish (field "blockedUsers" data) = false ->
       field "blockedUsers" ps = field "blockedUsers" data) /\
    (nullish (field "blockedUsers" data) = true ->
       exists a, field "blockedUsers" ps = VRef a /\
                 mem st' !! a = Some (OArray [])).
Proof.
  intros Hc Hs.
  destruct (onSnapshot_exists now u data st Hc Hs)
    as (st' & p & c & s & b & ps & E & Hp & _ & _ & _ & _ & _ & Hl & Hphoto
        & Hrest & H1 & H2 & H3 & H4 & H5 & H6).
  exists st', p, ps. split; [done|]. split; [done|]. split; [done|].
  split; [by rewrite Hrest|]. split; [by rewrite Hrest|].
  split; [by rewrite Hrest|]. split; [exact Hphoto|].
  split.
  { intros k d Hin. unfold fieldDefaults in Hin.
    repeat (apply elem_of_cons in Hin as [[= -> ->]|Hin]);
      [..|by apply elem_of_nil in Hin]; by rewrite Hrest. }
  split. { intros l t Ev Hlt. exists c. split; [by rewrite Hrest|by eapply H1]. }
  split. { intros Hn. exists c. split; [by rewrite Hrest|by apply H2]. }
  split. { intros l t Ev Hlt. destruct (H3 l t Ev Hlt) as (d & -> & Hd).
           exists d. split; [by rewrite Hrest|done]. }
  split. { intros Hn. rewrite Hrest by done. by apply H4. }
  split. { intros Hn. rewrite Hrest by done. by apply H5. }
  intros Hn. destruct (H6 Hn) as (a & -> & Ha).
  exists a. split; [by rewrite Hrest|done].
Qed.

(** C6 (as amended).  For an existing remote record with no avatar field
    whose [createdAt] and [startDate], when supplied, are timestamps, under
    an identity whose id starts with [c] and a candidate list that has an
    entry at index (code of [c]) mod N: the
    callback completes, the installed projection's avatar is that candidate,
    and two updates carrying that same value are issued, one to the identity
    provider and one to the remote record; when they are rejected the
    callback only logs: the profile, the loading flag, the store and the
    calls issued stay as they were. *)
Theorem C6_avatar_backfill now (u : User) c rest url (data : props) (st : state) :
  uid u = String c rest ->
  AVATAR_OPTIONS !! (nat_of_ascii c mod length AVATAR_OPTIONS) = Some url ->
  get "photoURL" data = None ->
  timeField (mem st) (field "createdAt" data) ->
  timeField (mem st) (field "startDate" data) ->
  exists st' p ps,
    onSnapshot AVATAR_OPTIONS now u (Some data) st = Ok st' /\
    currentProfile st' = Some (VRef p) /\
    mem st' !! p = Some (OPlain ps) /\
    field "photoURL" ps = VStr url /\
    issued st' = issued st ++ [UpdateProfile (uid u) (VStr url);
                               UpdateDoc (uid u) (VStr url)] /\
    forall s,
      userProfile (avatarUpdateRejected s) = userProfile s /\
      loading (avatarUpdateRejected s) = loading s /\
      mem (avatarUpdateRejected s) = mem s /\
      localStorage (avatarUpdateRejected s) = localStorage s /\
      issued (avatarUpdateRejected s) = issued s /\
      console (avatarUpdateRejected s)
        = console s ++ ["Failed to auto-assign avatar:"].
Proof.
  intros Huid Hurl Hnone Hc Hs.
  destruct (onSnapshot_exists now u data st Hc Hs)
    as (st' & p & c' & s & b & ps & E & Hp & _ & _ & _ & Hiss & _ & Hl & Hphoto & _).
  assert (truthy (field "photoURL" data) = false) as Hfalsy
    by (unfold field; by rewrite Hnone).
  rewrite Hfalsy in Hphoto, Hiss.
  rewrite Huid in Hphoto. rewrite Huid in Hiss at 2 4.
  rewrite (proj2 (avatar_pick c rest url Hurl)) in Hphoto, Hiss.
  exists st', p, ps. split; [done|].
  split; [unfold currentProfile; by rewrite Hp|].
  split; [done|]. split; [done|]. split; [done|]. done.
Qed.

End Authenticated_claims.

(** ** The visited set of the replacer *)

Section Visited.
Context `{RT : Runtime}.

Lemma toJSON_handed (h : heap) l :
  handed h l -> toJSON h (VRef l) = JSame (VRef l).
Proof.
  unfold handed, toJSON.
  destruct (h !! l) as [[[t|]|ms|t|vs|ps|tag ps]|]; try done. by intros ->.
Qed.

(** An object already met is answered with [undefined], whatever it is; an
    object with a [toJSON] never gets that far. *)
Lemma revisit_undefined fuel (h : heap) stack (seen : gset loc) k l :
  l ∈ seen -> handed h l ->
  SerializeJSONProperty (S fuel) h stack seen k (VRef l) = Ok (seen, None).
Proof.
  intros Hin Hnd. cbn [SerializeJSONProperty]. rewrite toJSON_handed by done.
  cbn [jsonReplacer]. by rewrite decide_True.
Qed.

Lemma timestamp_encoded fuel (h : heap) stack (seen : gset loc) k l t j :
  h !! l = Some (OTimestamp t) -> Timestamp_toJSON t = Some j ->
  SerializeJSONProperty (S fuel) h stack seen k (VRef l) = Ok (seen, Some j).
Proof.
  intros Hl Hj. cbn [SerializeJSONProperty]. unfold toJSON. by rewrite Hl, Hj.
Qed.

Lemma date_encoded fuel (h : heap) stack (seen : gset loc) k l t :
  h !! l = Some (ODate (Some t)) ->
  SerializeJSONProperty (S fuel) h stack seen k (VRef l)
  = Ok (seen, Some (JStr (toISOString t))).
Proof. intros Hl. cbn [SerializeJSONProperty]. unfold toJSON. by rewrite Hl. Qed.

Lemma serMembers_undefined (rec : serializer) (seen seen' : gset loc) k v ps :
  rec seen k v = Ok (seen', None) ->
  serMembers rec seen ((k, v) :: ps) = serMembers rec seen' ps.
Proof.
  intros E. cbn [serMembers]. rewrite E. cbn [mbind outcome_bind].
  destruct (serMembers rec seen' ps) as [[s ms]| | |]; done.
Qed.

Lemma serElements_undefined (rec : serializer) (seen seen' : gset loc) i v vs :
  rec seen (index_key i) v = Ok (seen', None) ->
  serElements rec seen i (v :: vs)
  = '(s, js) ← serElements rec seen' (S i) vs; Ok (s, JNull :: js).
Proof. intros E. cbn [serElements]. by rewrite E. Qed.

Lemma serElements_grows rec vs : grows rec ->
  forall i seen seen' js,
    serElements rec seen i vs = Ok (seen', js) -> seen ⊆ seen'.
Proof.
  intros Hrec. induction vs as [|v vs IH]; intros i seen seen' js; simpl.
  - by intros [= <- _].
  - destruct (rec seen (index_key i) v) as [[s1 r]| | |] eqn:E1; try done. simpl.
    destruct (serElements rec s1 (S i) vs) as [[s2 js']| | |] eqn:E2; try done.
    simpl. intros [= <- _]. apply Hrec in E1. apply IH in E2. set_solver.
Qed.

Lemma serMembers_grows rec (ps : props) : grows rec ->
  forall seen seen' ms,
    serMembers rec seen ps = Ok (seen', ms) -> seen ⊆ seen'.
Proof.
  intros Hrec. induction ps as [|[k v] ps IH]; intros seen seen' ms; simpl.
  - by intros [= <- _].
  - destruct (rec seen k v) as [[s1 r]| | |] eqn:E1; try done. simpl.
    destruct (serMembers rec s1 ps) as [[s2 ms']| | |] eqn:E2; try done.
    simpl. intros [= <- _]. apply Hrec in E1. apply IH in E2. set_solver.
Qed.

(** One call of the replacer: the set only grows, and an object that
    reaches it is in the set afterwards. *)
Lemma jsonReplacer_grows (h : heap) (seen : gset loc) k v seen' r :
  jsonReplacer h seen k v = Ok (seen', r) ->
  seen ⊆ seen' /\ (forall l, v = VRef l -> l ∈ seen').
Proof.
  destruct v as [| |b|n|s|l]; simpl; try (intros [= <- _]; split; [done|by intros]).
  destruct (decide (l ∈ seen)) as [Hin|Hin].
  - intros [= <- _]. split; [done|]. by intros ? [= <-].
  - destruct (h !! l) as [[[t|]|ms|t|vs|ps|tag ps]|]; simpl; try done;
      try (intros [= <- _]; split; [set_solver|intros ? [= <-]; set_solver]).
    + destruct (decide (validTime t)); [|done].
      intros [= <- _]. split; [set_solver|intros ? [= <-]; set_solver].
    + destruct (String.eqb tag "Object");
        intros [= <- _]; (split; [set_solver|intros ? [= <-]; set_solver]).
Qed.

Lemma SerializeJSONProperty_grows fuel (h : heap) :
  forall stack, grows (SerializeJSONProperty fuel h stack).
Proof.
  induction fuel as [|fuel IH]; intros stack seen k v seen' r; [done|].
  cbn [SerializeJSONProperty].
  destruct (toJSON h v) as [v'|j]; [|by intros [= <- _]].
  destruct (jsonReplacer h seen k v') as [[s1 rp]| | |] eqn:E; try done.
  apply jsonReplacer_grows in E as [Hs1 _]. cbn [mbind outcome_bind].
  destruct rp as [[| |b|n|s|l]|elems]; try (by intros [= <- _]).
  - destruct (h !! l) as [o|]; [|done].
    destruct (decide (l ∈ stack)); [done|].
    destruct o as [t|ms|t|vs|ps|tag ps]; cbn [ownProps].
    all: match goal with
         | |- context [serElements ?rec ?s ?i ?vs] =>
             destruct (serElements rec s i vs) as [[s2 js]| | |] eqn:E2;
             try done; apply serElements_grows in E2; [|apply IH]
         | |- context [serMembers ?rec ?s ?ps] =>
             destruct (serMembers rec s ps) as [[s2 js]| | |] eqn:E2;
             try done; apply serMembers_grows in E2; [|apply IH]
         end.
    all: cbn [mbind outcome_bind]; intros [= <- _]; set_solver.
  - destruct (serElements _ s1 0 elems) as [[s2 js]| | |] eqn:E2; try done.
    apply serElements_grows in E2; [|apply IH].
    cbn [mbind outcome_bind]. intros [= <- _]. set_solver.
Qed.

Lemma SerializeJSONProperty_visits fuel (h : heap) stack (seen : gset loc) k l seen' r :
  SerializeJSONProperty fuel h stack seen k (VRef l) = Ok (seen', r) ->
  handed h l -> l ∈ seen'.
Proof.
  destruct fuel as [|fuel]; [done|]. intros E Hnd.
  assert (exists s1, l ∈ s1 /\ s1 ⊆ seen') as (s1 & Hin & Hsub); [|set_solver].
  cbn [SerializeJSONProperty] in E.
  pose proof (toJSON_handed h l Hnd) as Ej. rewrite Ej in E.
  destruct (jsonReplacer h seen k (VRef l)) as [[s1 rp]| | |] eqn:E1; try done.
  apply jsonReplacer_grows in E1 as [_ Hin]. exists s1. split; [by apply Hin|].
  cbn [mbind outcome_bind] in E.
  pose proof (SerializeJSONProperty_grows (S fuel) h stack s1 k
                (match rp with RValue v => v | RFresh _ => VNull end)) as Hg.
  clear Hin Ej.
  destruct rp as [[| |b|n|s|l']|elems]; try (by injection E as <- _).
  - destruct (h !! l') as [o'|]; [|done].
    destruct (decide (l' ∈ stack)); [done|].
    destruct o' as [t|ms|t|vs|ps|tag ps]; cbn [ownProps] in E.
    all: match type of E with
         | context [serElements ?rec ?s ?i ?vs] =>
             destruct (serElements rec s i vs) as [[s2 js]| | |] eqn:E2;
             try done; apply serElements_grows in E2;
             [|apply SerializeJSONProperty_grows]
         | context [serMembers ?rec ?s ?ps] =>
             destruct (serMembers rec s ps) as [[s2 js]| | |] eqn:E2;
             try done; apply serMembers_grows in E2;
             [|apply SerializeJSONProperty_grows]
         end.
    all: cbn [mbind outcome_bind] in E; injection E as <- _; done.
  - destruct (serElements _ s1 0 elems) as [[s2 js]| | |] eqn:E2; try done.
    apply serElements_grows in E2; [|apply SerializeJSONProperty_grows].
    cbn [mbind outcome_bind] in E. by injection E as <- _.
Qed.

(** A root that is an array or a record is never dropped. *)
Lemma composite_root fuel (h : heap) stack (seen : gset loc) k l o seen' r :
  SerializeJSONProperty fuel h stack seen k (VRef l) = Ok (seen', r) ->
  h !! l = Some o -> isArray o || String.eqb (toStringTag o) "Object" = true ->
  (forall t, o <> OTimestamp t) -> l ∉ seen ->
  exists j, r = Some j.
Proof.
  destruct fuel as [|fuel]; [done|]. intros E Hl Hc Hts Hin.
  cbn [SerializeJSONProperty] in E. unfold toJSON in E. rewrite Hl in E.
  destruct o as [t|ms|t|vs|ps|tag ps]; try done; try (by destruct (Hts t)).
  all: cbn [jsonReplacer] in E; rewrite decide_False, Hl in E by done.
  all: cbn [isArray toStringTag orb] in E, Hc; rewrite ?Hc in E.
  all: cbn [mbind outcome_bind] in E; rewrite Hl in E.
  all: destruct (decide (l ∈ stack)); [done|]; cbn [ownProps] in E.
  all: match type of E with
       | context [serElements ?rec ?s ?i ?vs] =>
           destruct (serElements rec s i vs) as [[s2 js]| | |]; try done
       | context [serMembers ?rec ?s ?ps] =>
           destruct (serMembers rec s ps) as [[s2 js]| | |]; try done
       end.
  all: cbn [mbind outcome_bind] in E; injection E as _ <-; eauto.
Qed.

(** *** No object is written at two places *)

Lemma follow_prim (h : heap) v p x :
  (forall l, v <> VRef l) -> follow h v p <> Some (VRef x).
Proof.
  intros Hv. destruct p as [|s p]; cbn [follow].
  - intros [= ->]. by destruct (Hv x).
  - by destruct v as [| | | | |l]; [..|destruct (Hv l)].
Qed.

Lemma follow_leaf (h : heap) l p x :
  children <$> h !! l = Some [] -> follow h (VRef l) p = Some (VRef x) ->
  p = [] /\ x = l.
Proof.
  intros Hl. destruct p as [|s p]; cbn [follow]; [by intros [= ->]|].
  destruct (h !! l) as [[t|ms|t|vs|ps|tag ps]|]; try done;
    injection Hl as Hl; cbn [children] in Hl; destruct s as [k|i]; try done.
  - subst ms. by rewrite lookup_nil.
  - subst vs. by rewrite lookup_nil.
  - by destruct ps.
  - by destruct ps.
Qed.

Lemma wrote_None p : ~ wrote None p.
Proof. by intros (j & j' & [=] & _). Qed.

Lemma wrote_default (r : option json) p :
  wrote (Some (default JNull r)) p <-> wrote r p.
Proof.
  destruct r as [j|]; [done|]. cbn [default]. split; [|by intros ?%wrote_None].
  intros (j & j' & [= <-] & Hf & Hn). destruct p; [by injection Hf as <-|done].
Qed.

Lemma wrote_index (js : list json) n p :
  wrote (Some (JArr js)) (Index n :: p) <-> wrote (js !! n) p.
Proof.
  unfold wrote. split.
  - intros (j & j' & [= <-] & Hf & Hn). cbn [jfollow] in Hf.
    destruct (js !! n) as [j0|]; [|done]. by exists j0, j'.
  - intros (j & j' & Hj & Hf & Hn). eexists _, j'. split; [done|].
    cbn [jfollow]. rewrite Hj. by cbn [mbind option_bind].
Qed.

Lemma wrote_key (ms : list (string * json)) k p :
  wrote (Some (JObj ms)) (Key k :: p) <-> wrote (jget k ms) p.
Proof.
  unfold wrote. split.
  - intros (j & j' & [= <-] & Hf & Hn). cbn [jfollow] in Hf.
    destruct (jget k ms) as [j0|]; [|done]. by exists j0, j'.
  - intros (j & j' & Hj & Hf & Hn). eexists _, j'. split; [done|].
    cbn [jfollow]. rewrite Hj. by cbn [mbind option_bind].
Qed.

Lemma serMembers_keys (rec : serializer) (ps : props) : forall seen seen' ms,
  serMembers rec seen ps = Ok (seen', ms) ->
  forall k, k ∈ ms.*1 -> k ∈ ps.*1.
Proof.
  induction ps as [|[k v] ps IH]; intros seen seen' ms E k' Hin; cbn [serMembers] in E.
  - injection E as _ <-. by apply elem_of_nil in Hin.
  - destruct (rec seen k v) as [[s r]| | |]; cbn [mbind outcome_bind] in E; try done.
    destruct (serMembers rec s ps) as [[s1 ms1]| | |] eqn:E1;
      cbn [mbind outcome_bind] in E; try done.
    injection E as _ <-. cbn [fmap list_fmap fst].
    destruct r as [j|].
    + cbn in Hin. apply elem_of_cons in Hin as [->|Hin]; [left|right].
      by eapply IH.
    + right. by eapply IH.
Qed.

Lemma jget_None k (ms : list (string * json)) : k ∉ ms.*1 -> jget k ms = None.
Proof.
  induction ms as [|[k' j] ms IH]; cbn [jget fmap list_fmap fst]; [done|].
  intros Hk. apply not_elem_of_cons in Hk as [Hne Hk].
  by rewrite (proj2 (String.eqb_neq k k')), IH.
Qed.

Lemma serElements_cuts (h : heap) rec vs : cuts h rec -> grows rec ->
  forall i seen seen' js, serElements rec seen i vs = Ok (seen', js) ->
    (forall n v p x, vs !! n = Some v -> follow h v p = Some (VRef x) ->
       handed h x -> x ∈ seen -> ~ wrote (js !! n) p) /\
    (forall n v p x, vs !! n = Some v -> follow h v p = Some (VRef x) ->
       handed h x -> wrote (js !! n) p -> x ∈ seen') /\
    (forall n1 v1 p1 n2 v2 p2 x, (n1, p1) <> (n2, p2) ->
       vs !! n1 = Some v1 -> vs !! n2 = Some v2 ->
       follow h v1 p1 = Some (VRef x) -> follow h v2 p2 = Some (VRef x) ->
       handed h x -> ~ (wrote (js !! n1) p1 /\ wrote (js !! n2) p2)).
Proof.
  intros Hcuts Hgrows. induction vs as [|v0 vs IH]; intros i seen seen' js E.
  { split; [|split]; intros; by rewrite lookup_nil in *. }
  cbn [serElements] in E.
  destruct (rec seen (index_key i) v0) as [[s1 r0]| | |] eqn:E0;
    cbn [mbind outcome_bind] in E; try done.
  destruct (serElements rec s1 (S i) vs) as [[s2 js']| | |] eqn:E1;
    cbn [mbind outcome_bind] in E; try done.
  injection E as <- <-.
  destruct (Hcuts _ _ _ _ _ E0) as (A0 & B0 & C0).
  destruct (IH _ _ _ _ E1) as (A1 & B1 & C1).
  pose proof (Hgrows _ _ _ _ _ E0) as Hs1.
  pose proof (serElements_grows _ _ Hgrows _ _ _ _ E1) as Hs2.
  split; [|split].
  - intros [|n] v p x Hv Hf Hx Hin; cbn [lookup list_lookup] in *.
    + injection Hv as <-. rewrite wrote_default. by eapply A0.
    + eapply A1; eauto.
  - intros [|n] v p x Hv Hf Hx Hw; cbn [lookup list_lookup] in *.
    + injection Hv as <-. rewrite wrote_default in Hw. apply Hs2. by eapply B0.
    + eapply B1; eauto.
  - intros [|n1] v1 p1 [|n2] v2 p2 x Hne Hv1 Hv2 Hf1 Hf2 Hx [Hw1 Hw2];
      cbn [lookup list_lookup] in *.
    + injection Hv1 as <-. injection Hv2 as <-. rewrite wrote_default in Hw1, Hw2.
      apply (C0 p1 p2 x); [congruence|done..].
    + injection Hv1 as <-. rewrite wrote_default in Hw1.
      apply (A1 n2 v2 p2 x); [done..| |done]. by eapply B0.
    + injection Hv2 as <-. rewrite wrote_default in Hw2.
      apply (A1 n1 v1 p1 x); [done..| |done]. by eapply B0.
    + apply (C1 n1 v1 p1 n2 v2 p2 x); [congruence|done..].
Qed.

Lemma serMembers_cuts (h : heap) rec (ps : props) : cuts h rec -> grows rec ->
  NoDup ps.*1 ->
  forall seen seen' ms, serMembers rec seen ps = Ok (seen', ms) ->
    (forall k v p x, get k ps = Some v -> follow h v p = Some (VRef x) ->
       handed h x -> x ∈ seen -> ~ wrote (jget k ms) p) /\
    (forall k v p x, get k ps = Some v -> follow h v p = Some (VRef x) ->
       handed h x -> wrote (jget k ms) p -> x ∈ seen') /\
    (forall k1 v1 p1 k2 v2 p2 x, (k1, p1) <> (k2, p2) ->
       get k1 ps = Some v1 -> get k2 ps = Some v2 ->
       follow h v1 p1 = Some (VRef x) -> follow h v2 p2 = Some (VRef x) ->
       handed h x -> ~ (wrote (jget k1 ms) p1 /\ wrote (jget k2 ms) p2)).
Proof.
  intros Hcuts Hgrows. induction ps as [|[k0 v0] ps IH]; intros Hnd seen seen' ms E.
  { split; [|split]; intros; done. }
  cbn [fmap list_fmap fst] in Hnd. apply NoDup_cons in Hnd as [Hk0 Hnd].
  cbn [serMembers] in E.
  destruct (rec seen k0 v0) as [[s1 r0]| | |] eqn:E0;
    cbn [mbind outcome_bind] in E; try done.
  destruct (serMembers rec s1 ps) as [[s2 ms']| | |] eqn:E1;
    cbn [mbind outcome_bind] in E; try done.
  injection E as <- <-.
  destruct (Hcuts _ _ _ _ _ E0) as (A0 & B0 & C0).
  destruct (IH Hnd _ _ _ E1) as (A1 & B1 & C1).
  pose proof (Hgrows _ _ _ _ _ E0) as Hs1.
  pose proof (serMembers_grows _ _ Hgrows _ _ _ E1) as Hs2.
  set (ms := match r0 with Some j => (k0, j) :: ms' | None => ms' end).
  assert (jget k0 ms = r0) as F0.
  { unfold ms. destruct r0 as [j|]; cbn [jget]; [by rewrite String.eqb_refl|].
    apply jget_None. intros Hin. apply Hk0. by eapply serMembers_keys. }
  assert (forall k, k <> k0 -> jget k ms = jget k ms') as F1.
  { intros k Hk. unfold ms. destruct r0 as [j|]; cbn [jget]; [|done].
    by rewrite (proj2 (String.eqb_neq k k0)). }
  assert (forall k v, get k ((k0, v0) :: ps) = Some v ->
            (k = k0 /\ v = v0) \/ (k <> k0 /\ get k ps = Some v)) as G.
  { intros k v. cbn [get]. destruct (String.eqb_spec k k0) as [->|Hne].
    - intros [= ->]. by left.
    - intros Hg. by right. }
  split; [|split].
  - intros k v p x Hv Hf Hx Hin.
    destruct (G _ _ Hv) as [[-> ->]|[Hne Hg]].
    + rewrite F0. by eapply A0.
    + rewrite F1 by done. eapply A1; eauto.
  - intros k v p x Hv Hf Hx Hw.
    destruct (G _ _ Hv) as [[-> ->]|[Hne Hg]].
    + rewrite F0 in Hw. apply Hs2. by eapply B0.
    + rewrite F1 in Hw by done. eapply B1; eauto.
  - intros k1 v1 p1 k2 v2 p2 x Hne Hv1 Hv2 Hf1 Hf2 Hx [Hw1 Hw2].
    destruct (G _ _ Hv1) as [[-> ->]|[Hne1 Hg1]],
             (G _ _ Hv2) as [[-> ->]|[Hne2 Hg2]].
    + rewrite F0 in Hw1, Hw2. apply (C0 p1 p2 x); [congruence|done..].
    + rewrite F0 in Hw1. rewrite F1 in Hw2 by done.
      apply (A1 k2 v2 p2 x); [done..| |done]. by eapply B0.
    + rewrite F0 in Hw2. rewrite F1 in Hw1 by done.
      apply (A1 k1 v1 p1 x); [done..| |done]. by eapply B0.
    + rewrite F1 in Hw1, Hw2 by done.
      apply (C1 k1 v1 p1 k2 v2 p2 x); done.
Qed.

(** What an array or a set met for the first time comes to, given what its
    elements come to. *)
Lemma elements_cut (h : heap) l (vs : list value) (seen seen' : gset loc)
    (js : list json) :
  (forall p, follow h (VRef l) p
             = match p with
               | [] => Some (VRef l)
               | Index n :: p' => v ← vs !! n; follow h v p'
               | _ => None
               end) ->
  l ∉ seen -> {[l]} ∪ seen ⊆ seen' ->
  (forall n v p x, vs !! n = Some v -> follow h v p = Some (VRef x) ->
     handed h x -> x ∈ {[l]} ∪ seen -> ~ wrote (js !! n) p) ->
  (forall n v p x, vs !! n = Some v -> follow h v p = Some (VRef x) ->
     handed h x -> wrote (js !! n) p -> x ∈ seen') ->
  (forall n1 v1 p1 n2 v2 p2 x, (n1, p1) <> (n2, p2) ->
     vs !! n1 = Some v1 -> vs !! n2 = Some v2 ->
     follow h v1 p1 = Some (VRef x) -> follow h v2 p2 = Some (VRef x) ->
     handed h x -> ~ (wrote (js !! n1) p1 /\ wrote (js !! n2) p2)) ->
  (forall p x, follow h (VRef l) p = Some (VRef x) -> handed h x -> x ∈ seen ->
     ~ wrote (Some (JArr js)) p) /\
  (forall p x, follow h (VRef l) p = Some (VRef x) -> handed h x ->
     wrote (Some (JArr js)) p -> x ∈ seen') /\
  (forall p q x, p <> q ->
     follow h (VRef l) p = Some (VRef x) -> follow h (VRef l) q = Some (VRef x) ->
     handed h x -> ~ (wrote (Some (JArr js)) p /\ wrote (Some (JArr js)) q)).
Proof.
  intros Hf Hl Hsub A1 B1 C1.
  assert (forall p x, follow h (VRef l) p = Some (VRef x) ->
            (p = [] /\ x = l) \/
            exists n p' v, p = Index n :: p' /\ vs !! n = Some v /\
                           follow h v p' = Some (VRef x)) as Hp.
  { intros p x. rewrite Hf. destruct p as [|[k|n] p']; [by intros [= ->]; left|done|].
    destruct (vs !! n) as [v|] eqn:Hv; [|done]. cbn [mbind option_bind].
    intros Hx. right. by exists n, p', v. }
  split; [|split].
  - intros p x Hx Hh Hin.
    destruct (Hp _ _ Hx) as [[-> ->]|(n & p' & v & -> & Hv & Hx')]; [done|].
    rewrite wrote_index. eapply A1; eauto. set_solver.
  - intros p x Hx Hh Hw.
    destruct (Hp _ _ Hx) as [[-> ->]|(n & p' & v & -> & Hv & Hx')]; [set_solver|].
    rewrite wrote_index in Hw. eapply B1; eauto.
  - intros p q x Hne Hxp Hxq Hh [Hwp Hwq].
    destruct (Hp _ _ Hxp) as [[-> ->]|(n1 & p1 & v1 & -> & Hv1 & Hx1)],
             (Hp _ _ Hxq) as [[-> Hq]|(n2 & p2 & v2 & -> & Hv2 & Hx2)].
    + done.
    + rewrite wrote_index in Hwq. apply (A1 n2 v2 p2 l); [done..|set_solver|done].
    + subst x. rewrite wrote_index in Hwp.
      apply (A1 n1 v1 p1 l); [done..|set_solver|done].
    + rewrite wrote_index in Hwp, Hwq.
      apply (C1 n1 v1 p1 n2 v2 p2 x); [congruence|done..].
Qed.

Lemma members_cut (h : heap) l (ps : props) (seen seen' : gset loc)
    (ms : list (string * json)) :
  (forall p, follow h (VRef l) p
             = match p with
               | [] => Some (VRef l)
               | Key k :: p' => v ← get k ps; follow h v p'
               | _ => None
               end) ->
  l ∉ seen -> {[l]} ∪ seen ⊆ seen' ->
  (forall k v p x, get k ps = Some v -> follow h v p = Some (VRef x) ->
     handed h x -> x ∈ {[l]} ∪ seen -> ~ wrote (jget k ms) p) ->
  (forall k v p x, get k ps = Some v -> follow h v p = Some (VRef x) ->
     handed h x -> wrote (jget k ms) p -> x ∈ seen') ->
  (forall k1 v1 p1 k2 v2 p2 x, (k1, p1) <> (k2, p2) ->
     get k1 ps = Some v1 -> get k2 ps = Some v2 ->
     follow h v1 p1 = Some (VRef x) -> follow h v2 p2 = Some (VRef x) ->
     handed h x -> ~ (wrote (jget k1 ms) p1 /\ wrote (jget k2 ms) p2)) ->
  (forall p x, follow h (VRef l) p = Some (VRef x) -> handed h x -> x ∈ seen ->
     ~ wrote (Some (JObj ms)) p) /\
  (forall p x, follow h (VRef l) p = Some (VRef x) -> handed h x ->
     wrote (Some (JObj ms)) p -> x ∈ seen') /\
  (forall p q x, p <> q ->
     follow h (VRef l) p = Some (VRef x) -> follow h (VRef l) q = Some (VRef x) ->
     handed h x -> ~ (wrote (Some (JObj ms)) p /\ wrote (Some (JObj ms)) q)).
Proof.
  intros Hf Hl Hsub A1 B1 C1.
  assert (forall p x, follow h (VRef l) p = Some (VRef x) ->
            (p = [] /\ x = l) \/
            exists k p' v, p = Key k :: p' /\ get k ps = Some v /\
                           follow h v p' = Some (VRef x)) as Hp.
  { intros p x. rewrite Hf. destruct p as [|[k|n] p']; [by intros [= ->]; left| |done].
    destruct (get k ps) as [v|] eqn:Hv; [|done]. cbn [mbind option_bind].
    intros Hx. right. by exists k, p', v. }
  split; [|split].
  - intros p x Hx Hh Hin.
    destruct (Hp _ _ Hx) as [[-> ->]|(k & p' & v & -> & Hv & Hx')]; [done|].
    rewrite wrote_key. eapply A1; eauto. set_solver.
  - intros p x Hx Hh Hw.
    destruct (Hp _ _ Hx) as [[-> ->]|(k & p' & v & -> & Hv & Hx')]; [set_solver|].
    rewrite wrote_key in Hw. eapply B1; eauto.
  - intros p q x Hne Hxp Hxq Hh [Hwp Hwq].
    destruct (Hp _ _ Hxp) as [[-> ->]|(k1 & p1 & v1 & -> & Hv1 & Hx1)],
             (Hp _ _ Hxq) as [[-> Hq]|(k2 & p2 & v2 & -> & Hv2 & Hx2)].
    + done.
    + rewrite wrote_key in Hwq. apply (A1 k2 v2 p2 l); [done..|set_solver|done].
    + subst x. rewrite wrote_key in Hwp.
      apply (A1 k1 v1 p1 l); [done..|set_solver|done].
    + rewrite wrote_key in Hwp, Hwq.
      apply (C1 k1 v1 p1 k2 v2 p2 x); [congruence|done..].
Qed.

(** What a value without parts comes to. *)
Lemma leaf_cut (h : heap) v (seen seen' : gset loc) r :
  (forall p x, follow h v p = Some (VRef x) -> handed h x ->
               p = [] /\ x ∉ seen /\ x ∈ seen') ->
  (forall p x, follow h v p = Some (VRef x) -> handed h x -> x ∈ seen ->
     ~ wrote r p) /\
  (forall p x, follow h v p = Some (VRef x) -> handed h x -> wrote r p -> x ∈ seen') /\
  (forall p q x, p <> q ->
     follow h v p = Some (VRef x) -> follow h v q = Some (VRef x) ->
     handed h x -> ~ (wrote r p /\ wrote r q)).
Proof.
  intros H. split; [|split].
  - intros p x Hx Hh Hin. by destruct (H p x Hx Hh) as (_ & ? & _).
  - intros p x Hx Hh _. by destruct (H p x Hx Hh) as (_ & _ & ?).
  - intros p q x Hne Hp Hq Hh _.
    destruct (H p x Hp Hh) as (-> & _), (H q x Hq Hh) as (-> & _). done.
Qed.

Lemma none_cut (h : heap) v (seen seen' : gset loc) :
  (forall p x, follow h v p = Some (VRef x) -> handed h x -> x ∈ seen ->
     ~ wrote None p) /\
  (forall p x, follow h v p = Some (VRef x) -> handed h x -> wrote None p ->
     x ∈ seen') /\
  (forall p q x, p <> q ->
     follow h v p = Some (VRef x) -> follow h v q = Some (VRef x) ->
     handed h x -> ~ (wrote None p /\ wrote None q)).
Proof.
  split; [|split].
  - intros. apply wrote_None.
  - intros p x _ _ Hw. by apply wrote_None in Hw.
  - intros p q x _ _ _ _ [Hw _]. by apply wrote_None in Hw.
Qed.

Lemma SerializeJSONProperty_cuts fuel (h : heap) :
  named h -> forall stack, cuts h (SerializeJSONProperty fuel h stack).
Proof.
  intros Hnamed. induction fuel as [|fuel IH]; intros stack seen k v seen' r E; [done|].
  cbn [SerializeJSONProperty] in E.
  assert (forall w, (forall l, w <> VRef l) ->
            forall p x, follow h w p = Some (VRef x) -> handed h x ->
                        p = [] /\ x ∉ seen /\ x ∈ seen') as Hprim.
  { intros w Hw p x Hx. by destruct (follow_prim h w p x Hw). }
  destruct v as [| |b|n|s|l].
  1-5: cbn [toJSON jsonReplacer mbind outcome_bind] in E; injection E as <- <-;
       by apply leaf_cut, Hprim.
  unfold toJSON in E. destruct (h !! l) as [o|] eqn:Hl.
  2: { cbn [jsonReplacer] in E. destruct (decide (l ∈ seen)); [|by rewrite Hl in E].
       cbn [mbind outcome_bind] in E. injection E as <- <-. apply none_cut. }
  assert (forall p x, children o = [] -> follow h (VRef l) p = Some (VRef x) ->
            p = [] /\ x = l) as Hleaf.
  { intros p x Ho. apply follow_leaf. by rewrite Hl, <- Ho. }
  destruct o as [[t|]|ms|t|vs|ps|tag ps].
  - (* a Date *)
    cbn [jsonReplacer mbind outcome_bind] in E. injection E as <- <-.
    apply leaf_cut. intros p x Hx Hh. destruct (Hleaf p x eq_refl Hx) as [-> ->].
    unfold handed in Hh. by rewrite Hl in Hh.
  - cbn [jsonReplacer mbind outcome_bind] in E. injection E as <- <-.
    apply leaf_cut. intros p x Hx Hh. destruct (Hleaf p x eq_refl Hx) as [-> ->].
    unfold handed in Hh. by rewrite Hl in Hh.
  - (* a Set *)
    cbn [jsonReplacer] in E. destruct (decide (l ∈ seen)) as [Hin|Hin].
    { cbn [mbind outcome_bind] in E. injection E as <- <-. apply none_cut. }
    rewrite Hl in E. cbn [mbind outcome_bind] in E.
    destruct (serElements _ _ 0 ms) as [[s2 js]| | |] eqn:E1;
      cbn [mbind outcome_bind] in E; try done.
    injection E as <- <-.
    destruct (serElements_cuts h _ ms (IH stack) (SerializeJSONProperty_grows _ _ _)
                _ _ _ _ E1) as (A1 & B1 & C1).
    apply (elements_cut h l ms seen s2 js); try done.
    + intros p. destruct p as [|[k'|i'] p']; cbn [follow]; by rewrite ?Hl.
    + eapply serElements_grows; [apply SerializeJSONProperty_grows|done].
  - (* a timestamp *)
    destruct (Timestamp_toJSON t) as [j|] eqn:Ej.
    { injection E as <- <-. apply leaf_cut. intros p x Hx Hh.
      destruct (Hleaf p x eq_refl Hx) as [-> ->].
      unfold handed in Hh. rewrite Hl in Hh. congruence. }
    cbn [jsonReplacer] in E. destruct (decide (l ∈ seen)) as [Hin|Hin].
    { cbn [mbind outcome_bind] in E. injection E as <- <-. apply none_cut. }
    rewrite Hl in E. destruct (decide (validTime t)); [|done].
    cbn [mbind outcome_bind] in E. injection E as <- <-.
    apply leaf_cut. intros p x Hx Hh. destruct (Hleaf p x eq_refl Hx) as [-> ->].
    split; [done|]. split; [done|set_solver].
  - (* an array *)
    cbn [jsonReplacer] in E. destruct (decide (l ∈ seen)) as [Hin|Hin].
    { cbn [mbind outcome_bind] in E. injection E as <- <-. apply none_cut. }
    rewrite Hl in E. cbn [isArray orb mbind outcome_bind] in E. rewrite Hl in E.
    destruct (decide (l ∈ stack)); [done|].
    destruct (serElements _ _ 0 vs) as [[s2 js]| | |] eqn:E1;
      cbn [mbind outcome_bind] in E; try done.
    injection E as <- <-.
    destruct (serElements_cuts h _ vs (IH (l :: stack))
                (SerializeJSONProperty_grows _ _ _) _ _ _ _ E1) as (A1 & B1 & C1).
    apply (elements_cut h l vs seen s2 js); try done.
    + intros p. destruct p as [|[k'|i'] p']; cbn [follow]; by rewrite ?Hl.
    + eapply serElements_grows; [apply SerializeJSONProperty_grows|done].
  - (* a plain record *)
    cbn [jsonReplacer] in E. destruct (decide (l ∈ seen)) as [Hin|Hin].
    { cbn [mbind outcome_bind] in E. injection E as <- <-. apply none_cut. }
    rewrite Hl in E.
    cbn [isArray toStringTag orb String.eqb Ascii.eqb Bool.eqb andb
         mbind outcome_bind] in E.
    rewrite Hl in E. destruct (decide (l ∈ stack)); [done|]. cbn [ownProps] in E.
    destruct (serMembers _ _ ps) as [[s2 ms]| | |] eqn:E1;
      cbn [mbind outcome_bind] in E; try done.
    injection E as <- <-.
    destruct (serMembers_cuts h _ ps (IH (l :: stack))
                (SerializeJSONProperty_grows _ _ _) (Hnamed l _ Hl) _ _ _ E1)
      as (A1 & B1 & C1).
    apply (members_cut h l ps seen s2 ms); try done.
    + intros p. destruct p as [|[k'|i'] p']; cbn [follow]; by rewrite ?Hl.
    + eapply serMembers_grows; [apply SerializeJSONProperty_grows|done].
  - (* an instance of a class *)
    cbn [jsonReplacer] in E. destruct (decide (l ∈ seen)) as [Hin|Hin].
    { cbn [mbind outcome_bind] in E. injection E as <- <-. apply none_cut. }
    rewrite Hl in E. cbn [isArray toStringTag orb] in E.
    destruct (String.eqb tag "Object").
    2: { cbn [mbind outcome_bind] in E. injection E as <- <-. apply none_cut. }
    cbn [mbind outcome_bind] in E.
    rewrite Hl in E. destruct (decide (l ∈ stack)); [done|]. cbn [ownProps] in E.
    destruct (serMembers _ _ ps) as [[s2 ms]| | |] eqn:E1;
      cbn [mbind outcome_bind] in E; try done.
    injection E as <- <-.
    destruct (serMembers_cuts h _ ps (IH (l :: stack))
                (SerializeJSONProperty_grows _ _ _) (Hnamed l _ Hl) _ _ _ E1)
      as (A1 & B1 & C1).
    apply (members_cut h l ps seen s2 ms); try done.
    + intros p. destruct p as [|[k'|i'] p']; cbn [follow]; by rewrite ?Hl.
    + eapply serMembers_grows; [apply SerializeJSONProperty_grows|done].
Qed.

End Visited.

Section Cycle_claims.
Context `{RT : Runtime}.

Lemma budget_empty (h : heap) : budget h ∅ = length h.
Proof.
  unfold budget. rewrite difference_empty_L. apply size_set_seq.
Qed.

Lemma stringify_settles (h : heap) v :
  closed h -> valid h v ->
  (exists seen' r,
     SerializeJSONProperty (S (length h)) h [] ∅ EmptyString v = Ok (seen', r)) \/
  SerializeJSONProperty (S (length h)) h [] ∅ EmptyString v = Throw RangeError.
Proof.
  intros Hcl Hv.
  destruct (SerializeJSONProperty_returns (S (length h)) h Hcl [] ∅ EmptyString v)
    as [(seen' & r & E & _)|E]; [done|set_solver|rewrite budget_empty; lia| |];
    [left; eauto|by right].
Qed.

Lemma stringify_returns (h : heap) v :
  closed h -> dated h -> valid h v ->
  exists seen' r,
    SerializeJSONProperty (S (length h)) h [] ∅ EmptyString v = Ok (seen', r).
Proof.
  intros Hcl Hd Hv.
  destruct (SerializeJSONProperty_total (S (length h)) h Hcl Hd [] ∅ EmptyString v)
    as (seen' & r & E & _); [done|set_solver|rewrite budget_empty; lia|eauto].
Qed.

Lemma timestamp_out_of_range fuel (h : heap) stack (seen : gset loc) k l t :
  h !! l = Some (OTimestamp t) -> Timestamp_toJSON t = None -> ~ validTime t ->
  l ∉ seen ->
  SerializeJSONProperty (S fuel) h stack seen k (VRef l) = Throw RangeError.
Proof.
  intros Hl Hj Ht Hin. cbn [SerializeJSONProperty]. unfold toJSON. rewrite Hl, Hj.
  cbn [jsonReplacer]. rewrite decide_False, Hl by done. by rewrite decide_False.
Qed.

(** C3 (as amended).  In a heap without dangling references, whatever the
    cycles: encoding any value terminates, and it either returns or throws
    the [RangeError] of a timestamp whose instant is out of range, which the
    replacer's [toDate().toISOString()] raises; the cycle check of
    [JSON.stringify] never fires.  When no timestamp handed to the replacer
    is out of range, encoding returns, and what it returns is a valid text,
    or [undefined] when the root itself is dropped; for a root that is an
    array or a plain record it is a text.  A reference back to an object
    under serialization (one on the stack: a cycle of any length) is
    answered with [undefined], not with an error; such an occurrence is left
    out when it is a property of a record and is written as [null] when it
    is an element of an array. *)
Theorem C3_cycles_are_cut (h : heap) :
  closed h ->
  (forall v, valid h v ->
     (exists r, JSON_stringify h v = Ok r /\
                forall text, r = Some text -> is_Some (JSON_syntax text)) \/
     JSON_stringify h v = Throw RangeError) /\
  (dated h ->
     (forall v, valid h v ->
        exists r, JSON_stringify h v = Ok r /\
                  forall text, r = Some text -> is_Some (JSON_syntax text)) /\
     (forall l o, h !! l = Some o -> (isArray o = true \/ exists ps, o = OPlain ps) ->
        exists j, JSON_stringify h (VRef l) = Ok (Some (JSON_text j)) /\
                  JSON_syntax (JSON_text j) = Some j)) /\
  (forall fuel stack seen k l t,
     h !! l = Some (OTimestamp t) -> Timestamp_toJSON t = None -> ~ validTime t ->
     l ∉ seen ->
     SerializeJSONProperty (S fuel) h stack seen k (VRef l) = Throw RangeError) /\
  (forall fuel stack seen k l,
     l ∈ stack -> (forall x, x ∈ stack -> x ∈ seen) -> handed h l ->
     SerializeJSONProperty (S fuel) h stack seen k (VRef l) = Ok (seen, None)) /\
  (forall (rec : serializer) seen seen' k v ps,
     rec seen k v = Ok (seen', None) ->
     serMembers rec seen ((k, v) :: ps) = serMembers rec seen' ps) /\
  (forall (rec : serializer) seen seen' i v vs,
     rec seen (index_key i) v = Ok (seen', None) ->
     serElements rec seen i (v :: vs)
     = '(s, js) ← serElements rec seen' (S i) vs; Ok (s, JNull :: js)).
Proof.
  intros Hcl.
  assert (forall r : option json,
            exists r', @Ok (option string) (option_map JSON_text r) = Ok r' /\
                       forall text, r' = Some text -> is_Some (JSON_syntax text))
    as Htext.
  { intros r. exists (option_map JSON_text r). split; [done|].
    intros text Ht. destruct r as [j|]; [|done].
    injection Ht as <-. rewrite JSON_syntax_text. eauto. }
  split; [|split; [|split; [|split; [|split]]]].
  - intros v Hv. unfold JSON_stringify.
    destruct (stringify_settles h v Hcl Hv) as [(seen' & r & ->)| ->]; [left|by right].
    by apply Htext.
  - intros Hd. split.
    + intros v Hv. unfold JSON_stringify.
      destruct (stringify_returns h v Hcl Hd Hv) as (seen' & r & ->). by apply Htext.
    + intros l o Hl Hc.
      destruct (stringify_returns h (VRef l) Hcl Hd) as (seen' & r & E);
        [by eapply lookup_lt_Some|].
      destruct (composite_root _ _ _ _ _ _ _ _ _ E Hl) as [j ->].
      * destruct Hc as [->|[ps ->]]; [done|]. by destruct (isArray _).
      * intros t ->. by destruct Hc as [?|[? ?]].
      * set_solver.
      * exists j. unfold JSON_stringify. rewrite E.
        split; [done|apply JSON_syntax_text].
  - intros fuel stack seen k l t Hl Hj Ht Hin. by apply (timestamp_out_of_range _ _ _ _ _ _ t).
  - intros fuel stack seen k l Hin Hst Hnd. apply revisit_undefined; auto.
  - apply serMembers_undefined.
  - apply serElements_undefined.
Qed.

(** C10 (as amended).  Within one encode call the visited set is never
    cleared (it only grows), and every object handed to the replacer is in
    it afterwards: an array, a record, a set, an instance of a class, and a
    timestamp when its class has no [toJSON].  An occurrence of such an
    object that is already in the set is answered with [undefined], cycle or
    not.  Hence, when the same such object occurs at several places of the
    input, the output has it written at one place at most: at the others
    there is nothing (a property left out of its record) or [null] (an
    element of an array); and the text that is returned, read as a document,
    has it so.  An object with a [toJSON] is never added by being met: the
    replacer sees what [toJSON] returned, so every occurrence of the same
    [Date], and of the same timestamp when its class has a [toJSON], is
    encoded. *)
Theorem C10_visited_set (h : heap) :
  (forall fuel stack seen k v seen' r,
     SerializeJSONProperty fuel h stack seen k v = Ok (seen', r) ->
     seen ⊆ seen' /\
     forall l, v = VRef l -> handed h l -> l ∈ seen') /\
  (forall fuel stack seen k l,
     l ∈ seen -> handed h l ->
     SerializeJSONProperty (S fuel) h stack seen k (VRef l) = Ok (seen, None)) /\
  (named h ->
   forall fuel stack seen k v seen' r,
     SerializeJSONProperty fuel h stack seen k v = Ok (seen', r) ->
     (forall p x, follow h v p = Some (VRef x) -> handed h x -> x ∈ seen ->
                  ~ wrote r p) /\
     (forall p x, follow h v p = Some (VRef x) -> handed h x -> wrote r p ->
                  x ∈ seen') /\
     (forall p q x, p <> q ->
        follow h v p = Some (VRef x) -> follow h v q = Some (VRef x) ->
        handed h x -> ~ (wrote r p /\ wrote r q))) /\
  (named h ->
   forall v text j p q x,
     JSON_stringify h v = Ok (Some text) -> JSON_syntax text = Some j ->
     p <> q -> follow h v p = Some (VRef x) -> follow h v q = Some (VRef x) ->
     handed h x ->
     ~ (wrote (Some j) p /\ wrote (Some j) q)) /\
  (forall fuel stack seen k l t,
     h !! l = Some (ODate (Some t)) ->
     SerializeJSONProperty (S fuel) h stack seen k (VRef l)
     = Ok (seen, Some (JStr (toISOString t)))) /\
  (forall fuel stack seen k l t j,
     h !! l = Some (OTimestamp t) -> Timestamp_toJSON t = Some j ->
     SerializeJSONProperty (S fuel) h stack seen k (VRef l) = Ok (seen, Some j)) /\
  (forall (rec : serializer) seen seen' k v ps,
     rec seen k v = Ok (seen', None) ->
     serMembers rec seen ((k, v) :: ps) = serMembers rec seen' ps) /\
  (forall (rec : serializer) seen seen' i v vs,
     rec seen (index_key i) v = Ok (seen', None) ->
     serElements rec seen i (v :: vs)
     = '(s, js) ← serElements rec seen' (S i) vs; Ok (s, JNull :: js)).
Proof.
  split; [|split; [|split; [|split; [|split; [|split; [|split]]]]]].
  - intros fuel stack seen k v seen' r E. split.
    + by eapply SerializeJSONProperty_grows.
    + intros l -> Hl. by eapply SerializeJSONProperty_visits.
  - intros. by apply revisit_undefined.
  - intros Hn fuel stack seen k v seen' r E.
    by apply (SerializeJSONProperty_cuts fuel h Hn stack seen k v).
  - intros Hn v text j p q x E Hj Hne Hp Hq Hx. unfold JSON_stringify in E.
    destruct (SerializeJSONProperty _ h [] ∅ EmptyString v) as [[seen' r]| | |] eqn:Es;
      cbn [mbind outcome_bind] in E; try done.
    destruct r as [j'|]; [|done]. injection E as <-.
    rewrite JSON_syntax_text in Hj. injection Hj as <-.
    destruct (SerializeJSONProperty_cuts _ h Hn _ _ _ _ _ _ Es) as (_ & _ & C).
    by apply (C p q x).
  - intros. by apply date_encoded.
  - intros. by eapply timestamp_encoded.
  - apply serMembers_undefined.
  - apply serElements_undefined.
Qed.

End Cycle_claims.

(** * Further properties of the code *)

(** ** The codec on shared, invalid and retyped values *)

Section Codec_further.
Context `{RT : Runtime}.

Lemma serMembers_app (rec : serializer) (ps qs : props) : forall seen,
  serMembers rec seen (ps ++ qs)
  = '(s1, ms1) ← serMembers rec seen ps;
    '(s2, ms2) ← serMembers rec s1 qs;
    Ok (s2, ms1 ++ ms2).
Proof.
  induction ps as [|[k v] ps IH]; intros seen; cbn [app serMembers].
  - cbn [mbind outcome_bind]. by destruct (serMembers rec seen qs) as [[s ms]| | |].
  - destruct (rec seen k v) as [[s r]| | |]; cbn [mbind outcome_bind]; try done.
    rewrite IH. destruct (serMembers rec s ps) as [[s1 ms1]| | |];
      cbn [mbind outcome_bind]; try done.
    destruct (serMembers rec s1 qs) as [[s2 ms2]| | |];
      cbn [mbind outcome_bind]; try done.
    by destruct r.
Qed.

(** X1.  In a heap without dangling references and without a timestamp
    out of range, when two properties of a record hold the same object, and
    that object is one the replacer is handed (not a [Date], and not a
    timestamp whose class has a [toJSON]), the record is encoded and the
    text has no member under the name of the later property: what it held
    is missing from the snapshot. *)
Theorem shared_field_written_once (h : heap) l (ps : props) i j k1 k2 x :
  closed h -> dated h -> h !! l = Some (OPlain ps) -> NoDup ps.*1 ->
  ps !! i = Some (k1, VRef x) -> ps !! j = Some (k2, VRef x) -> i < j ->
  handed h x ->
  exists ms,
    JSON_stringify h (VRef l) = Ok (Some (JSON_text (JObj ms))) /\ k2 ∉ ms.*1.
Proof.
  intros Hcl Hd Hl Hnd Hi Hj Hij Hx.
  destruct (SerializeJSONProperty_total (S (length h)) h Hcl Hd [] ∅ EmptyString (VRef l))
    as (seen' & r & E & _).
  { by eapply lookup_lt_Some. }
  { set_solver. }
  { unfold budget. rewrite difference_empty_L, size_set_seq. lia. }
  unfold JSON_stringify. rewrite E. cbn [mbind outcome_bind].
  cbn [SerializeJSONProperty] in E. unfold toJSON in E. rewrite Hl in E.
  cbn [jsonReplacer] in E. rewrite decide_False, Hl in E by set_solver.
  cbn [isArray toStringTag orb String.eqb Ascii.eqb Bool.eqb andb mbind outcome_bind] in E.
  rewrite Hl in E. rewrite decide_False in E by set_solver. cbn [ownProps] in E.
  (* the record, cut at the two properties *)
  pose proof (take_drop_middle ps j _ Hj) as Hcut.
  assert (take j ps !! i = Some (k1, VRef x)) as Hi' by (by rewrite lookup_take_lt).
  pose proof (take_drop_middle (take j ps) i _ Hi') as Hcut1.
  set (rec := SerializeJSONProperty (length h) h [l]) in *.
  assert (exists n, length h = S n) as [n Hn].
  { destruct h; [done|eauto]. }
  rewrite <- Hcut, <- Hcut1 in E.
  rewrite serMembers_app, serMembers_app in E.
  destruct (serMembers rec _ (take i (take j ps))) as [[s1 m1]| | |] eqn:E1;
    cbn [mbind outcome_bind] in E; try done.
  cbn [serMembers] in E.
  destruct (rec s1 k1 (VRef x)) as [[s2 r1]| | |] eqn:E2;
    cbn [mbind outcome_bind] in E; try done.
  destruct (serMembers rec s2 (drop (S i) (take j ps))) as [[s3 m3]| | |] eqn:E3;
    cbn [mbind outcome_bind] in E; try done.
  assert (x ∈ s3) as Hseen.
  { apply (serMembers_grows rec) in E3; [|apply SerializeJSONProperty_grows].
    apply E3. by eapply SerializeJSONProperty_visits. }
  assert (rec s3 k2 (VRef x) = Ok (s3, None)) as E4.
  { unfold rec. rewrite Hn. by apply revisit_undefined. }
  rewrite E4 in E. cbn [mbind outcome_bind] in E.
  destruct (serMembers rec s3 (drop (S j) ps)) as [[s5 m5]| | |] eqn:E5;
    cbn [mbind outcome_bind] in E; try done.
  injection E as _ <-. cbn [option_map]. eexists. split; [done|].
  (* no member is named [k2] *)
  rewrite <- Hcut, fmap_app, fmap_cons in Hnd. cbn [fst] in Hnd.
  apply NoDup_app in Hnd as (_ & Hfront & Hback).
  apply NoDup_cons in Hback as [Hback _].
  intros Hin. rewrite fmap_app in Hin. apply elem_of_app in Hin as [Hin|Hin].
  - apply (Hfront k2); [|left]. rewrite <- Hcut1.
    assert (k2 ∈ (match r1 with Some j0 => (k1, j0) :: m3 | None => m3 end).*1
            -> k2 ∈ ((k1, VRef x) :: drop (S i) (take j ps)).*1) as Hmid.
    { intros H. destruct r1 as [j0|].
      - cbn in H. apply elem_of_cons in H as [->|H]; [left|right].
        by eapply serMembers_keys.
      - right. by eapply serMembers_keys. }
    rewrite fmap_app. rewrite fmap_app in Hin.
    apply elem_of_app in Hin as [Hin|Hin]; apply elem_of_app; [left|right].
    + by eapply serMembers_keys.
    + by apply Hmid.
  - apply Hback. by eapply serMembers_keys.
Qed.

(** X2.  An invalid [Date] is written as [null] wherever it occurs (its
    [toJSON] answers before the replacer is asked, so [toISOString] never
    throws), and [null] is read back as [null] under every key. *)
Theorem invalid_date_written_as_null (h : heap) l :
  h !! l = Some (ODate None) ->
  (forall fuel stack seen k,
     SerializeJSONProperty (S fuel) h stack seen k (VRef l) = Ok (seen, Some JNull)) /\
  JSON_stringify h (VRef l) = Ok (Some (JSON_text JNull)) /\
  (forall k h0, InternalizeJSONProperty k JNull h0 = (h0, VNull)).
Proof.
  intros Hl.
  assert (forall fuel stack seen k,
            SerializeJSONProperty (S fuel) h stack seen k (VRef l)
            = Ok (seen, Some JNull)) as H.
  { intros. cbn [SerializeJSONProperty]. unfold toJSON. by rewrite Hl. }
  split; [exact H|]. split.
  - unfold JSON_stringify. by rewrite H.
  - intros k h0. cbn [InternalizeJSONProperty]. by apply reviver_other.
Qed.

(** X3.  A [Date] held under a name that is not one of the three date
    names is written as its ISO text and read back as that text: it does
    not come back as a [Date]. *)
Theorem date_elsewhere_returns_as_text (h : heap) l t k :
  h !! l = Some (ODate (Some t)) -> k ∉ dateKeys ->
  forall fuel stack seen h0,
    SerializeJSONProperty (S fuel) h stack seen k (VRef l)
    = Ok (seen, Some (JStr (toISOString t))) /\
    InternalizeJSONProperty k (JStr (toISOString t)) h0
    = (h0, VStr (toISOString t)).
Proof.
  intros Hl Hk fuel stack seen h0. split.
  - by apply date_encoded.
  - cbn [InternalizeJSONProperty]. by apply reviver_str.
Qed.

(** X4.  Where the Timestamp class has no [toJSON], a timestamp with an
    instant in range that is held under one of the three date names and has
    not been met before in the call is written as the ISO text of its
    instant, and that text is read back as a [Date] of that instant.  (Where
    the class has a [toJSON] the replacer never sees the timestamp: see
    C10.) *)
Theorem timestamp_returns_as_date (h : heap) l t k :
  h !! l = Some (OTimestamp t) -> Timestamp_toJSON t = None ->
  validTime t -> k ∈ dateKeys ->
  forall fuel stack seen h0,
    l ∉ seen ->
    SerializeJSONProperty (S fuel) h stack seen k (VRef l)
    = Ok ({[l]} ∪ seen, Some (JStr (toISOString t))) /\
    InternalizeJSONProperty k (JStr (toISOString t)) h0
    = (h0 ++ [ODate (Some t)], VRef (length h0)).
Proof.
  intros Hl Hj Ht Hk fuel stack seen h0 Hseen. split.
  - cbn [SerializeJSONProperty]. unfold toJSON. rewrite Hl, Hj.
    cbn [jsonReplacer]. rewrite decide_False, Hl by done. by rewrite decide_True.
  - cbn [InternalizeJSONProperty]. unfold reviver.
    rewrite bool_decide_eq_true_2 by done.
    by rewrite Date_parse_toISOString.
Qed.

(** X5.  A string held under one of the three date names that the date
    parser accepts is written as it is and read back as a [Date]. *)
Theorem date_text_returns_as_date (s : string) t k :
  Date_parse s = Some t -> k ∈ dateKeys ->
  forall fuel h stack seen h0,
    SerializeJSONProperty (S fuel) h stack seen k (VStr s)
    = Ok (seen, Some (JStr s)) /\
    InternalizeJSONProperty k (JStr s) h0
    = (h0 ++ [ODate (Some t)], VRef (length h0)).
Proof.
  intros Hs Hk fuel h stack seen h0. split; [done|].
  cbn [InternalizeJSONProperty]. unfold reviver.
  rewrite bool_decide_eq_true_2 by done. by rewrite Hs.
Qed.

Lemma addAll_NoDup (vs : list value) : forall acc,
  NoDup acc -> NoDup (addAll acc vs).
Proof.
  induction vs as [|v vs IH]; intros acc Hacc; cbn [addAll]; [done|].
  apply IH. destruct (decide (v ∈ acc)); [done|].
  apply NoDup_app. split; [done|]. split; [|apply NoDup_singleton].
  intros x Hx Hv. by apply elem_of_cons in Hv as [->|Hv%elem_of_nil].
Qed.

(** X6.  An array of strings under [communityPostFireReactions] is read
    back as a [Set] that holds each of the strings once, whatever the
    repetitions in the text; under any other name it is read back as the
    array it is. *)
Theorem reactions_read_back_as_set (ss : list string) (h0 : heap) :
  (exists ms,
     InternalizeJSONProperty setKey (JArr (JStr <$> ss)) h0
     = (h0 ++ [OArray (VStr <$> ss); OSet ms], VRef (S (length h0))) /\
     NoDup ms /\ forall v, v ∈ ms <-> exists s, v = VStr s /\ s ∈ ss) /\
  (forall k, k <> setKey ->
     InternalizeJSONProperty k (JArr (JStr <$> ss)) h0
     = (h0 ++ [OArray (VStr <$> ss)], VRef (length h0))).
Proof.
  split.
  - exists (addAll [] (VStr <$> ss)). split; [|split].
    + cbn [InternalizeJSONProperty]. rewrite intElements_strings.
      cbn [alloc]. unfold reviver.
      rewrite bool_decide_eq_false_2; [|by vm_compute; set_solver].
      rewrite String.eqb_refl, lookup_alloc. unfold alloc.
      rewrite <- app_assoc. cbn [app]. rewrite length_app. cbn [length].
      do 2 f_equal. lia.
    + apply addAll_NoDup, NoDup_nil_2.
    + intros v. rewrite addAll_elem, list_elem_of_fmap. set_solver.
  - intros k Hk. cbn [InternalizeJSONProperty]. rewrite intElements_strings.
    cbn [alloc]. unfold reviver.
    rewrite (proj2 (String.eqb_neq k setKey)) by done.
    by destruct (bool_decide (k ∈ dateKeys)).
Qed.

End Codec_further.

Section Codec_elements.
Context `{RT : Runtime}.

Lemma serElements_app (rec : serializer) (vs ws : list value) : forall i seen,
  serElements rec seen i (vs ++ ws)
  = '(s1, js1) ← serElements rec seen i vs;
    '(s2, js2) ← serElements rec s1 (i + length vs) ws;
    Ok (s2, js1 ++ js2).
Proof.
  induction vs as [|v vs IH]; intros i seen; cbn [app serElements length].
  - cbn [mbind outcome_bind]. rewrite Nat.add_0_r.
    by destruct (serElements rec seen i ws) as [[s js]| | |].
  - destruct (rec seen (index_key i) v) as [[s r]| | |];
      cbn [mbind outcome_bind]; try done.
    rewrite IH. replace (S i + length vs) with (i + S (length vs)) by lia.
    destruct (serElements rec s (S i) vs) as [[s1 js1]| | |];
      cbn [mbind outcome_bind]; try done.
    by destruct (serElements rec s1 (i + S (length vs)) ws) as [[s2 js2]| | |].
Qed.

Lemma serElements_length (rec : serializer) (vs : list value) : forall i seen seen' js,
  serElements rec seen i vs = Ok (seen', js) -> length js = length vs.
Proof.
  induction vs as [|v vs IH]; intros i seen seen' js E; cbn [serElements] in E.
  - by injection E as _ <-.
  - destruct (rec seen (index_key i) v) as [[s r]| | |];
      cbn [mbind outcome_bind] in E; try done.
    destruct (serElements rec s (S i) vs) as [[s1 js1]| | |] eqn:E1;
      cbn [mbind outcome_bind] in E; try done.
    injection E as _ <-. cbn [length]. f_equal. by eapply IH.
Qed.

(** X7.  In a heap without dangling references and without a timestamp
    out of range, when two elements of an array are the same object, and
    that object is one the replacer is handed (not a [Date], and not a
    timestamp whose class has a [toJSON]), the array is encoded with as
    many elements as it has, and the later of the two is written as
    [null]. *)
Theorem shared_element_written_as_null (h : heap) l (vs : list value) i j x :
  closed h -> dated h -> h !! l = Some (OArray vs) ->
  vs !! i = Some (VRef x) -> vs !! j = Some (VRef x) -> i < j ->
  handed h x ->
  exists js,
    JSON_stringify h (VRef l) = Ok (Some (JSON_text (JArr js))) /\
    length js = length vs /\ js !! j = Some JNull.
Proof.
  intros Hcl Hd Hl Hi Hj Hij Hx.
  destruct (SerializeJSONProperty_total (S (length h)) h Hcl Hd [] ∅ EmptyString (VRef l))
    as (seen' & r & E & _).
  { by eapply lookup_lt_Some. }
  { set_solver. }
  { unfold budget. rewrite difference_empty_L, size_set_seq. lia. }
  unfold JSON_stringify. rewrite E. cbn [mbind outcome_bind].
  cbn [SerializeJSONProperty] in E. unfold toJSON in E. rewrite Hl in E.
  cbn [jsonReplacer] in E. rewrite decide_False, Hl in E by set_solver.
  cbn [isArray orb mbind outcome_bind] in E.
  rewrite Hl in E. rewrite decide_False in E by set_solver.
  set (rec := SerializeJSONProperty (length h) h [l]) in *.
  destruct (serElements rec _ 0 vs) as [[s js]| | |] eqn:Eall;
    cbn [mbind outcome_bind] in E; try done.
  injection E as _ <-. cbn [option_map]. exists js. split; [done|].
  split; [by eapply serElements_length|].
  assert (exists n, length h = S n) as [n Hn].
  { destruct h; [done|eauto]. }
  pose proof (take_drop_middle vs j _ Hj) as Hcut.
  assert (take j vs !! i = Some (VRef x)) as Hi' by (by rewrite lookup_take_lt).
  pose proof (take_drop_middle (take j vs) i _ Hi') as Hcut1.
  assert (length (take j vs) = j) as Hlen.
  { rewrite length_take. apply lookup_lt_Some in Hj. lia. }
  rewrite <- Hcut in Eall. rewrite serElements_app in Eall.
  destruct (serElements rec _ 0 (take j vs)) as [[s1 js1]| | |] eqn:E1;
    cbn [mbind outcome_bind] in Eall; try done.
  pose proof (serElements_length _ _ _ _ _ _ E1) as Hjs1. rewrite Hlen in Hjs1.
  assert (x ∈ s1) as Hseen.
  { rewrite <- Hcut1, serElements_app in E1.
    destruct (serElements rec _ 0 (take i (take j vs))) as [[s0 js0]| | |];
      cbn [mbind outcome_bind] in E1; try done.
    cbn [serElements] in E1.
    destruct (rec s0 _ (VRef x)) as [[s2 r1]| | |] eqn:E2;
      cbn [mbind outcome_bind] in E1; try done.
    destruct (serElements rec s2 _ (drop (S i) (take j vs))) as [[s3 js3]| | |] eqn:E3;
      cbn [mbind outcome_bind] in E1; try done.
    injection E1 as <- _.
    apply (serElements_grows rec) in E3; [|apply SerializeJSONProperty_grows].
    apply E3. by eapply SerializeJSONProperty_visits. }
  rewrite Hlen in Eall. cbn [serElements] in Eall.
  assert (rec s1 (index_key (0 + j)) (VRef x) = Ok (s1, None)) as E4.
  { unfold rec. rewrite Hn. by apply revisit_undefined. }
  rewrite E4 in Eall. cbn [mbind outcome_bind] in Eall.
  destruct (serElements rec s1 _ (drop (S j) vs)) as [[s5 js5]| | |];
    cbn [mbind outcome_bind] in Eall; try done.
  injection Eall as _ <-.
  rewrite lookup_app_r by lia. by rewrite Hjs1, Nat.sub_diag.
Qed.

End Codec_elements.

(** ** What decoding does to the heap *)

Section Decoding.
Context `{RT : Runtime}.

Lemma valid_mono (h h' : heap) v : h `prefix_of` h' -> valid h v -> valid h' v.
Proof.
  intros Hp. destruct v; try done. cbn. pose proof (prefix_length _ _ Hp). lia.
Qed.

Lemma closed_alloc (h : heap) o :
  closed h -> Forall (valid h) (children o) -> closed (h ++ [o]).
Proof.
  intros Hcl Ho l o' v Hl Hv.
  apply (valid_mono h); [apply prefix_alloc|].
  destruct (decide (l < length h)) as [Hlt|Hge].
  - rewrite lookup_app_l in Hl by done. by eapply Hcl.
  - rewrite lookup_app_r in Hl by lia.
    destruct (l - length h) as [|n] eqn:E; [|by destruct n].
    injection Hl as <-. rewrite Forall_forall in Ho. by apply Ho.
Qed.

Lemma extends_alloc (h0 h : heap) o :
  extends h0 h (children o) ->
  extends h0 (h ++ [o]) [VRef (length h)].
Proof.
  intros (Hp & Hv & Hc). split; [|split].
  - etrans; [done|apply prefix_alloc].
  - apply Forall_singleton. cbn. rewrite length_app. cbn. lia.
  - intros Hcl. apply closed_alloc; auto.
Qed.

Lemma reviver_extends k v (h0 h : heap) :
  extends h0 h [v] ->
  extends h0 (reviver k v h).1 [(reviver k v h).2].
Proof.
  intros Hx. pose proof Hx as (Hp & Hv & Hc). unfold reviver.
  destruct (if bool_decide (k ∈ dateKeys) then _ else None) as [t|].
  { apply extends_alloc. split; [done|]. split; [apply Forall_nil_2|done]. }
  destruct (String.eqb k setKey); [|done].
  destruct v as [| | | | |l]; try done.
  destruct (h !! l) as [[]|] eqn:Hl; try done.
  cbn [alloc fst snd]. split; [|split].
  - etrans; [done|apply prefix_alloc].
  - apply Forall_singleton. cbn. rewrite length_app. cbn. lia.
  - intros Hcl. apply closed_alloc; [auto|]. cbn [children].
    apply Forall_forall. intros x Hin.
    apply addAll_elem in Hin as [Hin|Hin]; [by apply elem_of_nil in Hin|].
    by apply (Hc Hcl l (OArray elems) x).
Qed.

Lemma extends_weaken (h0 h h1 : heap) vs ws :
  extends h0 h vs -> extends h h1 ws -> extends h0 h1 (vs ++ ws).
Proof.
  intros (Hp & Hv & Hc) (Hp' & Hv' & Hc'). split; [by etrans|]. split; [|auto].
  apply Forall_app. split; [|done].
  eapply Forall_impl; [exact Hv|]. intros v. by apply valid_mono.
Qed.

Lemma extends_refl (h : heap) : extends h h [].
Proof. split; [done|]. split; [apply Forall_nil_2|done]. Qed.

Lemma InternalizeJSONProperty_extends (j : json) : forall k h,
  extends h (InternalizeJSONProperty k j h).1 [(InternalizeJSONProperty k j h).2].
Proof.
  induction j as [|b|n|s|js IH|ms IH] using Reference.json_rect'; intros k h;
    cbn [InternalizeJSONProperty].
  1-4: apply reviver_extends; split; [done|]; split;
         [by apply Forall_singleton|done].
  - assert (forall i h, extends h (intElements InternalizeJSONProperty i js h).1
                                  (intElements InternalizeJSONProperty i js h).2) as Hel.
    { clear h. induction IH as [|j js Hj _ IHjs]; intros i h; cbn [intElements].
      - apply extends_refl.
      - specialize (Hj (index_key i) h).
        destruct (InternalizeJSONProperty (index_key i) j h) as [h1 v].
        specialize (IHjs (S i) h1).
        fold (intElements InternalizeJSONProperty) in *.
        destruct (intElements InternalizeJSONProperty (S i) js h1) as [h2 vs].
        cbn [fst snd] in *. by apply (extends_weaken h h1 h2 [v] vs). }
    specialize (Hel 0 h).
    destruct (intElements InternalizeJSONProperty 0 js h) as [h1 vs].
    cbn [alloc fst snd] in *.
    pose proof (extends_alloc h h1 (OArray vs) Hel) as Ha.
    pose proof (reviver_extends k _ h _ Ha) as Hr.
    by destruct (reviver k (VRef (length h1)) (h1 ++ [OArray vs])).
  - assert (forall h, extends h (intMembers InternalizeJSONProperty ms h).1
                                (intMembers InternalizeJSONProperty ms h).2.*2) as Hmem.
    { clear h. induction IH as [|[k' j] ms Hj _ IHms]; intros h; cbn [intMembers].
      - apply extends_refl.
      - specialize (Hj k' h). cbn [snd] in Hj.
        destruct (InternalizeJSONProperty k' j h) as [h1 v].
        specialize (IHms h1).
        fold (intMembers InternalizeJSONProperty) in *.
        destruct (intMembers InternalizeJSONProperty ms h1) as [h2 ps].
        cbn [fst snd fmap list_fmap] in *. by apply (extends_weaken h h1 h2 [v]). }
    specialize (Hmem h).
    destruct (intMembers InternalizeJSONProperty ms h) as [h1 ps].
    cbn [alloc fst snd] in *.
    assert (extends h h1 (children (OPlain (buildProps ps)))) as Hb.
    { destruct Hmem as (Hp & Hv & Hc). split; [done|]. split; [|done].
      cbn [children]. apply Forall_forall. intros v Hin.
      rewrite Forall_forall in Hv. apply Hv.
      assert (forall (qs acc : props),
                v ∈ (foldl (fun acc kv => put kv.1 kv.2 acc) acc qs).*2 ->
                v ∈ acc.*2 \/ v ∈ qs.*2) as Hfold.
      { clear. induction qs as [|[k0 v0] qs IHqs]; intros acc Hin; cbn [foldl] in Hin.
        - by left.
        - apply IHqs in Hin as [Hin|Hin]; [|right; by right].
          cbn [fst snd] in Hin.
          assert (v ∈ (put k0 v0 acc).*2 -> v = v0 \/ v ∈ acc.*2) as Hput.
          { clear. induction acc as [|[k1 v1] acc IHacc]; cbn [put].
            - cbn. intros H. apply elem_of_cons in H as [->|H]; [by left|].
              by apply elem_of_nil in H.
            - destruct (String.eqb k0 k1); cbn.
              + intros H. apply elem_of_cons in H as [->|H]; [by left|].
                right. by right.
              + intros H. apply elem_of_cons in H as [->|H]; [right; by left|].
                apply IHacc in H as [->|H]; [by left|right; by right]. }
          apply Hput in Hin as [->|Hin]; [right; by left|by left]. }
      apply Hfold in Hin as [Hin|Hin]; [by apply elem_of_nil in Hin|done]. }
    pose proof (extends_alloc h h1 _ Hb) as Ha.
    pose proof (reviver_extends k _ h _ Ha) as Hr.
    by destruct (reviver k (VRef (length h1)) (h1 ++ [OPlain (buildProps ps)])).
Qed.

(** X8.  Decoding a text that is JSON completes, whatever the heap it is
    decoded into; the objects that were there are still there, unchanged,
    before the ones it creates; what it returns is a value of the new heap;
    and it leaves no dangling reference where there was none. *)
Theorem parse_extends_heap (text : string) (j : json) (h0 : heap) :
  JSON_syntax text = Some j ->
  exists h1 y,
    JSON_parse text h0 = Ok (h1, y) /\
    h0 `prefix_of` h1 /\ valid h1 y /\ (closed h0 -> closed h1).
Proof.
  intros Hj. unfold JSON_parse. rewrite Hj.
  pose proof (InternalizeJSONProperty_extends j EmptyString h0) as (Hp & Hv & Hc).
  destruct (InternalizeJSONProperty EmptyString j h0) as [h1 y].
  cbn [fst snd] in *.
  exists h1, y. split; [done|]. split; [done|]. split; [|done].
  exact (Forall_inv Hv).
Qed.

End Decoding.

(** ** The guest branch of the identity callback *)

Section Guest_further.
Context `{RT : Runtime}.

Lemma truthy_text (text : string) : text <> EmptyString -> truthy (VStr text) = true.
Proof. by destruct text. Qed.

Lemma fieldwise_truthy (h1 h2 : heap) x y :
  fieldwise h1 h2 x y -> truthy y = truthy x.
Proof. by destruct 1. Qed.

(** The anonymous branch when the store holds a text that decodes to a
    truthy value: that value is installed and nothing is written. *)
Lemma onGuest_restores now (u : User) (st : state) text h1 y :
  localStorage st !! guestKey = Some text -> text <> EmptyString ->
  JSON_parse text (mem st) = Ok (h1, y) -> truthy y = true ->
  onGuest now u st = Ok (setLoading false (setUserProfile y (setMem h1 st))).
Proof.
  intros Hst Hne Hparse Hy. unfold onGuest. rewrite Hst, (truthy_text _ Hne), Hparse.
  cbn [mbind outcome_bind try_catch]. by rewrite Hy.
Qed.

(** The anonymous branch when nothing usable is stored: the default is
    derived in the heap [h] the first stage left, encoded and stored. *)
Lemma onGuest_derives now (u : User) (st sa : state) g :
  try_catch
    (match localStorage st !! guestKey with
     | Some storedProfile =>
         if truthy (VStr storedProfile) then
           '(h, v) ← JSON_parse storedProfile (mem st);
           Ok (setMem h st, v)
         else Ok (st, VNull)
     | None => Ok (st, VNull)
     end)
    (fun e =>
       Ok (removeItem guestKey
             (console_error "Failed to parse guest profile from localStorage" st),
           VNull)) = Ok (sa, g) ->
  truthy g = false -> validTime now ->
  exists h p j,
    newGuestProfile now u (mem sa) = (h, VRef p) /\
    JSON_stringify h (VRef p) = Ok (Some (JSON_text j)) /\
    onGuest now u st
    = Ok (setLoading false
            (setUserProfile (VRef p) (setItem guestKey (JSON_text j) (setMem h sa)))).
Proof.
  intros E Hg Hnow.
  destruct (derive_guest_default now u sa Hnow) as (h & p & j & Enew & Hstr & _).
  assert (exists l, p = VRef l) as [l ->].
  { rewrite newGuestProfile_eq in Enew. injection Enew as _ <-. eauto. }
  exists h, l, j. split; [done|]. split; [done|].
  unfold onGuest. rewrite E. cbn [mbind outcome_bind]. rewrite Hg, Enew.
  cbn [mbind outcome_bind]. by rewrite Hstr.
Qed.

(** X9.  When the store holds a text that decodes to a truthy value, the
    identity callback of a guest installs what was decoded, whoever the
    guest is, and ends loading; it writes nothing: the store, the log and
    the calls issued are as they were. *)
Theorem guest_snapshot_restored now (u : User) (st : state) text h1 y :
  isAnonymous u = true ->
  localStorage st !! guestKey = Some text -> text <> EmptyString ->
  JSON_parse text (mem st) = Ok (h1, y) -> truthy y = true ->
  exists st',
    onAuthStateChanged now (Some u) st = Ok st' /\
    userProfile st' = y /\ mem st' = h1 /\ user st' = Some u /\
    loading st' = false /\ localStorage st' = localStorage st /\
    console st' = console st /\ issued st' = issued st.
Proof.
  intros Hanon Hst Hne Hparse Hy. eexists. split.
  - unfold onAuthStateChanged. rewrite Hanon.
    by apply (onGuest_restores now u (setUser (Some u) st) text h1 y).
  - done.
Qed.

Lemma restore_decoded now (u : User) (st : state) text (h : heap) p :
  isAnonymous u = true ->
  localStorage st !! guestKey = Some text -> text <> EmptyString ->
  (forall h0, exists h1 y, JSON_parse text h0 = Ok (h1, y) /\ fieldwise h h1 p y) ->
  truthy p = true ->
  exists st',
    onAuthStateChanged now (Some u) st = Ok st' /\
    fieldwise h (mem st') p (userProfile st') /\
    localStorage st' = localStorage st /\ loading st' = false.
Proof.
  intros Hanon Hst Hne Hdec Hp.
  destruct (Hdec (mem st)) as (h1 & y & Hparse & Hfw).
  eexists. split.
  - unfold onAuthStateChanged. rewrite Hanon.
    apply (onGuest_restores now u (setUser (Some u) st) text h1 y); try done.
    by rewrite (fieldwise_truthy _ _ _ _ Hfw).
  - done.
Qed.

(** X10.  A guest who arrives with nothing stored gets the default, and the
    guest who arrives next with the store as that visit left it, in whatever
    heap, is given a profile field-wise equal to it, its [createdAt]
    included; the store is not written again. *)
Theorem guest_profile_survives_reload now now' (u u' : User) (st : state) :
  validTime now -> isAnonymous u = true -> isAnonymous u' = true ->
  localStorage st !! guestKey = None -> JSON_syntax EmptyString = None ->
  exists st1,
    onAuthStateChanged now (Some u) st = Ok st1 /\
    forall st2, localStorage st2 !! guestKey = localStorage st1 !! guestKey ->
      exists st3,
        onAuthStateChanged now' (Some u') st2 = Ok st3 /\
        fieldwise (mem st1) (mem st3) (userProfile st1) (userProfile st3) /\
        localStorage st3 = localStorage st2.
Proof.
  intros Hnow Hanon Hanon' Hnone Hempty.
  destruct (derive_guest_default now u st Hnow) as (h & p & j & Enew & Hstr & Hsyn & Hdec).
  assert (exists l, p = VRef l) as [l ->].
  { rewrite newGuestProfile_eq in Enew. injection Enew as _ <-. eauto. }
  eexists. split.
  { unfold onAuthStateChanged, onGuest. rewrite Hanon.
    cbn [localStorage setUser]. rewrite Hnone.
    cbn [mbind outcome_bind try_catch truthy mem setUser]. rewrite Enew.
    cbn [mbind outcome_bind]. rewrite Hstr. reflexivity. }
  cbn [mem userProfile localStorage setLoading setUserProfile setItem setMem].
  intros st2 Hsame. rewrite lookup_insert_eq in Hsame.
  destruct (restore_decoded now' u' st2 (JSON_text j) h (VRef l)) as (st3 & E & Hfw & Hls & _);
    try done.
  { intros Heq. rewrite Heq in Hsyn. by rewrite Hsyn in Hempty. }
  by exists st3.
Qed.

(** X11.  A stored text that is empty, or that decodes to [null], [false],
    0 or the empty string, is treated as no snapshot at all: the default is
    derived and stored over it, and nothing is logged. *)
Theorem falsy_snapshot_replaced now (u : User) (st : state) text :
  validTime now -> isAnonymous u = true ->
  localStorage st !! guestKey = Some text ->
  (text = EmptyString \/
   exists j, JSON_syntax text = Some j /\
             (j = JNull \/ j = JBool false \/ j = JNum 0 \/ j = JStr EmptyString)) ->
  exists st' snapshot,
    onAuthStateChanged now (Some u) st = Ok st' /\
    (mem st', userProfile st') = newGuestProfile now u (mem st) /\
    loading st' = false /\ console st' = console st /\
    JSON_stringify (mem st') (userProfile st') = Ok (Some snapshot) /\
    localStorage st' !! guestKey = Some snapshot.
Proof.
  intros Hnow Hanon Hst Hfalsy.
  set (s0 := setUser (Some u) st).
  assert (exists g,
            try_catch
              (match localStorage s0 !! guestKey with
               | Some storedProfile =>
                   if truthy (VStr storedProfile) then
                     '(h, v) ← JSON_parse storedProfile (mem s0);
                     Ok (setMem h s0, v)
                   else Ok (s0, VNull)
               | None => Ok (s0, VNull)
               end)
              (fun e =>
                 Ok (removeItem guestKey
                       (console_error "Failed to parse guest profile from localStorage" s0),
                     VNull)) = Ok (setMem (mem st) s0, g) /\ truthy g = false)
    as (g & E & Hg).
  { cbn [localStorage s0 setUser]. rewrite Hst.
    destruct Hfalsy as [->|(j & Hj & Hcases)]; [by exists VNull|].
    unfold JSON_parse. rewrite Hj.
    destruct (truthy (VStr text)); [|by exists VNull].
    destruct Hcases as [-> | [-> | [-> | ->]]]; cbn [InternalizeJSONProperty].
    - exists VNull. by rewrite reviver_other.
    - exists (VBool false). by rewrite reviver_other.
    - exists (VNum 0). by rewrite reviver_other.
    - exists (VStr EmptyString). rewrite reviver_str; [done|].
      intros Hin. exfalso. revert Hin. unfold dateKeys.
      rewrite !elem_of_cons, elem_of_nil. intros [?|[?|[?|[]]]]; discriminate. }
  assert (setMem (mem st) s0 = s0) as Es0 by (by destruct st).
  rewrite Es0 in E.
  destruct (onGuest_derives now u s0 s0 g E Hg Hnow) as (h & p & j & Enew & Hstr & Eon).
  eexists _, (JSON_text j). split.
  { unfold onAuthStateChanged. rewrite Hanon. exact Eon. }
  cbn [mem userProfile loading console localStorage setLoading setUserProfile
       setItem setMem].
  split; [done|]. split; [done|]. split; [done|]. split; [done|].
  by rewrite lookup_insert_eq.
Qed.

Lemma guest_arrives now (u : User) (st : state) :
  validTime now -> isAnonymous u = true ->
  exists st',
    onAuthStateChanged now (Some u) st = Ok st' /\
    user st' = Some u /\ loading st' = false /\
    is_Some (currentProfile st') /\
    is_Some (localStorage st' !! guestKey) /\
    mem st `prefix_of` mem st'.
Proof.
  intros Hnow Hanon. unfold onAuthStateChanged. rewrite Hanon.
  set (s0 := setUser (Some u) st).
  assert (forall sa g,
            try_catch
              (match localStorage s0 !! guestKey with
               | Some storedProfile =>
                   if truthy (VStr storedProfile) then
                     '(h, v) ← JSON_parse storedProfile (mem s0);
                     Ok (setMem h s0, v)
                   else Ok (s0, VNull)
               | None => Ok (s0, VNull)
               end)
              (fun e =>
                 Ok (removeItem guestKey
                       (console_error "Failed to parse guest profile from localStorage" s0),
                     VNull)) = Ok (sa, g) ->
            truthy g = false -> user sa = Some u -> mem st `prefix_of` mem sa ->
            exists st',
              onGuest now u s0 = Ok st' /\
              user st' = Some u /\ loading st' = false /\
              is_Some (currentProfile st') /\
              is_Some (localStorage st' !! guestKey) /\
              mem st `prefix_of` mem st') as Hderive.
  { intros sa g E Hg Hu Hpre.
    destruct (onGuest_derives now u s0 sa g E Hg Hnow) as (h & p & j & Enew & _ & Eon).
    eexists. split; [exact Eon|].
    cbn [user mem userProfile loading localStorage setLoading setUserProfile
         setItem setMem currentProfile].
    split; [done|]. split; [done|]. split; [by eexists|].
    split; [rewrite lookup_insert_eq; by eexists|].
    rewrite newGuestProfile_eq in Enew. injection Enew as <- _.
    etrans; [done|]. by apply prefix_app_r. }
  destruct (localStorage s0 !! guestKey) as [text|] eqn:Hst.
  2: { by apply (Hderive s0 VNull). }
  destruct (truthy (VStr text)) eqn:Htext.
  2: { by apply (Hderive s0 VNull). }
  unfold JSON_parse in Hderive |- *.
  destruct (JSON_syntax text) as [j|] eqn:Hj.
  2: { by eapply (Hderive _ VNull). }
  pose proof (InternalizeJSONProperty_extends j EmptyString (mem s0)) as (Hp & _).
  destruct (InternalizeJSONProperty EmptyString j (mem s0)) as [h1 y] eqn:Ej.
  cbn [fst snd mbind outcome_bind try_catch] in Hp, Hderive.
  destruct (truthy y) eqn:Hy.
  2: { by eapply (Hderive _ y). }
  exists (setLoading false (setUserProfile y (setMem h1 s0))). split.
  { apply (onGuest_restores now u s0 text h1 y); try done.
    - by destruct text.
    - unfold JSON_parse. by rewrite Hj, Ej. }
  cbn [user mem userProfile loading localStorage setLoading setUserProfile
       setMem currentProfile s0 setUser].
  split; [done|]. split; [done|].
  split.
  { unfold currentProfile. cbn [userProfile setLoading setUserProfile].
    rewrite Hy. by eexists. }
  split; [by eexists|done].
Qed.

(** X12.  Whatever the store holds, the identity callback of a guest
    completes: the guest is the current identity, loading has ended, there
    is a current profile and a snapshot under the guest key, and the heap
    has only been added to. *)
Theorem guest_sign_in_completes now (u : User) (st : state) :
  validTime now -> isAnonymous u = true ->
  exists st',
    onAuthStateChanged now (Some u) st = Ok st' /\
    user st' = Some u /\ loading st' = false /\
    is_Some (currentProfile st') /\
    is_Some (localStorage st' !! guestKey) /\
    mem st `prefix_of` mem st'.
Proof. apply guest_arrives. Qed.

(** X13.  A guest who arrives after the identity was lost starts afresh,
    whatever was stored before the loss: the profile is the default
    derived at that instant, and its snapshot is what the store holds. *)
Theorem guest_after_sign_out_starts_afresh now0 now (u : User) (st : state) :
  validTime now -> isAnonymous u = true ->
  exists st1 st2 snapshot,
    onAuthStateChanged now0 None st = Ok st1 /\
    onAuthStateChanged now (Some u) st1 = Ok st2 /\
    (mem st2, userProfile st2) = newGuestProfile now u (mem st) /\
    JSON_stringify (mem st2) (userProfile st2) = Ok (Some snapshot) /\
    localStorage st2 !! guestKey = Some snapshot /\
    console st2 = console st.
Proof.
  intros Hnow Hanon.
  set (st1 := setLoading false (removeItem guestKey (setUserProfile VNull (setUser None st)))).
  set (s0 := setUser (Some u) st1).
  assert (localStorage s0 !! guestKey = None) as Hnone.
  { cbn. apply lookup_delete_eq. }
  destruct (onGuest_derives now u s0 s0 VNull) as (h & p & j & Enew & Hstr & Eon);
    [by rewrite Hnone|done|done|].
  exists st1, (setLoading false
                 (setUserProfile (VRef p) (setItem guestKey (JSON_text j) (setMem h s0)))),
    (JSON_text j).
  split; [done|]. split.
  { unfold onAuthStateChanged. rewrite Hanon. exact Eon. }
  cbn [mem userProfile loading console localStorage setLoading setUserProfile
       setItem setMem].
  split; [done|]. split; [done|]. split; [by rewrite lookup_insert_eq|done].
Qed.

(** X14.  When what a guest hands to [handleUpdateProfile] is a truthy
    value that meets the conditions of C1 (made of [null], booleans,
    integers, strings, valid [Date]s, [Set]s of strings, arrays and plain
    records with distinct property names; a [Date] only under the three date
    names, where no string is one the date parser accepts; a [Set] only
    under [communityPostFireReactions], where no array is; no array, record
    or set referenced more than once), it is the profile held from then on,
    and the guest who arrives next with the store as the update left it is
    given a profile field-wise equal to it.  The empty text is taken not to
    be a JSON text, as in [JSON.parse]. *)
Theorem guest_update_survives_reload now (u u' : User) (st : state) p fp :
  user st = Some u -> isAnonymous u = true -> isAnonymous u' = true ->
  recognized (mem st) EmptyString p -> owns (mem st) p fp -> truthy p = true ->
  JSON_syntax EmptyString = None ->
  exists st1,
    handleUpdateProfile p st = Ok st1 /\ userProfile st1 = p /\ mem st1 = mem st /\
    forall st2, localStorage st2 !! guestKey = localStorage st1 !! guestKey ->
      exists st3,
        onAuthStateChanged now (Some u') st2 = Ok st3 /\
        fieldwise (mem st1) (mem st3) p (userProfile st3) /\
        localStorage st3 = localStorage st2.
Proof.
  intros Hu Hanon Hanon' Hrec Hown Hp Hempty.
  destruct (stringify_parse (mem st) _ p fp Hrec Hown) as (j & Hser & Hint).
  exists (setItem guestKey (JSON_text j) (setUserProfile p st)). split; [|split; [done|split; [done|]]].
  { unfold handleUpdateProfile. cbn [user setUserProfile]. rewrite Hu, Hanon.
    unfold JSON_stringify. cbn [mem setUserProfile]. by rewrite Hser. }
  cbn [mem localStorage setItem setUserProfile].
  intros st2 Hsame. rewrite lookup_insert_eq in Hsame.
  destruct (restore_decoded now u' st2 (JSON_text j) (mem st) p) as (st3 & E & Hfw & Hls & _);
    try done.
  { intros Heq. pose proof (JSON_syntax_text j) as Hsyn. rewrite Heq in Hsyn.
    by rewrite Hsyn in Hempty. }
  { intros h0. destruct (Hint h0) as (h1 & y & Ey & _ & Hfw). exists h1, y.
    unfold JSON_parse. by rewrite JSON_syntax_text, Ey. }
  by exists st3.
Qed.

End Guest_further.

(** ** The subscription callback *)

Section Authenticated_further.
Context `{RT : Runtime}.
Variable AVATAR_OPTIONS : list string.




Lemma toDate_ill_typed (h : heap) v :
  nullish v = false -> valid h v ->
  (forall l t, v = VRef l -> h !! l <> Some (OTimestamp t)) ->
  toDate v h = Throw TypeError.
Proof.
  intros Hn Hv Hts. destruct v as [| | | | |l]; try done. cbn [toDate].
  destruct (lookup_lt_is_Some_2 h l Hv) as [o Ho]. rewrite Ho.
  destruct o; try done. by destruct (Hts l millis).
Qed.

Lemma toDate_returns (h : heap) v :
  valid h v ->
  toDate v h = Throw TypeError \/
  exists h' d, toDate v h = Ok (h', d) /\ h `prefix_of` h'.
Proof.
  intros Hv. destruct v as [| | | | |l]; cbn [toDate]; try (by left);
    try (right; by eexists _, _).
  destruct (lookup_lt_is_Some_2 h l Hv) as [o Ho]. rewrite Ho.
  destruct o; try (by left). right. eexists _, _. split; [done|apply prefix_alloc].
Qed.

(** X17.  When the record's [createdAt], or its [startDate], is neither
    absent nor a timestamp (a string, a number, a boolean, an object
    without [toDate]), the callback throws a [TypeError]: no profile is
    installed. *)
Theorem ill_typed_time_field_throws now (u : User) (data : props) (st : state) k :
  k = "createdAt" \/ k = "startDate" ->
  valid (mem st) (field "createdAt" data) ->
  nullish (field k data) = false -> valid (mem st) (field k data) ->
  (forall l t, field k data = VRef l -> mem st !! l <> Some (OTimestamp t)) ->
  onSnapshot AVATAR_OPTIONS now u (Some data) st = Throw TypeError.
Proof.
  intros Hk Hvc Hn Hv Hts.
  assert (forall data' (h : heap),
            field "createdAt" data' = field "createdAt" data ->
            field "startDate" data' = field "startDate" data ->
            h = mem st ->
            profileData now u data' h = Throw TypeError) as Hthrow.
  { intros data' h Ec Es ->. unfold profileData. rewrite Ec, Es.
    destruct Hk as [-> | ->].
    - by rewrite toDate_ill_typed.
    - destruct (toDate_returns (mem st) _ Hvc) as [-> |(h' & d & -> & Hpre)]; [done|].
      cbn [mbind outcome_bind].
      assert (forall h'' : heap, h' `prefix_of` h'' ->
                toDate (field "startDate" data) h'' = Throw TypeError) as Hs.
      { intros h'' Hpre'. apply toDate_ill_typed; [done| |].
        - eapply valid_mono; [|done]. by etrans.
        - intros l t Ev Hl. apply (Hts l t Ev).
          rewrite Ev in Hv. cbn in Hv.
          destruct (lookup_lt_is_Some_2 _ _ Hv) as [o Ho].
          rewrite Ho. f_equal. 
          assert (h'' !! l = Some o) as Ho'.
          { eapply prefix_lookup_Some; [done|]. by etrans. }
          congruence. }
      destruct (truthy d); cbn [alloc].
      + by rewrite Hs.
      + rewrite Hs; [done|apply prefix_alloc]. }
  unfold onSnapshot. destruct (truthy (field "photoURL" data)).
  - by rewrite Hthrow.
  - cbn [mem issue]. rewrite Hthrow; [done| | |done]; by apply field_put_ne.
Qed.

Lemma onSnapshot_projected now (u : User) (data : props) (st : state) :
  timeField (mem st) (field "createdAt" data) ->
  timeField (mem st) (field "startDate" data) ->
  exists st' p data' c s b,
    onSnapshot AVATAR_OPTIONS now u (Some data) st = Ok st' /\
    userProfile st' = VRef p /\
    mem st' !! p = Some (OPlain (projected u data' c s b)).
Proof.
  intros Hc Hs. unfold onSnapshot.
  destruct (truthy (field "photoURL" data)).
  - destruct (profileData_spec now u data (mem st) Hc Hs)
      as (h' & p & c & s & b & E & _ & Hl & _).
    rewrite E. by eexists _, p, data, _, _, _.
  - cbn [mem issue].
    destruct (profileData_spec now u
                (put "photoURL" (defaultAvatarUrl AVATAR_OPTIONS (uid u)) data) (mem st))
      as (h' & p & c & s & b & E & _ & Hl & _).
    { by rewrite field_put_ne. }
    { by rewrite field_put_ne. }
    rewrite E. by eexists _, p, _, _, _, _.
Qed.

(** X18.  The projection of a record has the fourteen properties of the
    projection and no other: whatever else the record holds (journal
    entries, habits, a [uid] of its own) does not reach the profile. *)
Theorem projection_has_no_other_field now (u : User) (data : props) (st : state) :
  timeField (mem st) (field "createdAt" data) ->
  timeField (mem st) (field "startDate" data) ->
  exists st' p ps,
    onSnapshot AVATAR_OPTIONS now u (Some data) st = Ok st' /\
    userProfile st' = VRef p /\ mem st' !! p = Some (OPlain ps) /\
    ps.*1 = [ "uid"; "displayName"; "email"; "photoURL"; "createdAt";
              "startDate"; "isAdmin"; "isMuted"; "role"; "commitmentDocument";
              "blockedUsers"; "emergencyIndex"; "urgeIndex"; "storyIndex" ] /\
    get "uid" ps = Some (VStr (uid u)) /\
    forall k, k ∉ ps.*1 -> get k ps = None.
Proof.
  intros Hc Hs.
  destruct (onSnapshot_projected now u data st Hc Hs)
    as (st' & p & data' & c & s & b & E & Hp & Hl).
  exists st', p, (projected u data' c s b).
  split; [done|]. split; [done|]. split; [done|]. split; [done|].
  split; [done|]. intros k. apply get_None.
Qed.

(** X19.  When there is no record, the callback asks the store to create
    one and does nothing else: no profile is installed and loading is not
    ended.  The record it sends has a [displayName] that is never empty
    (for a signed-in identity the provider's name when it has one, the
    fixed label otherwise), an [email] and a [photoURL] only when the
    provider has a non-empty one, a [null] role and counters at 0. *)
Theorem missing_record_is_created now (u : User) (st : state) :
  exists st' fields name,
    onSnapshot AVATAR_OPTIONS now u None st = Ok st' /\
    issued st' = issued st ++ [SetDoc (uid u) fields] /\
    userProfile st' = userProfile st /\ loading st' = loading st /\
    localStorage st' = localStorage st /\ console st' = console st /\
    get "displayName" fields = Some (VStr name) /\ name <> EmptyString /\
    (isAnonymous u = false ->
       name = match displayName u with
              | Some n => if String.eqb n EmptyString then newUserLabel else n
              | None => newUserLabel
              end) /\
    (forall e, get "email" fields = Some e <->
               e = VStr (default EmptyString (email u)) /\
               default EmptyString (email u) <> EmptyString) /\
    (forall e, get "photoURL" fields = Some e <->
               e = VStr (default EmptyString (photoURL u)) /\
               default EmptyString (photoURL u) <> EmptyString) /\
    get "role" fields = Some VNull /\
    get "emergencyIndex" fields = Some (VNum 0) /\
    get "urgeIndex" fields = Some (VNum 0) /\
    get "storyIndex" fields = Some (VNum 0).
Proof.
  unfold onSnapshot, newProfileData. cbn [alloc].
  eexists _, _, _. split; [reflexivity|].
  cbn [issued userProfile loading localStorage console issue setMem].
  split; [reflexivity|]. split; [done|]. split; [done|]. split; [done|].
  split; [done|]. split; [reflexivity|]. split.
  { destruct (isAnonymous u); [done|].
    destruct (displayName u) as [[|a n]|]; done. }
  split.
  { intros ->. destruct (displayName u) as [[|a n]|]; done. }
  split.
  { intros e. destruct (email u) as [[|a s]|], (photoURL u) as [[|a' s']|];
      cbn; split; try (by intros [_ []]); try done;
      try (by intros [= <-]); by intros [-> _]. }
  split.
  { intros e. destruct (email u) as [[|a s]|], (photoURL u) as [[|a' s']|];
      cbn; split; try (by intros [_ []]); try done;
      try (by intros [= <-]); by intros [-> _]. }
  destruct (email u) as [[|a s]|], (photoURL u) as [[|a' s']|]; done.
Qed.

(** X20.  The record a signed-in identity is created with, when it comes
    back in a snapshot with its [createdAt] resolved by the store (to a
    timestamp, or not yet), is projected to a profile that has the name the
    record was created with, the provider's avatar when it has one and the
    avatar pick otherwise, no role, no flag set, an empty commitment and the
    three counters at 0. *)
Theorem created_record_projected now now' (u : User) (st : state) :
  isAnonymous u = false ->
  exists st1 fields,
    onSnapshot AVATAR_OPTIONS now u None st = Ok st1 /\
    issued st1 = issued st ++ [SetDoc (uid u) fields] /\
    forall st2 stamp, timeField (mem st2) stamp ->
      exists st3 p ps,
        onSnapshot AVATAR_OPTIONS now' u (Some (put "createdAt" stamp fields)) st2
          = Ok st3 /\
        userProfile st3 = VRef p /\ mem st3 !! p = Some (OPlain ps) /\
        loading st3 = false /\
        field "displayName" ps
          = VStr (match displayName u with
                  | Some n => if String.eqb n EmptyString then newUserLabel else n
                  | None => newUserLabel
                  end) /\
        field "photoURL" ps
          = (match photoURL u with
             | Some s => if String.eqb s EmptyString
                         then defaultAvatarUrl AVATAR_OPTIONS (uid u) else VStr s
             | None => defaultAvatarUrl AVATAR_OPTIONS (uid u)
             end) /\
        field "role" ps = VUndefined /\
        field "isAdmin" ps = VBool false /\ field "isMuted" ps = VBool false /\
        field "commitmentDocument" ps = VStr EmptyString /\
        field "emergencyIndex" ps = VNum 0 /\ field "urgeIndex" ps = VNum 0 /\
        field "storyIndex" ps = VNum 0.
Proof.
  intros Hanon. unfold onSnapshot at 1. unfold newProfileData. cbn [alloc].
  rewrite Hanon. eexists _, _. split; [reflexivity|].
  cbn [issued issue setMem]. split; [reflexivity|].
  intros st2 stamp Hstamp.
  match goal with |- context [put "createdAt" stamp ?f] => set (fields := f) end.
  set (data := put "createdAt" stamp fields).
  assert (field "createdAt" data = stamp) as Hc by apply field_put_eq.
  assert (forall k, k <> "createdAt" -> field k data = field k fields) as Hother
    by (intros k Hk; by apply field_put_ne).
  assert (field "startDate" fields = VUndefined) as Hstart.
  { unfold fields. destruct (email u) as [[|a s]|], (photoURL u) as [[|a' s']|]; done. }
  destruct (onSnapshot_exists AVATAR_OPTIONS now' u data st2)
    as (st3 & p & c & s & b & ps & E & Hp & Hload & _ & _ & _ & _ & Hl & Hav & Hrest & _).
  { by rewrite Hc. }
  { rewrite Hother by done. rewrite Hstart. by left. }
  exists st3, p, ps. split; [done|]. split; [done|]. split; [done|]. split; [done|].
  rewrite (Hrest "displayName"), (Hrest "role"), (Hrest "isAdmin"),
    (Hrest "isMuted"), (Hrest "commitmentDocument"), (Hrest "emergencyIndex"),
    (Hrest "urgeIndex"), (Hrest "storyIndex") by done.
  rewrite Hav.
  change (field "displayName" (projected u data (VRef c) s b))
    with (field "displayName" data).
  change (field "role" (projected u data (VRef c) s b))
    with (coalesce (field "role" data) VUndefined).
  change (field "isAdmin" (projected u data (VRef c) s b))
    with (coalesce (field "isAdmin" data) (VBool false)).
  change (field "isMuted" (projected u data (VRef c) s b))
    with (coalesce (field "isMuted" data) (VBool false)).
  change (field "commitmentDocument" (projected u data (VRef c) s b))
    with (coalesce (field "commitmentDocument" data) (VStr EmptyString)).
  change (field "emergencyIndex" (projected u data (VRef c) s b))
    with (coalesce (field "emergencyIndex" data) (VNum 0)).
  change (field "urgeIndex" (projected u data (VRef c) s b))
    with (coalesce (field "urgeIndex" data) (VNum 0)).
  change (field "storyIndex" (projected u data (VRef c) s b))
    with (coalesce (field "storyIndex" data) (VNum 0)).
  rewrite !Hother by done. unfold fields.
  destruct (displayName u) as [[|a0 n0]|], (email u) as [[|a s0]|],
    (photoURL u) as [[|a' s']|]; repeat split; reflexivity.
Qed.

(** X21.  The avatar pick is [undefined] exactly when the id is empty or
    there is no candidate; otherwise it is one of the candidates. *)
Theorem avatar_pick_undefined_iff (id : string) :
  (defaultAvatarUrl AVATAR_OPTIONS id = VUndefined
   <-> id = EmptyString \/ AVATAR_OPTIONS = []) /\
  (id <> EmptyString -> AVATAR_OPTIONS <> [] ->
   exists url, url ∈ AVATAR_OPTIONS /\ defaultAvatarUrl AVATAR_OPTIONS id = VStr url).
Proof.
  assert (id <> EmptyString -> AVATAR_OPTIONS <> [] ->
          exists url, url ∈ AVATAR_OPTIONS /\
                      defaultAvatarUrl AVATAR_OPTIONS id = VStr url) as Hpick.
  { intros Hid Hne. destruct id as [|c rest]; [done|].
    assert (length AVATAR_OPTIONS <> 0) as Hlen by (by destruct AVATAR_OPTIONS).
    pose proof (Nat.mod_upper_bound (nat_of_ascii c) _ Hlen) as Hlt.
    destruct (lookup_lt_is_Some_2 _ _ Hlt) as [url Hurl].
    exists url. split; [by eapply list_elem_of_lookup_2|].
    by apply avatar_pick. }
  split; [|exact Hpick]. split.
  - intros Hu. destruct id as [|c rest]; [by left|].
    destruct AVATAR_OPTIONS as [|a l] eqn:E; [by right|].
    destruct Hpick as (url & _ & Hv); [done|done|]. by rewrite Hv in Hu.
  - intros [-> | ->]; [done|]. unfold defaultAvatarUrl, avatarIndex.
    by destruct (charCodeAt0 id).
Qed.

End Authenticated_further.

(** ** The component as a whole *)

Section Component_further.
Context `{RT : Runtime}.
Variable AVATAR_OPTIONS : list string.

Lemma onGuest_store now (u : User) (st st' : state) :
  onGuest now u st = Ok st' ->
  forall k, k <> guestKey -> localStorage st' !! k = localStorage st !! k.
Proof.
  unfold onGuest. intros E k Hk.
  destruct (try_catch _ _) as [[sa g]| | |] eqn:E1;
    cbn [mbind outcome_bind] in E; try done.
  assert (localStorage sa !! k = localStorage st !! k) as Hsa.
  { destruct (localStorage st !! guestKey) as [text|]; [|by injection E1 as <- _].
    destruct (truthy (VStr text)); [|by injection E1 as <- _].
    destruct (JSON_parse text (mem st)) as [[h v]|e| |];
      cbn [mbind outcome_bind try_catch] in E1; try done.
    - by injection E1 as <- _.
    - injection E1 as <- _. cbn [localStorage removeItem console_error].
      by rewrite lookup_delete_ne. }
  destruct (truthy g).
  - injection E as <-. done.
  - destruct (newGuestProfile now u (mem sa)) as [h p].
    destruct (JSON_stringify h p) as [t| | |]; cbn [mbind outcome_bind] in E; try done.
    injection E as <-.
    cbn [localStorage setLoading setUserProfile setItem setMem].
    by rewrite lookup_insert_ne.
Qed.

Lemma onAuthStateChanged_store now (u : option User) (st st' : state) :
  onAuthStateChanged now u st = Ok st' ->
  forall k, k <> guestKey -> localStorage st' !! k = localStorage st !! k.
Proof.
  unfold onAuthStateChanged. intros E k Hk. destruct u as [u|].
  - destruct (isAnonymous u).
    + by rewrite (onGuest_store _ _ _ _ E k Hk).
    + by injection E as <-.
  - injection E as <-. cbn [localStorage setLoading removeItem setUserProfile setUser].
    by rewrite lookup_delete_ne.
Qed.

Lemma onSnapshot_store now (u : User) docSnap (st st' : state) :
  onSnapshot AVATAR_OPTIONS now u docSnap st = Ok st' ->
  localStorage st' = localStorage st /\ user st' = user st.
Proof.
  unfold onSnapshot. intros E. destruct docSnap as [data|].
  - destruct (truthy (field "photoURL" data)).
    + destruct (profileData _ _ _ _) as [[h p]| | |];
        cbn [mbind outcome_bind] in E; try done. by injection E as <-.
    + destruct (profileData _ _ _ _) as [[h p]| | |];
        cbn [mbind outcome_bind] in E; try done. by injection E as <-.
  - destruct (newProfileData u (mem st)) as [h fields]. by injection E as <-.
Qed.

Lemma handleUpdateProfile_store p (st st' : state) :
  handleUpdateProfile p st = Ok st' ->
  user st' = user st /\
  (forall k, k <> guestKey -> localStorage st' !! k = localStorage st !! k) /\
  (forall u, user st = Some u -> isAnonymous u = false ->
             localStorage st' = localStorage st).
Proof.
  unfold handleUpdateProfile. cbn [user setUserProfile]. intros E.
  destruct (user st) as [u|] eqn:Hu; [|by injection E as <-].
  destruct (isAnonymous u) eqn:Hanon; [|by injection E as <-].
  destruct (JSON_stringify _ _) as [t| | |]; cbn [mbind outcome_bind] in E; try done.
  injection E as <-. cbn [user localStorage setItem setUserProfile].
  split; [done|]. split.
  - intros k Hk. by rewrite lookup_insert_ne.
  - intros u' [= <-] Hu'. congruence.
Qed.

Lemma dispatch_store now ev (c c' : component) :
  dispatch AVATAR_OPTIONS now ev c = Ok c' ->
  forall k, k <> guestKey ->
    localStorage (base c') !! k = localStorage (base c) !! k.
Proof.
  intros E k Hk. destruct ev; cbn [dispatch] in E.
  - destruct (onAuthStateChanged now u (base c)) as [st| | |] eqn:E1;
      cbn [mbind outcome_bind] in E; try done. injection E as <-.
    by eapply onAuthStateChanged_store.
  - destruct (onSnapshot AVATAR_OPTIONS now u docSnap (base c)) as [st| | |] eqn:E1;
      cbn [mbind outcome_bind] in E; try done. injection E as <-.
    apply onSnapshot_store in E1 as [E1 _]. cbn [base setBase]. by rewrite E1.
  - by injection E as <-.
  - by injection E as <-.
  - by injection E as <-.
  - destruct (handleUpdateProfile newProfile (base c)) as [st| | |] eqn:E1;
      cbn [mbind outcome_bind] in E; try done. injection E as <-.
    apply handleUpdateProfile_store in E1 as (_ & E1 & _). by apply E1.
  - by injection E as <-.
  - by injection E as <-.
  - by injection E as <-.
  - by injection E as <-.
  - by injection E as <-.
  - by injection E as <-.
Qed.

(** X22.  Whatever happens to the component, for any run of events whose
    callbacks complete, the only key of the local store that can have
    changed is the guest key: every other key, the PIN among them, holds
    what it held. *)
Theorem only_the_guest_key_is_written (evs : list (Z * event)) (c c' : component) :
  run AVATAR_OPTIONS evs c = Ok c' ->
  forall k, k <> guestKey ->
    localStorage (base c') !! k = localStorage (base c) !! k.
Proof.
  revert c. induction evs as [|[now ev] evs IH]; intros c E k Hk; cbn [run] in E.
  - by injection E as <-.
  - destruct (dispatch AVATAR_OPTIONS now ev c) as [c1| | |] eqn:E1;
      cbn [mbind outcome_bind] in E; try done.
    rewrite (IH c1 E k Hk). by eapply dispatch_store.
Qed.

Lemma dispatch_lock now ev (c c' : component) :
  dispatch AVATAR_OPTIONS now ev c = Ok c' -> keepsLock ev = true ->
  appLocked c' = appLocked c.
Proof.
  intros E Hev. destruct ev; cbn [dispatch] in E; try done;
    try (by injection E as <-).
  - destruct (onAuthStateChanged now u (base c)) as [st| | |];
      cbn [mbind outcome_bind] in E; try done. by injection E as <-.
  - destruct (onSnapshot AVATAR_OPTIONS now u docSnap (base c)) as [st| | |];
      cbn [mbind outcome_bind] in E; try done. by injection E as <-.
  - destruct (handleUpdateProfile newProfile (base c)) as [st| | |];
      cbn [mbind outcome_bind] in E; try done. by injection E as <-.
Qed.

(** X23.  While the component is locked, no identity, snapshot or profile
    event unlocks it: after any run of events other than the two that set
    the lock, what is rendered is the spinner or the PIN screen, never the
    main screen nor the sign-in screen. *)
Theorem lock_is_kept (evs : list (Z * event)) (c c' : component) :
  appLocked c = true ->
  forallb (fun e => keepsLock e.2) evs = true ->
  run AVATAR_OPTIONS evs c = Ok c' ->
  appLocked c' = true /\ (render c' = Spinner \/ render c' = PinLock).
Proof.
  intros Hlock Hevs E.
  assert (appLocked c' = true) as Hc'.
  { revert c Hlock E. induction evs as [|[now ev] evs IH]; intros c Hlock E;
      cbn [run] in E.
    - by injection E as <-.
    - cbn [forallb snd] in Hevs. apply andb_prop in Hevs as [Hev Hevs].
      destruct (dispatch AVATAR_OPTIONS now ev c) as [c1| | |] eqn:E1;
        cbn [mbind outcome_bind] in E; try done.
      apply (IH Hevs c1); [|done].
      by rewrite (dispatch_lock _ _ _ _ E1 Hev). }
  split; [done|]. unfold render. rewrite Hc'.
  destruct (loading (base c')); [by left|by right].
Qed.

Lemma dispatch_member now ev (c c' : component) u :
  dispatch AVATAR_OPTIONS now ev c = Ok c' -> keepsIdentity ev = true ->
  user (base c) = Some u -> isAnonymous u = false ->
  user (base c') = Some u /\ localStorage (base c') = localStorage (base c).
Proof.
  intros E Hev Hu Hanon. destruct ev; cbn [dispatch] in E; try done;
    try (by injection E as <-).
  - destruct (onSnapshot AVATAR_OPTIONS now u0 docSnap (base c)) as [st| | |] eqn:E1;
      cbn [mbind outcome_bind] in E; try done. injection E as <-.
    apply onSnapshot_store in E1 as [E1 E2]. cbn [base setBase]. by rewrite E1, E2.
  - destruct (handleUpdateProfile newProfile (base c)) as [st| | |] eqn:E1;
      cbn [mbind outcome_bind] in E; try done. injection E as <-.
    apply handleUpdateProfile_store in E1 as (E1 & _ & E2). cbn [base setBase].
    rewrite E1. split; [done|]. by apply (E2 u).
Qed.

(** X24.  While the identity is a signed-in one, nothing is written to the
    local store: after any run of events other than a change of identity,
    snapshots and profile updates included, the store is what it was and
    the identity is the same. *)
Theorem member_session_leaves_the_store (evs : list (Z * event)) (c c' : component) u :
  user (base c) = Some u -> isAnonymous u = false ->
  forallb (fun e => keepsIdentity e.2) evs = true ->
  run AVATAR_OPTIONS evs c = Ok c' ->
  localStorage (base c') = localStorage (base c) /\ user (base c') = Some u.
Proof.
  intros Hu Hanon Hevs. revert c Hu.
  induction evs as [|[now ev] evs IH]; intros c Hu E; cbn [run] in E.
  - by injection E as <-.
  - cbn [forallb snd] in Hevs. apply andb_prop in Hevs as [Hev Hevs].
    destruct (dispatch AVATAR_OPTIONS now ev c) as [c1| | |] eqn:E1;
      cbn [mbind outcome_bind] in E; try done.
    destruct (dispatch_member _ _ _ _ _ E1 Hev Hu Hanon) as [Hu1 Hls1].
    destruct (IH Hevs c1 Hu1 E) as [Hls Hu']. split; [congruence|done].
Qed.

(** X25.  A guest login shows the spinner until it is settled, and either
    way of settling it ends loading: when the guest arrives the guest's
    profile is installed and, unless the component is locked, the main
    screen is rendered for that guest; when the login is rejected this is
    logged and, unless the component is locked, what is rendered is what
    identity and profile were there before. *)
Theorem guest_login_is_settled now (u : User) (c : component) :
  validTime now -> isAnonymous u = true ->
  render (handleGuestLogin c) = Spinner /\
  requested (handleGuestLogin c) = requested c ++ [SignInAnonymously] /\
  (exists c1 p,
     dispatch AVATAR_OPTIONS now (IdentityChanged (Some u)) (handleGuestLogin c) = Ok c1 /\
     loading (base c1) = false /\ currentProfile (base c1) = Some p /\
     render c1 = if appLocked c then PinLock else MainScreen u p) /\
  loading (base (guestLoginRejected (handleGuestLogin c))) = false /\
  userProfile (base (guestLoginRejected (handleGuestLogin c))) = userProfile (base c) /\
  user (base (guestLoginRejected (handleGuestLogin c))) = user (base c) /\
  console (base (guestLoginRejected (handleGuestLogin c)))
  = console (base c) ++ ["Guest login failed:"].
Proof.
  intros Hnow Hanon. split; [done|]. split; [done|]. split; [|done].
  destruct (guest_arrives now u (setLoading true (base c)) Hnow Hanon)
    as (st' & E & Hu & Hload & [p Hp] & _).
  exists (setBase st' (handleGuestLogin c)), p.
  split; [cbn [dispatch handleGuestLogin base setBase request_]; by rewrite E|].
  cbn [base setBase]. split; [done|]. split; [done|].
  unfold render. cbn [base setBase appLocked handleGuestLogin request_].
  rewrite Hload, Hu. unfold currentProfile in Hp.
  destruct (appLocked c); [done|].
  destruct (truthy (userProfile st')); [|done]. by injection Hp as ->.
Qed.

(** X26.  The component mounts on the spinner.  From there: when the first
    identity event reports no identity, the sign-in screen is rendered, or
    the PIN screen when the component is locked; when it reports a
    signed-in identity, the spinner stays and one subscription to that
    identity's record is issued; the spinner stays when the record is found
    missing, and goes when the listener fails or the creation of the record
    is rejected. *)
Theorem first_screens (store : gmap string string) now (u : User) :
  isAnonymous u = false ->
  render (mount store) = Spinner /\
  (exists c1,
     dispatch AVATAR_OPTIONS now (IdentityChanged None) (mount store) = Ok c1 /\
     render c1 = if initialAppLocked store then PinLock else Auth) /\
  (exists c1,
     dispatch AVATAR_OPTIONS now (IdentityChanged (Some u)) (mount store) = Ok c1 /\
     render c1 = Spinner /\ issued (base c1) = [Subscribe (uid u)] /\
     (exists c2 c3,
        dispatch AVATAR_OPTIONS now (SnapshotArrived u None) c1 = Ok c2 /\
        render c2 = Spinner /\
        dispatch AVATAR_OPTIONS now CreateFailed c2 = Ok c3 /\
        render c3 = if initialAppLocked store then PinLock else Auth) /\
     (exists c2,
        dispatch AVATAR_OPTIONS now SnapshotFailed c1 = Ok c2 /\
        render c2 = if initialAppLocked store then PinLock else Auth)).
Proof.
  intros Hanon. split; [done|]. split.
  - eexists. split; [reflexivity|]. unfold render. cbn.
    by destruct (initialAppLocked store).
  - eexists. split; [cbn [dispatch onAuthStateChanged mount base]; rewrite Hanon; reflexivity|].
    split; [done|]. split; [done|]. split.
    + eexists _, _. split; [reflexivity|]. split; [done|]. split; [reflexivity|].
      unfold render. cbn. by destruct (initialAppLocked store).
    + eexists. split; [reflexivity|].
      unfold render. cbn. by destruct (initialAppLocked store).
Qed.

(** X27.  Asking to sign out changes nothing by itself: the same screen is
    rendered, with the same identity and profile, and a rejection is only
    logged.  It is the identity event that follows which discards the
    profile and the guest snapshot and brings the sign-in screen, or the
    PIN screen when the component is locked. *)
Theorem sign_out_is_settled now (c : component) :
  base (handleSignOut c) = base c /\
  render (handleSignOut c) = render c /\
  requested (handleSignOut c) = requested c ++ [SignOut] /\
  render (signOutRejected (handleSignOut c)) = render c /\
  console (base (signOutRejected (handleSignOut c)))
  = console (base c) ++ ["Error signing out: "] /\
  exists c1,
    dispatch AVATAR_OPTIONS now (IdentityChanged None) (handleSignOut c) = Ok c1 /\
    render c1 = (if appLocked c then PinLock else Auth) /\
    currentProfile (base c1) = None /\
    localStorage (base c1) !! guestKey = None.
Proof.
  split; [done|]. split; [done|]. split; [done|]. split; [done|]. split; [done|].
  eexists. split; [reflexivity|]. split.
  - unfold render. cbn. by destruct (appLocked c).
  - split; [done|]. cbn. apply lookup_delete_eq.
Qed.

End Component_further.

(** ** The lock flag at mount *)

Section Trim.

Lemma blank_app W (s1 s2 : list ascii) : blank W s1 -> blank W s2 -> blank W (s1 ++ s2).
Proof.
  intros (ws1 & H1 & ->) (ws2 & H2 & ->). exists (ws1 ++ ws2).
  split; [by apply Forall_app|by rewrite concat_app].
Qed.

Lemma blank_word W (w : list ascii) : w ∈ W -> blank W w.
Proof.
  intros Hw. exists [w]. split; [by apply Forall_singleton|].
  cbn. by rewrite app_nil_r.
Qed.

Lemma blank_nil W : blank W [].
Proof. exists []. split; [apply Forall_nil_2|done]. Qed.

Lemma stripOne_Some W (s r : list ascii) :
  stripOne W s = Some r -> exists w, w ∈ W /\ s = w ++ r.
Proof.
  induction W as [|w W IH]; cbn [stripOne]; [done|].
  case_bool_decide as Hp.
  - intros [= <-]. exists w. split; [by left|].
    destruct Hp as [k ->]. by rewrite drop_app_length.
  - intros E. destruct (IH E) as (w' & Hw' & ->). exists w'. split; [by right|done].
Qed.

Lemma stripOne_word W (w r : list ascii) :
  (forall w1 w2, w1 ∈ W -> w2 ∈ W -> w1 `prefix_of` w2 -> w1 = w2) ->
  w ∈ W -> stripOne W (w ++ r) = Some r.
Proof.
  intros Hanti Hw.
  assert (forall W', W' ⊆ W -> w ∈ W' -> stripOne W' (w ++ r) = Some r) as H;
    [|by apply H].
  induction W' as [|w' W' IH]; intros Hsub Hin; [by apply elem_of_nil in Hin|].
  cbn [stripOne]. case_bool_decide as Hp.
  - assert (w' = w) as ->.
    { destruct (prefix_weak_total w' w (w ++ r) Hp) as [H|H].
      - by apply prefix_app_r.
      - apply Hanti; [apply Hsub; by left|done|done].
      - symmetry. apply Hanti; [done|apply Hsub; by left|done]. }
    by rewrite drop_app_length.
  - apply elem_of_cons in Hin as [->|Hin].
    + destruct Hp. by apply prefix_app_r.
    + apply IH; [|done]. intros x Hx. apply Hsub. by right.
Qed.

Lemma stripAll_blank W n (s : list ascii) : stripAll W n s = [] -> blank W s.
Proof.
  revert s. induction n as [|n IH]; intros s; cbn [stripAll].
  - intros ->. apply blank_nil.
  - destruct (stripOne W s) as [r|] eqn:E.
    + intros Hr. destruct (stripOne_Some _ _ _ E) as (w & Hw & ->).
      apply blank_app; [by apply blank_word|by apply IH].
    + intros ->. apply blank_nil.
Qed.

Lemma stripAll_split W n (s : list ascii) :
  exists pre, blank W pre /\ s = pre ++ stripAll W n s.
Proof.
  revert s. induction n as [|n IH]; intros s; cbn [stripAll].
  - exists []. split; [apply blank_nil|done].
  - destruct (stripOne W s) as [r|] eqn:E.
    + destruct (stripOne_Some _ _ _ E) as (w & Hw & ->).
      destruct (IH r) as (pre & Hpre & Hr). exists (w ++ pre).
      split; [apply blank_app; [by apply blank_word|done]|].
      by rewrite <- app_assoc, <- Hr.
    + exists []. split; [apply blank_nil|done].
Qed.

Lemma stripAll_nil W n : stripAll W n [] = [].
Proof.
  induction n as [|n IH]; cbn [stripAll]; [done|].
  destruct (stripOne W []) as [r|] eqn:E; [|done].
  destruct (stripOne_Some _ _ _ E) as (w & _ & Hr).
  symmetry in Hr. apply app_eq_nil in Hr as [_ ->]. apply IH.
Qed.

Lemma blank_stripAll W (s : list ascii) :
  (forall w1 w2, w1 ∈ W -> w2 ∈ W -> w1 `prefix_of` w2 -> w1 = w2) ->
  [] ∉ W ->
  blank W s -> forall n, length s <= n -> stripAll W n s = [].
Proof.
  intros Hanti Hne (ws & Hws & ->).
  induction Hws as [|w ws Hw _ IH]; intros n Hn; cbn [concat].
  - apply stripAll_nil.
  - cbn [concat] in Hn. rewrite length_app in Hn.
    assert (length w <> 0).
    { destruct w; [done|]. cbn. lia. }
    destruct n as [|n]; [lia|]. cbn [stripAll].
    rewrite stripOne_word by done. apply IH. lia.
Qed.

Lemma blank_reverse W (s : list ascii) :
  blank (reverse <$> W) (reverse s) -> blank W s.
Proof.
  intros (ws & Hws & Hs). revert s Hs.
  induction Hws as [|w ws Hw _ IH]; intros s Hs; cbn [concat] in Hs.
  - apply (f_equal reverse) in Hs. rewrite reverse_involutive in Hs.
    rewrite Hs. apply blank_nil.
  - apply (f_equal reverse) in Hs. rewrite reverse_involutive, reverse_app in Hs.
    rewrite Hs. apply blank_app.
    + apply IH. by rewrite reverse_involutive.
    + apply blank_word. apply list_elem_of_fmap in Hw as (w0 & -> & Hw0).
      by rewrite reverse_involutive.
Qed.

Lemma whiteSpace_words :
  (forall w1 w2, w1 ∈ whiteSpace -> w2 ∈ whiteSpace -> w1 `prefix_of` w2 -> w1 = w2) /\
  [] ∉ whiteSpace.
Proof.
  split.
  - assert (Forall (fun w1 => Forall (fun w2 => w1 `prefix_of` w2 -> w1 = w2)
                                whiteSpace) whiteSpace) as H.
    { apply (bool_decide_unpack _). by vm_compute. }
    intros w1 w2 H1 H2. rewrite Forall_forall in H. specialize (H w1 H1).
    rewrite Forall_forall in H. by apply H.
  - apply (bool_decide_unpack _). by vm_compute.
Qed.

(** [trim] leaves nothing exactly of the texts made of white space. *)
Lemma trim_empty (s : string) :
  trim s = EmptyString <-> blank whiteSpace (String.list_ascii_of_string s).
Proof.
  unfold trim. set (l := String.list_ascii_of_string s).
  destruct whiteSpace_words as [Hanti Hne].
  assert (forall x, String.string_of_list_ascii x = EmptyString <-> x = []) as Hnil.
  { intros [|a x]; by split. }
  rewrite Hnil. split.
  - unfold trimEnd. intros H. apply (f_equal reverse) in H.
    rewrite reverse_involutive, reverse_nil in H.
    apply stripAll_blank, blank_reverse in H.
    destruct (stripAll_split whiteSpace (length l) l) as (pre & Hpre & Hl).
    rewrite Hl. by apply blank_app.
  - intros Hb. unfold trimStart. rewrite (blank_stripAll _ _ Hanti Hne Hb) by done.
    done.
Qed.

(** X28.  The component mounts locked exactly when the store holds a PIN
    that is not made of white space only: an absent PIN, an empty one and a
    blank one leave it unlocked. *)
Theorem locked_iff_pin_not_blank (store : gmap string string) :
  initialAppLocked store = true
  <-> exists pin, store !! pinKey = Some pin /\
                  ~ blank whiteSpace (String.list_ascii_of_string pin).
Proof.
  unfold initialAppLocked. destruct (store !! pinKey) as [pin|].
  - rewrite andb_true_iff, negb_true_iff, String.eqb_neq, trim_empty. split.
    + intros [_ H]. by exists pin.
    + intros (pin' & [= <-] & H). split; [|done].
      destruct pin; [|done]. destruct H. apply blank_nil.
  - split; [done|]. by intros (pin & [=] & _).
Qed.

End Trim.

(** * The claims at concrete inputs, under the reference runtime *)

#[local] Existing Instance Reference.runtime.

Lemma validTime_0 : validTime 0.
Proof. unfold validTime. lia. Defined.

Lemma C1_witness :
  recognized guestHeap EmptyString (VRef 6) /\
  exists fp,
    owns guestHeap (VRef 6) fp /\
    exists text,
      JSON_stringify guestHeap (VRef 6) = Ok (Some text) /\
      forall h0, exists h1 y,
        JSON_parse text h0 = Ok (h1, y) /\ fieldwise guestHeap h1 (VRef 6) y.
Proof.
  destruct (guest_default_recognized 0 guest [] validTime_0) as (Hrec & fp & Hown).
  split; [exact Hrec|]. exists fp. split; [exact Hown|].
  exact (C1_roundtrip_when_unshared guestHeap (VRef 6) fp Hrec Hown).
Defined.

(** C1, as stated, fails: every shape of the aliased profile is recognized,
    yet the decoded snapshot has no [journalEntries]. *)
Lemma C1_counterexample :
  recognized aliasedHeap EmptyString (VRef 0) /\
  exists text h1 y,
    JSON_stringify aliasedHeap (VRef 0) = Ok (Some text) /\
    JSON_parse text [] = Ok (h1, y) /\
    ~ fieldwise aliasedHeap h1 (VRef 0) y.
Proof.
  split.
  - eapply rec_obj; [reflexivity| |].
    + apply (bool_decide_unpack _). by vm_compute.
    + intros k v Hin.
      repeat (apply elem_of_cons in Hin as [[= -> ->]|Hin]);
        [..|by apply elem_of_nil in Hin].
      * apply rec_str. intros H; exfalso; revert H; unfold dateKeys;
          rewrite !elem_of_cons, elem_of_nil; intros [?|[?|[?|[]]]]; discriminate.
      * eapply rec_date; [|reflexivity|apply validTime_0].
        unfold dateKeys. set_solver.
      * eapply rec_arr; [done|reflexivity|]. by intros i v [=].
      * eapply rec_arr; [done|reflexivity|]. by intros i v [=].
      * by apply (rec_set aliasedHeap 3 []).
  - eexists _, _, _. split; [vm_compute; reflexivity|].
    split; [vm_compute; reflexivity|].
    intros H. inversion H; subst;
      match goal with Ha : aliasedHeap !! 0 = Some _ |- _ =>
        cbn in Ha; try discriminate; injection Ha as <- end.
    match goal with Hb : _ !! 4 = Some _ |- _ => cbn in Hb; injection Hb as <- end.
    match goal with Hn : forall k, get k _ = None <-> get k _ = None |- _ =>
      destruct (Hn "journalEntries") as [_ Hback] end.
    discriminate (Hback eq_refl).
Qed.

Lemma C2_witness :
  timeField (mem initial) (field "createdAt" annRecord) /\
  exists st' p ps,
    onSnapshot avatars 0 member (Some annRecord) initial = Ok st' /\
    userProfile st' = VRef p /\ mem st' !! p = Some (OPlain ps) /\
    field "displayName" ps = VStr "Ann" /\
    field "isAdmin" ps = VBool false /\
    field "photoURL" ps = VStr "a.png".
Proof.
  assert (timeField (mem initial) VUndefined) as Hn by (left; reflexivity).
  split; [exact Hn|].
  destruct (C2_projection_of_record avatars 0 member annRecord initial Hn Hn)
    as (st' & p & ps & E & Hp & Hl & _ & Hname & _ & Hphoto & Hdef & _).
  exists st', p, ps. split; [exact E|]. split; [exact Hp|]. split; [exact Hl|].
  split; [exact Hname|]. split; [|exact Hphoto].
  apply (Hdef "isAdmin" (VBool false)). unfold fieldDefaults. set_solver.
Defined.

(** C2, as stated, fails: a record without [displayName] is projected
    without one. *)
Lemma C2_counterexample :
  exists st' p ps,
    onSnapshot avatars 0 member (Some [("email", VStr "ann@example.org")]) initial
      = Ok st' /\
    userProfile st' = VRef p /\ mem st' !! p = Some (OPlain ps) /\
    get "email" ps = Some (VStr "ann@example.org") /\
    get "displayName" ps = Some VUndefined.
Proof.
  eexists _, _, _. split; [vm_compute; reflexivity|].
  split; [reflexivity|]. split; [reflexivity|]. split; reflexivity.
Qed.

Ltac closed_heap :=
  let l := fresh "l" in
  let Hl := fresh "Hl" in
  let Hv := fresh "Hv" in
  intros l ? ? Hl Hv;
  repeat (destruct l as [|l];
          [cbn in Hl; injection Hl as <-; cbn in Hv;
           repeat (apply elem_of_cons in Hv as [->|Hv]; [cbn; lia|]);
           by apply elem_of_nil in Hv|]);
  by cbn in Hl.

Ltac dated_heap :=
  let l := fresh "l" in
  let Hl := fresh "Hl" in
  intros l ? Hl;
  repeat (destruct l as [|l];
          [cbn in Hl;
           lazymatch type of Hl with Some _ = _ => discriminate Hl end|]);
  by cbn in Hl.

Lemma ring_closed : closed ring.
Proof. closed_heap. Defined.

Lemma ring_dated : dated ring.
Proof. dated_heap. Defined.

Lemma C3_witness :
  closed ring /\ dated ring /\
  exists j, JSON_stringify ring (VRef 0) = Ok (Some (JSON_text j)) /\
            JSON_syntax (JSON_text j) = Some j.
Proof.
  split; [exact ring_closed|]. split; [exact ring_dated|].
  destruct (C3_cycles_are_cut ring ring_closed) as (_ & Hroot & _).
  apply (proj2 (Hroot ring_dated) 0 _ eq_refl). right. eauto.
Defined.

(** What the ring encodes to: the two back references are left out. *)
Example ring_encoded :
  exists text,
    JSON_stringify ring (VRef 0) = Ok (Some text) /\
    JSON_syntax text
    = Some (JObj [("name", JStr "a"); ("next", JObj [("name", JStr "b")])]).
Proof. eexists. split; [vm_compute; reflexivity|]. vm_compute. reflexivity. Qed.

(** C3, as stated, fails: an array that contains itself is encoded with the
    revisited occurrence written as [null], not omitted. *)
Lemma C3_counterexample :
  JSON_stringify [OArray [VRef 0]] (VRef 0) = Ok (Some "[null]") /\
  JSON_syntax "[null]" = Some (JArr [JNull]).
Proof. split; vm_compute; reflexivity. Qed.

Lemma C4_witness :
  JSON_syntax "{oops" = None /\
  exists st' snapshot,
    onAuthStateChanged 0 (Some guest) corrupted = Ok st' /\
    (mem st', userProfile st') = newGuestProfile 0 guest (mem corrupted) /\
    currentProfile st' = Some (userProfile st') /\
    loading st' = false /\
    JSON_stringify (mem st') (userProfile st') = Ok (Some snapshot) /\
    localStorage st' !! guestKey = Some snapshot /\
    snapshot <> "{oops".
Proof.
  split; [reflexivity|].
  apply (C4_malformed_snapshot_recovered 0 guest corrupted "{oops" validTime_0 eq_refl);
    [apply lookup_insert_eq|reflexivity].
Defined.

Lemma C5_witness :
  localStorage initial !! guestKey = None /\
  exists st' p ps s text,
    onAuthStateChanged 0 (Some guest) initial = Ok st' /\
    currentProfile st' = Some (VRef p) /\
    mem st' !! p = Some (OPlain ps) /\
    get "uid" ps = Some (VStr "abc12xyz") /\
    (exists label, get "displayName" ps = Some (VStr (String.append label "abc12"))) /\
    get "emergencyIndex" ps = Some (VNum 0) /\
    get "urgeIndex" ps = Some (VNum 0) /\
    get "storyIndex" ps = Some (VNum 0) /\
    get "communityPostFireReactions" ps = Some (VRef s) /\
    mem st' !! s = Some (OSet []) /\
    localStorage st' !! guestKey = Some text /\
    forall h0, exists h1 y,
      JSON_parse text h0 = Ok (h1, y) /\ fieldwise (mem st') h1 (VRef p) y.
Proof.
  split; [apply lookup_empty|].
  exact (C5_guest_creation 0 guest initial validTime_0 eq_refl eq_refl
           (lookup_empty _)).
Defined.

Lemma C6_witness :
  avatars !! (nat_of_ascii "u" mod length avatars) = Some "a.png" /\
  get "photoURL" annRecord = None /\
  timeField (mem initial) (field "createdAt" annRecord) /\
  timeField (mem initial) (field "startDate" annRecord) /\
  exists st' p ps,
    onSnapshot avatars 0 member (Some annRecord) initial = Ok st' /\
    currentProfile st' = Some (VRef p) /\
    mem st' !! p = Some (OPlain ps) /\
    field "photoURL" ps = VStr "a.png" /\
    issued st' = issued initial ++ [UpdateProfile "u1" (VStr "a.png");
                                    UpdateDoc "u1" (VStr "a.png")].
Proof.
  assert (timeField (mem initial) VUndefined) as Hn by (left; reflexivity).
  split; [reflexivity|]. split; [reflexivity|]. split; [exact Hn|]. split; [exact Hn|].
  destruct (C6_avatar_backfill avatars 0 member "u" "1" "a.png" annRecord initial
              eq_refl eq_refl eq_refl Hn Hn)
    as (st' & p & ps & E & Hc & Hl & Hphoto & Hiss & _).
  exists st', p, ps. split; [exact E|]. split; [exact Hc|]. split; [exact Hl|].
  split; [exact Hphoto|exact Hiss].
Defined.

(** C6, as stated, fails: a record with no avatar field whose [createdAt]
    is a text makes the callback throw, and no projection is installed. *)
Lemma C6_counterexample :
  get "photoURL" textRecord = None /\
  field "createdAt" textRecord = VStr "2020" /\
  onSnapshot avatars 0 member (Some textRecord) initial = Throw TypeError.
Proof. split; [done|]. split; [done|]. vm_compute. reflexivity. Qed.

(** C7 at its failing input: the instance of a class, whose tag is [Object],
    is serialized field by field, where a [Map] in its place is left out. *)
Theorem C7_class_instance_serialized :
  (exists text,
     JSON_stringify (handleHeap "Object") (VRef 0) = Ok (Some text) /\
     JSON_syntax text
     = Some (JObj [("uid", JStr "u1");
                   ("ref", JObj [("path", JStr "users/u1")]);
                   ("n", JNum 1)])) /\
  (exists text,
     JSON_stringify (handleHeap "Map") (VRef 0) = Ok (Some text) /\
     JSON_syntax text = Some (JObj [("uid", JStr "u1"); ("n", JNum 1)])).
Proof.
  split; (eexists; split; [vm_compute; reflexivity|]); vm_compute; reflexivity.
Qed.

Lemma C8_witness :
  avatars <> [] /\
  exists i url,
    avatarIndex avatars "u1" = Some i /\
    i = nat_of_ascii "u" mod length avatars /\
    i < length avatars /\
    avatars !! i = Some url /\
    defaultAvatarUrl avatars "u1" = VStr url.
Proof.
  assert (avatars <> []) as Hne by discriminate.
  split; [exact Hne|]. exact (C8_avatar_pick_in_range avatars "u" "1" Hne).
Defined.

(** A timestamp out of range, under a Timestamp class without [toJSON]:
    the replacer throws. *)
Example timestamp_out_of_range_throws :
  JSON_stringify (RT := Reference.bare)
    [OPlain [("createdAt", VRef 1)]; OTimestamp 8640000000000001] (VRef 0)
  = Throw RangeError.
Proof. vm_compute. reflexivity. Qed.

(** The same timestamp under two fields, under the Timestamp class of the
    store: its [toJSON] answers twice. *)
Example timestamp_encoded_twice :
  exists text,
    JSON_stringify [OPlain [("a", VRef 1); ("b", VRef 1)]; OTimestamp 1500] (VRef 0)
    = Ok (Some text) /\
    JSON_syntax text
    = Some (JObj [("a", JObj [("type", JStr "firestore/timestamp/1.0");
                              ("seconds", JNum 1); ("nanoseconds", JNum 500000000)]);
                  ("b", JObj [("type", JStr "firestore/timestamp/1.0");
                              ("seconds", JNum 1); ("nanoseconds", JNum 500000000)])]).
Proof. eexists. split; [vm_compute; reflexivity|]. vm_compute. reflexivity. Qed.

(** C10, as stated, fails: the same [Date] under two fields is encoded
    twice. *)
Lemma C10_counterexample :
  let h := [ OPlain [("createdAt", VRef 1); ("startDate", VRef 1)];
             ODate (Some 0%Z) ] in
  exists text,
    JSON_stringify h (VRef 0) = Ok (Some text) /\
    JSON_syntax text
    = Some (JObj [("createdAt", JStr "1970-01-01T00:00:00.000Z");
                  ("startDate", JStr "1970-01-01T00:00:00.000Z")]).
Proof. eexists. split; [vm_compute; reflexivity|]. vm_compute. reflexivity. Qed.

Lemma aliasedHeap_named : named aliasedHeap.
Proof.
  intros l o Hl.
  repeat (destruct l as [|l];
          [cbn in Hl; injection Hl as <-; cbn;
           apply (bool_decide_unpack _); by vm_compute|]).
  by cbn in Hl.
Defined.

Lemma C10_witness :
  named aliasedHeap /\
  follow aliasedHeap (VRef 0) [Key "blockedUsers"] = Some (VRef 2) /\
  follow aliasedHeap (VRef 0) [Key "journalEntries"] = Some (VRef 2) /\
  handed aliasedHeap 2 /\
  exists text j,
    JSON_stringify aliasedHeap (VRef 0) = Ok (Some text) /\
    JSON_syntax text = Some j /\
    ~ (wrote (Some j) [Key "blockedUsers"] /\ wrote (Some j) [Key "journalEntries"]).
Proof.
  split; [exact aliasedHeap_named|]. split; [reflexivity|]. split; [reflexivity|].
  split; [exact I|].
  destruct (C10_visited_set aliasedHeap) as (_ & _ & _ & H & _).
  eexists _, _. split; [vm_compute; reflexivity|]. split; [vm_compute; reflexivity|].
  eapply (H aliasedHeap_named (VRef 0) _ _ [Key "blockedUsers"] [Key "journalEntries"] 2);
    [vm_compute; reflexivity|vm_compute; reflexivity|discriminate
    |reflexivity|reflexivity|exact I].
Defined.

(** * The further properties at concrete inputs, under the reference runtime *)

Lemma aliasedHeap_closed : closed aliasedHeap.
Proof. closed_heap. Defined.

Lemma aliasedHeap_dated : dated aliasedHeap.
Proof. dated_heap. Defined.

Lemma shared_field_witness :
  closed aliasedHeap /\ dated aliasedHeap /\ handed aliasedHeap 2 /\
  exists ms,
    JSON_stringify aliasedHeap (VRef 0) = Ok (Some (JSON_text (JObj ms))) /\
    "journalEntries" ∉ ms.*1.
Proof.
  split; [exact aliasedHeap_closed|]. split; [exact aliasedHeap_dated|].
  split; [exact I|].
  apply (shared_field_written_once aliasedHeap 0 _ 2 3 "blockedUsers"
           "journalEntries" 2 aliasedHeap_closed aliasedHeap_dated eq_refl);
    [|reflexivity|reflexivity|lia|exact I].
  apply (bool_decide_unpack _). by vm_compute.
Defined.

Lemma twinsHeap_closed : closed twinsHeap.
Proof. closed_heap. Defined.

Lemma twinsHeap_dated : dated twinsHeap.
Proof. dated_heap. Defined.

Lemma shared_element_witness :
  closed twinsHeap /\ dated twinsHeap /\ handed twinsHeap 1 /\
  exists js,
    JSON_stringify twinsHeap (VRef 0) = Ok (Some (JSON_text (JArr js))) /\
    length js = 2 /\ js !! 1 = Some JNull.
Proof.
  split; [exact twinsHeap_closed|]. split; [exact twinsHeap_dated|].
  split; [exact I|].
  apply (shared_element_written_as_null twinsHeap 0 _ 0 1 1
           twinsHeap_closed twinsHeap_dated eq_refl eq_refl eq_refl);
    [lia|exact I].
Defined.

Lemma invalid_date_witness :
  JSON_stringify [ODate None] (VRef 0) = Ok (Some "null") /\
  JSON_parse "null" [] = Ok ([], VNull).
Proof.
  destruct (invalid_date_written_as_null [ODate None] 0 eq_refl) as (_ & H & _).
  split; [exact H|]. vm_compute. reflexivity.
Defined.

Lemma date_elsewhere_witness :
  "lastSeen" ∉ dateKeys /\
  SerializeJSONProperty 1 [ODate (Some 0%Z)] [] ∅ "lastSeen" (VRef 0)
  = Ok (∅, Some (JStr "1970-01-01T00:00:00.000Z")) /\
  InternalizeJSONProperty "lastSeen" (JStr "1970-01-01T00:00:00.000Z") []
  = ([], VStr "1970-01-01T00:00:00.000Z").
Proof.
  assert ("lastSeen" ∉ dateKeys) as Hk.
  { apply (bool_decide_unpack _). by vm_compute. }
  split; [exact Hk|].
  exact (date_elsewhere_returns_as_text [ODate (Some 0%Z)] 0 0 "lastSeen"
           eq_refl Hk 0 [] ∅ []).
Defined.

(** Under a Timestamp class without [toJSON]. *)
Lemma timestamp_witness :
  "createdAt" ∈ dateKeys /\
  Timestamp_toJSON (Runtime := Reference.bare) 0 = None /\
  SerializeJSONProperty (RT := Reference.bare) 1 [OTimestamp 0] [] ∅
    "createdAt" (VRef 0)
  = Ok ({[0]} ∪ ∅, Some (JStr "1970-01-01T00:00:00.000Z")) /\
  InternalizeJSONProperty (RT := Reference.bare) "createdAt"
    (JStr "1970-01-01T00:00:00.000Z") []
  = ([ODate (Some 0%Z)], VRef 0).
Proof.
  assert ("createdAt" ∈ dateKeys) as Hk by (by left).
  split; [exact Hk|]. split; [reflexivity|].
  exact (timestamp_returns_as_date (RT := Reference.bare) [OTimestamp 0] 0 0
           "createdAt" eq_refl eq_refl validTime_0 Hk 0 [] ∅ []
           ltac:(apply not_elem_of_empty)).
Defined.

Lemma date_text_witness :
  Date_parse "2000-01-01T00:00:00.000Z" = Some 946684800000%Z /\
  InternalizeJSONProperty "startDate" (JStr "2000-01-01T00:00:00.000Z") []
  = ([ODate (Some 946684800000%Z)], VRef 0).
Proof.
  assert (Date_parse "2000-01-01T00:00:00.000Z" = Some 946684800000%Z) as Hs
    by (vm_compute; reflexivity).
  split; [exact Hs|].
  exact (proj2 (date_text_returns_as_date _ _ "startDate" Hs
                  ltac:(right; left) 0 [] [] ∅ [])).
Defined.

Lemma parse_extends_witness :
  JSON_syntax "[1,[2]]" = Some (JArr [JNum 1; JArr [JNum 2]]) /\
  exists h1 y,
    JSON_parse "[1,[2]]" [ODate None] = Ok (h1, y) /\
    [ODate None] `prefix_of` h1 /\ valid h1 y /\ (closed [ODate None] -> closed h1).
Proof.
  assert (JSON_syntax "[1,[2]]" = Some (JArr [JNum 1; JArr [JNum 2]])) as Hj
    by (vm_compute; reflexivity).
  split; [exact Hj|].
  exact (parse_extends_heap "[1,[2]]" _ [ODate None] Hj).
Defined.

Lemma restored_witness :
  JSON_parse "[1]" [] = Ok ([OArray [VNum 1]], VRef 0) /\
  exists st',
    onAuthStateChanged 0 (Some guest) (setItem guestKey "[1]" initial) = Ok st' /\
    userProfile st' = VRef 0 /\ mem st' = [OArray [VNum 1]] /\
    user st' = Some guest /\ loading st' = false /\
    localStorage st' = localStorage (setItem guestKey "[1]" initial) /\
    console st' = [] /\ issued st' = [].
Proof.
  assert (JSON_parse "[1]" [] = Ok ([OArray [VNum 1]], VRef 0)) as Hparse
    by (vm_compute; reflexivity).
  split; [exact Hparse|].
  apply (guest_snapshot_restored 0 guest (setItem guestKey "[1]" initial) "[1]"
           [OArray [VNum 1]] (VRef 0) eq_refl);
    [apply lookup_insert_eq|discriminate|exact Hparse|reflexivity].
Defined.

Lemma reload_witness :
  JSON_syntax EmptyString = None /\
  exists st1,
    onAuthStateChanged 0 (Some guest) initial = Ok st1 /\
    forall st2, localStorage st2 !! guestKey = localStorage st1 !! guestKey ->
      exists st3,
        onAuthStateChanged 1 (Some guest) st2 = Ok st3 /\
        fieldwise (mem st1) (mem st3) (userProfile st1) (userProfile st3) /\
        localStorage st3 = localStorage st2.
Proof.
  split; [reflexivity|].
  exact (guest_profile_survives_reload 0 1 guest guest initial validTime_0
           eq_refl eq_refl (lookup_empty _) eq_refl).
Defined.

Lemma falsy_snapshot_witness :
  JSON_syntax "null" = Some JNull /\
  exists st' snapshot,
    onAuthStateChanged 0 (Some guest) (setItem guestKey "null" initial) = Ok st' /\
    (mem st', userProfile st') = newGuestProfile 0 guest [] /\
    loading st' = false /\ console st' = [] /\
    JSON_stringify (mem st') (userProfile st') = Ok (Some snapshot) /\
    localStorage st' !! guestKey = Some snapshot.
Proof.
  assert (JSON_syntax "null" = Some JNull) as Hj by (vm_compute; reflexivity).
  split; [exact Hj|].
  apply (falsy_snapshot_replaced 0 guest (setItem guestKey "null" initial) "null"
           validTime_0 eq_refl); [apply lookup_insert_eq|].
  right. exists JNull. split; [exact Hj|by left].
Defined.

Lemma guest_sign_in_witness :
  exists st',
    onAuthStateChanged 0 (Some guest) corrupted = Ok st' /\
    user st' = Some guest /\ loading st' = false /\
    is_Some (currentProfile st') /\
    is_Some (localStorage st' !! guestKey) /\
    mem corrupted `prefix_of` mem st'.
Proof. exact (guest_sign_in_completes 0 guest corrupted validTime_0 eq_refl). Defined.

Lemma afresh_witness :
  exists st1 st2 snapshot,
    onAuthStateChanged 0 None guestState = Ok st1 /\
    onAuthStateChanged 0 (Some guest) st1 = Ok st2 /\
    (mem st2, userProfile st2) = newGuestProfile 0 guest (mem guestState) /\
    JSON_stringify (mem st2) (userProfile st2) = Ok (Some snapshot) /\
    localStorage st2 !! guestKey = Some snapshot /\
    console st2 = console guestState.
Proof.
  exact (guest_after_sign_out_starts_afresh 0 0 guest guestState validTime_0 eq_refl).
Defined.

Lemma update_witness :
  recognized (mem guestState) EmptyString (VRef 6) /\
  exists st1,
    handleUpdateProfile (VRef 6) guestState = Ok st1 /\
    userProfile st1 = VRef 6 /\ mem st1 = mem guestState /\
    forall st2, localStorage st2 !! guestKey = localStorage st1 !! guestKey ->
      exists st3,
        onAuthStateChanged 0 (Some guest) st2 = Ok st3 /\
        fieldwise (mem st1) (mem st3) (VRef 6) (userProfile st3) /\
        localStorage st3 = localStorage st2.
Proof.
  destruct (guest_default_recognized 0 guest [] validTime_0) as (Hrec & fp & Hown).
  split; [exact Hrec|].
  exact (guest_update_survives_reload 0 guest guest guestState (VRef 6) fp
           eq_refl eq_refl eq_refl Hrec Hown eq_refl eq_refl).
Defined.

Lemma absent_timeField (h : heap) : timeField h VUndefined.
Proof. left. reflexivity. Defined.



Lemma ill_typed_witness :
  field "createdAt" textRecord = VStr "2020" /\
  onSnapshot avatars 0 member (Some textRecord) initial = Throw TypeError.
Proof.
  split; [reflexivity|].
  apply (ill_typed_time_field_throws avatars 0 member textRecord initial "createdAt");
    [by left|exact I|reflexivity|exact I|discriminate].
Defined.

Lemma projection_fields_witness :
  exists st' p ps,
    onSnapshot avatars 0 member
      (Some (("journalEntries", VNum 7) :: ("uid", VStr "other") :: annRecord)) initial
      = Ok st' /\
    userProfile st' = VRef p /\ mem st' !! p = Some (OPlain ps) /\
    ps.*1 = [ "uid"; "displayName"; "email"; "photoURL"; "createdAt";
              "startDate"; "isAdmin"; "isMuted"; "role"; "commitmentDocument";
              "blockedUsers"; "emergencyIndex"; "urgeIndex"; "storyIndex" ] /\
    get "uid" ps = Some (VStr "u1") /\
    forall k, k ∉ ps.*1 -> get k ps = None.
Proof.
  exact (projection_has_no_other_field avatars 0 member
           (("journalEntries", VNum 7) :: ("uid", VStr "other") :: annRecord) initial
           (absent_timeField _) (absent_timeField _)).
Defined.

Lemma guest_key_witness :
  exists c',
    run avatars guestVisit (mount pinStore) = Ok c' /\
    forall k, k <> guestKey ->
      localStorage (base c') !! k = pinStore !! k.
Proof.
  destruct (run avatars guestVisit (mount pinStore)) as [c'|e| |] eqn:E;
    [|exfalso; vm_compute in E; discriminate..].
  exists c'. split; [reflexivity|].
  exact (only_the_guest_key_is_written avatars guestVisit _ _ E).
Defined.

Lemma lock_witness :
  appLocked (mount pinStore) = true /\
  exists c',
    run avatars (take 2 guestVisit) (mount pinStore) = Ok c' /\
    appLocked c' = true /\ (render c' = Spinner \/ render c' = PinLock).
Proof.
  assert (appLocked (mount pinStore) = true) as Hlock by (vm_compute; reflexivity).
  split; [exact Hlock|].
  destruct (run avatars (take 2 guestVisit) (mount pinStore)) as [c'|e| |] eqn:E;
    [|exfalso; vm_compute in E; discriminate..].
  exists c'. split; [reflexivity|].
  exact (lock_is_kept avatars (take 2 guestVisit) _ _ Hlock eq_refl E).
Defined.

Lemma member_session_witness :
  exists c',
    run avatars memberVisit memberComponent = Ok c' /\
    localStorage (base c') = localStorage (base memberComponent) /\
    user (base c') = Some member.
Proof.
  destruct (run avatars memberVisit memberComponent) as [c'|e| |] eqn:E;
    [|exfalso; vm_compute in E; discriminate..].
  exists c'. split; [reflexivity|].
  exact (member_session_leaves_the_store avatars memberVisit memberComponent c'
           member eq_refl eq_refl eq_refl E).
Defined.

Lemma guest_login_witness :
  render (handleGuestLogin (mount ∅)) = Spinner /\
  exists c1 p,
    dispatch avatars 0 (IdentityChanged (Some guest)) (handleGuestLogin (mount ∅)) = Ok c1 /\
    loading (base c1) = false /\ currentProfile (base c1) = Some p /\
    render c1 = MainScreen guest p.
Proof.
  destruct (guest_login_is_settled avatars 0 guest (mount ∅) validTime_0 eq_refl)
    as (Hs & _ & (c1 & p & E & Hl & Hp & Hr) & _).
  split; [exact Hs|]. exists c1, p. by repeat (split; [done|]).
Defined.

Lemma first_screens_witness :
  render (mount pinStore) = Spinner /\
  exists c1,
    dispatch avatars 0 (IdentityChanged None) (mount pinStore) = Ok c1 /\
    render c1 = PinLock.
Proof.
  destruct (first_screens avatars pinStore 0 member eq_refl) as (Hs & (c1 & E & Hr) & _).
  split; [exact Hs|]. exists c1. split; [exact E|].
  rewrite Hr. vm_compute. reflexivity.
Defined.

Lemma created_record_witness :
  exists st1 fields,
    onSnapshot avatars 0 member None initial = Ok st1 /\
    issued st1 = [SetDoc "u1" fields] /\
    forall st2 stamp, timeField (mem st2) stamp ->
      exists st3 p ps,
        onSnapshot avatars 1 member (Some (put "createdAt" stamp fields)) st2 = Ok st3 /\
        userProfile st3 = VRef p /\ mem st3 !! p = Some (OPlain ps) /\
        loading st3 = false /\
        field "displayName" ps = VStr "Ann" /\
        field "photoURL" ps = VStr "a.png" /\
        field "role" ps = VUndefined /\
        field "isAdmin" ps = VBool false /\ field "isMuted" ps = VBool false /\
        field "commitmentDocument" ps = VStr EmptyString /\
        field "emergencyIndex" ps = VNum 0 /\ field "urgeIndex" ps = VNum 0 /\
        field "storyIndex" ps = VNum 0.
Proof. exact (created_record_projected avatars 0 1 member initial eq_refl). Defined.
